(** * People registry: the validation, storage and backup core

    A shallow embedding of the Person model, the DataBackup utility and
    the DataManager of the registry, with the properties of its
    specification stated and proved (or refuted) over it.

    Modelling conventions
    - A JavaScript string is a [jsstring]: the list of its code units.
      Each [ascii] stands for one code unit in the range 0..255.
      The messages of the program are written here in UTF-8, so an
      accented letter of a message takes two units; nothing below
      depends on the length of a message.
    - A JavaScript value is a [jsval]; numbers are the integers.
    - A Date object is its time value: [Some t] with [t] in milliseconds
      since the epoch (UTC), [None] for an invalid date.
    - Exceptions do not roll the state back: a computation returns its
      outcome together with the state it leaves behind. *)

From Stdlib Require Import ZArith Ascii String List Bool Lia.
From stdpp Require Import base tactics option list.

Open Scope Z_scope.

(** ** Strings *)

Definition jsstring := list ascii.

Definition js (s : string) : jsstring := list_ascii_of_string s.

(** [charCodeAt] *)
Definition code (c : ascii) : Z := Z.of_N (N_of_ascii c).

Definition chr (n : Z) : ascii := ascii_of_N (Z.to_N n).

(** the class [\d] *)
Definition isDigit (c : ascii) : bool := (48 <=? code c) && (code c <=? 57).

(** the class [\s] restricted to code units below 256, which is also the
    set [trim] removes: TAB, LF, VT, FF, CR, SP, NBSP *)
Definition isSpace (c : ascii) : bool :=
  ((9 <=? code c) && (code c <=? 13)) || (code c =? 32) || (code c =? 160).

(** the class [\p{L}] restricted to code units below 256 *)
Definition isLetter (c : ascii) : bool :=
  let n := code c in
  ((65 <=? n) && (n <=? 90)) || ((97 <=? n) && (n <=? 122))
  || (n =? 170) || (n =? 181) || (n =? 186)
  || ((192 <=? n) && (n <=? 214)) || ((216 <=? n) && (n <=? 246))
  || ((248 <=? n) && (n <=? 255)).

Definition ascii_eqb (a b : ascii) : bool := (code a =? code b).

Fixpoint str_eqb (s t : jsstring) : bool :=
  match s, t with
  | [], [] => true
  | a :: s', b :: t' => ascii_eqb a b && str_eqb s' t'
  | _, _ => false
  end.

Fixpoint dropWhile {A} (f : A -> bool) (l : list A) : list A :=
  match l with
  | [] => []
  | x :: l' => if f x then dropWhile f l' else l
  end.

(** [String.prototype.trim] *)
Definition trim (s : jsstring) : jsstring :=
  rev (dropWhile isSpace (rev (dropWhile isSpace s))).

Fixpoint isPrefix (p s : jsstring) : bool :=
  match p, s with
  | [], _ => true
  | a :: p', b :: s' => ascii_eqb a b && isPrefix p' s'
  | _ :: _, [] => false
  end.

(** [String.prototype.includes] *)
Fixpoint includes (s t : jsstring) : bool :=
  isPrefix t s || match s with [] => false | _ :: s' => includes s' t end.

(** [Array.prototype.join] on strings *)
Fixpoint join (sep : jsstring) (l : list jsstring) : jsstring :=
  match l with
  | [] => []
  | [x] => x
  | x :: l' => x ++ sep ++ join sep l'
  end.

(** the segments of [s] between occurrences of [sep] *)
Fixpoint split_on (sep : ascii) (s : jsstring) : list jsstring :=
  match s with
  | [] => [[]]
  | c :: s' =>
      if ascii_eqb c sep then [] :: split_on sep s'
      else match split_on sep s' with
           | [] => [[c]]
           | seg :: segs => (c :: seg) :: segs
           end
  end.

(** ** Numbers in text *)

Definition digitVal (c : ascii) : Z := code c - 48.

(** [parseInt(s, 10)] on a string of decimal digits *)
Definition parseDigits (s : jsstring) : Z :=
  fold_left (fun acc c => 10 * acc + digitVal c) s 0.

Definition digitChar (d : Z) : ascii := chr (48 + d).

Fixpoint dec_nat (fuel : nat) (n : Z) (acc : jsstring) : jsstring :=
  match fuel with
  | O => acc
  | S fuel' =>
      let acc' := digitChar (n mod 10) :: acc in
      if n <? 10 then acc' else dec_nat fuel' (n / 10) acc'
  end.

(** the decimal digits of a non-negative integer *)
Definition dec_pos (n : Z) : jsstring := dec_nat (S (Z.to_nat (Z.log2 n))) n [].

(** [Number.prototype.toString()] on integers *)
Definition dec (n : Z) : jsstring :=
  if n <? 0 then "-"%char :: dec_pos (- n) else dec_pos n.

Definition hexChar (d : Z) : ascii := if d <? 10 then chr (48 + d) else chr (87 + d).

Fixpoint hex_nat (fuel : nat) (n : Z) (acc : jsstring) : jsstring :=
  match fuel with
  | O => acc
  | S fuel' =>
      let acc' := hexChar (n mod 16) :: acc in
      if n <? 16 then acc' else hex_nat fuel' (n / 16) acc'
  end.

(** [Number.prototype.toString(16)] on integers *)
Definition hex (n : Z) : jsstring :=
  if n <? 0 then "-"%char :: hex_nat (S (Z.to_nat (Z.log2 (- n)))) (- n) []
  else hex_nat (S (Z.to_nat (Z.log2 n))) n [].

(** left padding with zeros, [padStart(w, "0")] *)
Definition pad (w : nat) (s : jsstring) : jsstring :=
  replicate (w - length s)%nat "0"%char ++ s.

(** ** Values *)

Definition Date := option Z.

Unset Elimination Schemes.

Inductive jsval :=
  | VUndefined
  | VNull
  | VBool (b : bool)
  | VNum (n : Z)
  | VStr (s : jsstring)
  | VDate (d : Date)
  | VArr (l : list jsval)
  | VObj (props : list (jsstring * jsval)).

Set Elimination Schemes.

(** structural induction through the lists of elements and properties *)
Section jsval_induction.
Variable P : jsval -> Prop.
Hypothesis Pundef : P VUndefined.
Hypothesis Pnull : P VNull.
Hypothesis Pbool : forall b, P (VBool b).
Hypothesis Pnum : forall n, P (VNum n).
Hypothesis Pstr : forall s, P (VStr s).
Hypothesis Pdate : forall d, P (VDate d).
Hypothesis Parr : forall l, Forall P l -> P (VArr l).
Hypothesis Pobj : forall ps, Forall (fun kv => P (snd kv)) ps -> P (VObj ps).

Fixpoint jsval_ind (v : jsval) : P v :=
  match v with
  | VUndefined => Pundef
  | VNull => Pnull
  | VBool b => Pbool b
  | VNum n => Pnum n
  | VStr s => Pstr s
  | VDate d => Pdate d
  | VArr l =>
      Parr l ((fix go (l : list jsval) : Forall P l :=
                 match l with
                 | [] => List.Forall_nil P
                 | x :: l' => List.Forall_cons P x l' (jsval_ind x) (go l')
                 end) l)
  | VObj ps =>
      Pobj ps ((fix go (ps : list (jsstring * jsval))
                  : Forall (fun kv => P (snd kv)) ps :=
                  match ps with
                  | [] => List.Forall_nil _
                  | kv :: ps' =>
                      List.Forall_cons (fun kv => P (snd kv)) kv ps'
                                       (jsval_ind (snd kv)) (go ps')
                  end) ps)
  end.
End jsval_induction.

(** [ToBoolean] *)
Definition truthy (v : jsval) : bool :=
  match v with
  | VUndefined | VNull => false
  | VBool b => b
  | VNum n => negb (n =? 0)
  | VStr s => match s with [] => false | _ => true end
  | VDate _ | VArr _ | VObj _ => true
  end.

(** [typeof v === "string"] *)
Definition isString (v : jsval) : bool :=
  match v with VStr _ => true | _ => false end.

(** [v === VStr s] for a string [s] *)
Definition strictEqStr (s : jsstring) (v : jsval) : bool :=
  match v with VStr t => str_eqb s t | _ => false end.

(** [a === b] where it is used: primitives compare by value; two objects,
    arrays or dates met in the data are distinct objects here *)
Definition strictEq (a b : jsval) : bool :=
  match a, b with
  | VUndefined, VUndefined => true
  | VNull, VNull => true
  | VBool x, VBool y => Bool.eqb x y
  | VNum x, VNum y => x =? y
  | VStr x, VStr y => str_eqb x y
  | _, _ => false
  end.

Fixpoint assoc (k : jsstring) (ps : list (jsstring * jsval)) : option jsval :=
  match ps with
  | [] => None
  | (k', v) :: ps' => if str_eqb k k' then Some v else assoc k ps'
  end.

(** ** Calendar arithmetic of Date objects (ECMAScript, time values) *)

Module DateTime.

Definition msPerDay : Z := 86400000.

Definition Day (t : Z) : Z := t / msPerDay.

Definition TimeWithinDay (t : Z) : Z := t mod msPerDay.

Definition isLeap (y : Z) : bool :=
  ((y mod 4 =? 0) && negb (y mod 100 =? 0)) || (y mod 400 =? 0).

Definition DaysInYear (y : Z) : Z := if isLeap y then 366 else 365.

Definition DayFromYear (y : Z) : Z :=
  365 * (y - 1970) + (y - 1969) / 4 - (y - 1901) / 100 + (y - 1601) / 400.

Fixpoint yearDown (fuel : nat) (y d : Z) : Z :=
  match fuel with
  | O => y
  | S fuel' => if DayFromYear y <=? d then y else yearDown fuel' (y - 1) d
  end.

(** the largest year whose first day is not after day [d]: searched
    downwards from an upper estimate *)
Definition YearFromDay (d : Z) : Z :=
  yearDown (Z.to_nat (Z.abs d / 100000) + 3)
           (1970 + (if d <? 0 then d / 366 else d / 365)) d.

Definition YearFromTime (t : Z) : Z := YearFromDay (Day t).

Definition DayWithinYear (t : Z) : Z := Day t - DayFromYear (YearFromTime t).

Definition InLeapYear (t : Z) : Z := if isLeap (YearFromTime t) then 1 else 0.

(** months are numbered from 0 *)
Definition MonthFromTime (t : Z) : Z :=
  let d := DayWithinYear t in
  let l := InLeapYear t in
  if d <? 31 then 0
  else if d <? 59 + l then 1
  else if d <? 90 + l then 2
  else if d <? 120 + l then 3
  else if d <? 151 + l then 4
  else if d <? 181 + l then 5
  else if d <? 212 + l then 6
  else if d <? 243 + l then 7
  else if d <? 273 + l then 8
  else if d <? 304 + l then 9
  else if d <? 334 + l then 10
  else 11.

Definition monthStart (m l : Z) : Z :=
  match m with
  | 0 => 0
  | 1 => 31
  | 2 => 59 + l
  | 3 => 90 + l
  | 4 => 120 + l
  | 5 => 151 + l
  | 6 => 181 + l
  | 7 => 212 + l
  | 8 => 243 + l
  | 9 => 273 + l
  | 10 => 304 + l
  | _ => 334 + l
  end.

Definition DateFromTime (t : Z) : Z :=
  DayWithinYear t - monthStart (MonthFromTime t) (InLeapYear t) + 1.

(** [MakeDay(year, month, date)]: the day number, with month and date
    overflow carried over as the standard prescribes *)
Definition MakeDay (year month date : Z) : Z :=
  let ym := year + month / 12 in
  let mn := month mod 12 in
  DayFromYear ym + monthStart mn (if isLeap ym then 1 else 0) + date - 1.

Definition MakeDate (day time : Z) : Z := day * msPerDay + time.

(** the number of days of month [m] (1..12) of year [y] *)
Definition daysInMonth (y m : Z) : Z :=
  match m with
  | 2 => if isLeap y then 29 else 28
  | 4 | 6 | 9 | 11 => 30
  | _ => 31
  end.

(** the date parts of the day built from a year, a month (1..12) and a
    day come back unchanged *)
Definition partsComeBack (y m d : Z) : bool :=
  let t := MakeDate (MakeDay y (m - 1) d) 0 in
  (DateFromTime t =? d) && (MonthFromTime t =? m - 1) && (YearFromTime t =? y).

Definition HourFromTime (t : Z) : Z := (t / 3600000) mod 24.
Definition MinFromTime (t : Z) : Z := (t / 60000) mod 60.
Definition SecFromTime (t : Z) : Z := (t / 1000) mod 60.
Definition msFromTime (t : Z) : Z := t mod 1000.

(** [Date.prototype.toISOString] on a valid time value *)
Definition toISOString (t : Z) : jsstring :=
  let y := YearFromTime t in
  let ys := if (0 <=? y) && (y <=? 9999) then pad 4 (dec_pos y)
            else if y <? 0 then "-"%char :: pad 6 (dec_pos (- y))
            else "+"%char :: pad 6 (dec_pos y) in
  ys ++ js "-" ++ pad 2 (dec_pos (MonthFromTime t + 1))
     ++ js "-" ++ pad 2 (dec_pos (DateFromTime t))
     ++ js "T" ++ pad 2 (dec_pos (HourFromTime t))
     ++ js ":" ++ pad 2 (dec_pos (MinFromTime t))
     ++ js ":" ++ pad 2 (dec_pos (SecFromTime t))
     ++ js "." ++ pad 3 (dec_pos (msFromTime t)) ++ js "Z".

End DateTime.

(** ** The platform

    What the browser supplies and the program only calls: the Unicode
    case mappings, the Date constructor applied to a value that is not
    a Date, the offset of local time (one offset: a zone that does not
    change its clocks), the system clock and the random source.
    [clock k] and [random k] are the k-th readings. *)

Class Platform := {
  toUpperCase : jsstring -> jsstring;
  toLowerCase : jsstring -> jsstring;
  Date_parse : jsval -> Date;
  LocalTZA : Z;
  clock : nat -> Z;
  random : nat -> jsstring;
}.


(** ** JSON

    [JSON.stringify] and [JSON.parse] on [jsval].  An object is the list
    of its properties in enumeration order, with distinct keys.  Number
    literals with a fraction or an exponent, and escapes of code units
    above 255, are outside the model: the parser rejects them.  A text
    that writes a key of an object twice is outside it as well: the
    parser keeps both members where [JSON.parse] keeps the last. *)

Module JSON.

Definition hex2 (n : Z) : jsstring := [hexChar (n / 16); hexChar (n mod 16)].

Definition escapeChar (c : ascii) : jsstring :=
  let n := code c in
  if n =? 34 then [chr 92; chr 34]
  else if n =? 92 then js "\\"
  else if n =? 8 then js "\b"
  else if n =? 12 then js "\f"
  else if n =? 10 then js "\n"
  else if n =? 13 then js "\r"
  else if n =? 9 then js "\t"
  else if n <? 32 then js "\u00" ++ hex2 n
  else [c].

(** [QuoteJSONString] *)
Definition quote (s : jsstring) : jsstring :=
  chr 34 :: concat (map escapeChar s) ++ [chr 34].

Fixpoint stringify (v : jsval) : option jsstring :=
  match v with
  | VUndefined => None
  | VNull => Some (js "null")
  | VBool b => Some (if b then js "true" else js "false")
  | VNum n => Some (dec n)
  | VStr s => Some (quote s)
  | VDate None => Some (js "null")
  | VDate (Some t) => Some (quote (DateTime.toISOString t))
  | VArr l =>
      Some (js "[" ++
            join (js ",")
              (map (fun x => match stringify x with
                             | Some s => s
                             | None => js "null"
                             end) l)
            ++ js "]")
  | VObj ps =>
      Some (js "{" ++
            join (js ",")
              (omap (fun kv => match kv with
                               | (k, x) =>
                                   match stringify x with
                                   | Some s => Some (quote k ++ js ":" ++ s)
                                   | None => None
                                   end
                               end) ps)
            ++ js "}")
  end.

(** what [JSON.parse(JSON.stringify(v))] is: dates become their ISO
    strings, [undefined] becomes [null] in an array and drops a property *)
Fixpoint norm (v : jsval) : option jsval :=
  match v with
  | VUndefined => None
  | VNull | VBool _ | VNum _ | VStr _ => Some v
  | VDate None => Some VNull
  | VDate (Some t) => Some (VStr (DateTime.toISOString t))
  | VArr l =>
      Some (VArr (map (fun x => match norm x with
                                | Some y => y
                                | None => VNull
                                end) l))
  | VObj ps =>
      Some (VObj (omap (fun kv => match kv with
                                  | (k, x) =>
                                      match norm x with
                                      | Some y => Some (k, y)
                                      | None => None
                                      end
                                  end) ps))
  end.

Definition isWs (c : ascii) : bool :=
  (code c =? 32) || (code c =? 9) || (code c =? 10) || (code c =? 13).

Definition skipWs (s : jsstring) : jsstring := dropWhile isWs s.

(** the rest of [s] after the literal [lit] *)
Definition eat (lit s : jsstring) : option jsstring :=
  if isPrefix lit s then Some (drop (length lit) s) else None.

Definition hexVal (c : ascii) : option Z :=
  let n := code c in
  if (48 <=? n) && (n <=? 57) then Some (n - 48)
  else if (97 <=? n) && (n <=? 102) then Some (n - 87)
  else if (65 <=? n) && (n <=? 70) then Some (n - 55)
  else None.

Definition unescape (e : ascii) : option ascii :=
  let n := code e in
  if n =? 34 then Some (chr 34)
  else if n =? 92 then Some (chr 92)
  else if n =? 47 then Some (chr 47)
  else if n =? 98 then Some (chr 8)
  else if n =? 102 then Some (chr 12)
  else if n =? 110 then Some (chr 10)
  else if n =? 114 then Some (chr 13)
  else if n =? 116 then Some (chr 9)
  else None.

(** the characters of a string literal after its opening quote, and the
    text after its closing quote *)
Fixpoint parseString (s : jsstring) : option (jsstring * jsstring) :=
  match s with
  | [] => None
  | c :: s1 =>
      if code c =? 34 then Some ([], s1)
      else if code c =? 92 then
        match s1 with
        | [] => None
        | e :: s2 =>
            if code e =? 117 then
              match s2 with
              | h1 :: h2 :: h3 :: h4 :: s3 =>
                  match hexVal h1, hexVal h2, hexVal h3, hexVal h4 with
                  | Some a, Some b, Some c', Some d =>
                      let n := ((a * 16 + b) * 16 + c') * 16 + d in
                      if n <? 256 then
                        match parseString s3 with
                        | Some (r, rest) => Some (chr n :: r, rest)
                        | None => None
                        end
                      else None
                  | _, _, _, _ => None
                  end
              | _ => None
              end
            else
              match unescape e with
              | Some x =>
                  match parseString s2 with
                  | Some (r, rest) => Some (x :: r, rest)
                  | None => None
                  end
              | None => None
              end
        end
      else if code c <? 32 then None
      else
        match parseString s1 with
        | Some (r, rest) => Some (c :: r, rest)
        | None => None
        end
  end.

Fixpoint span {A} (f : A -> bool) (l : list A) : list A * list A :=
  match l with
  | [] => ([], [])
  | x :: l' => if f x then let (a, b) := span f l' in (x :: a, b) else ([], l)
  end.

Definition startsFraction (s : jsstring) : bool :=
  match s with
  | c :: _ => (code c =? 46) || (code c =? 101) || (code c =? 69)
  | [] => false
  end.

(** an integer literal without its sign *)
Definition parseNat (s : jsstring) : option (Z * jsstring) :=
  let (ds, rest) := span isDigit s in
  match ds with
  | [] => None
  | d :: ds' =>
      if (code d =? 48) && negb (match ds' with [] => true | _ => false end)
      then None
      else if startsFraction rest then None
      else Some (parseDigits ds, rest)
  end.

Fixpoint parseValue (fuel : nat) (s : jsstring) : option (jsval * jsstring) :=
  match fuel with
  | O => None
  | S fuel' =>
      match skipWs s with
      | [] => None
      | c :: r =>
          if code c =? 34 then
            match parseString r with
            | Some (str, rest) => Some (VStr str, rest)
            | None => None
            end
          else if code c =? 91 then
            match skipWs r with
            | c2 :: r2 =>
                if code c2 =? 93 then Some (VArr [], r2)
                else match parseElems fuel' r with
                     | Some (l, rest) => Some (VArr l, rest)
                     | None => None
                     end
            | [] => None
            end
          else if code c =? 123 then
            match skipWs r with
            | c2 :: r2 =>
                if code c2 =? 125 then Some (VObj [], r2)
                else match parseMembers fuel' r with
                     | Some (ps, rest) => Some (VObj ps, rest)
                     | None => None
                     end
            | [] => None
            end
          else if code c =? 110 then
            match eat (js "ull") r with
            | Some rest => Some (VNull, rest)
            | None => None
            end
          else if code c =? 116 then
            match eat (js "rue") r with
            | Some rest => Some (VBool true, rest)
            | None => None
            end
          else if code c =? 102 then
            match eat (js "alse") r with
            | Some rest => Some (VBool false, rest)
            | None => None
            end
          else if code c =? 45 then
            match parseNat r with
            | Some (n, rest) => Some (VNum (- n), rest)
            | None => None
            end
          else
            match parseNat (c :: r) with
            | Some (n, rest) => Some (VNum n, rest)
            | None => None
            end
      end
  end
with parseElems (fuel : nat) (s : jsstring) : option (list jsval * jsstring) :=
  match fuel with
  | O => None
  | S fuel' =>
      match parseValue fuel' s with
      | None => None
      | Some (v, r) =>
          match skipWs r with
          | c :: r' =>
              if code c =? 44 then
                match parseElems fuel' r' with
                | Some (l, rest) => Some (v :: l, rest)
                | None => None
                end
              else if code c =? 93 then Some ([v], r')
              else None
          | [] => None
          end
      end
  end
with parseMembers (fuel : nat) (s : jsstring)
  : option (list (jsstring * jsval) * jsstring) :=
  match fuel with
  | O => None
  | S fuel' =>
      match skipWs s with
      | q :: r0 =>
          if code q =? 34 then
            match parseString r0 with
            | None => None
            | Some (k, r1) =>
                match skipWs r1 with
                | colon :: r2 =>
                    if code colon =? 58 then
                      match parseValue fuel' r2 with
                      | None => None
                      | Some (v, r3) =>
                          match skipWs r3 with
                          | c :: r4 =>
                              if code c =? 44 then
                                match parseMembers fuel' r4 with
                                | Some (ps, rest) => Some ((k, v) :: ps, rest)
                                | None => None
                                end
                              else if code c =? 125 then Some ([(k, v)], r4)
                              else None
                          | [] => None
                          end
                      end
                    else None
                | [] => None
                end
            end
          else None
      | [] => None
      end
  end.

(** [JSON.parse]: [None] stands for the SyntaxError *)
Definition parse (s : jsstring) : option jsval :=
  match parseValue (S (length s)) s with
  | Some (v, rest) => match skipWs rest with [] => Some v | _ => None end
  | None => None
  end.

End JSON.

(** ** Notions for reading back what [JSON.stringify] writes *)

(** what may follow a number: the end of the text or a character that
    cannot continue it *)
Definition delimited (rest : jsstring) : bool :=
  match rest with
  | [] => true
  | c :: _ => negb (isDigit c) && negb (JSON.startsFraction rest)
  end.

(** a text that starts a value: no white space, no closing bracket *)
Definition startOk (s : jsstring) : bool :=
  match s with
  | c :: _ => negb (JSON.isWs c) && negb (code c =? 93) && negb (code c =? 125)
  | [] => false
  end.

(** the text of an array element and the value read back from it *)
Definition elemText (x : jsval) : jsstring :=
  match JSON.stringify x with Some s => s | None => js "null" end.

Definition elemNorm (x : jsval) : jsval :=
  match JSON.norm x with Some y => y | None => VNull end.

Definition memberText (kv : jsstring * jsval) : option jsstring :=
  match kv with
  | (k, x) => match JSON.stringify x with
              | Some s => Some (JSON.quote k ++ js ":" ++ s)
              | None => None
              end
  end.

Definition memberNorm (kv : jsstring * jsval) : option (jsstring * jsval) :=
  match kv with
  | (k, x) => match JSON.norm x with
              | Some y => Some (k, y)
              | None => None
              end
  end.

(** reading back the text of [v] gives [v'] *)
Definition reads (s : jsstring) (v' : jsval) : Prop :=
  startOk s = true /\
  JSON.stringify v' = Some s /\ JSON.norm v' = Some v' /\
  forall fuel rest, (length s <= fuel)%nat -> delimited rest = true ->
    JSON.parseValue fuel (s ++ rest) = Some (v', rest).

Definition roundtrips (v : jsval) : Prop :=
  forall s, JSON.stringify v = Some s ->
  exists v', JSON.norm v = Some v' /\ reads s v'.

Definition memberOf (it : jsstring * jsstring * jsval) : jsstring :=
  JSON.quote (fst (fst it)) ++ js ":" ++ snd (fst it).

(** the properties of an object that are written out, each with its
    key, its text and the value read back *)
Definition memberItem (kv : jsstring * jsval) : option (jsstring * jsstring * jsval) :=
  match kv with
  | (k, x) => match JSON.stringify x, JSON.norm x with
              | Some s, Some y => Some (k, s, y)
              | _, _ => None
              end
  end.

(** ** Errors, objects and the state of the page *)

Inductive ErrorType :=
  | VALIDATION_ERROR
  | STORAGE_ERROR
  | STORAGE_QUOTA_ERROR
  | DUPLICATE_ERROR
  | THEME_ERROR
  | NETWORK_ERROR
  | UNKNOWN_ERROR.

(** a thrown error: its [name], its [message] and, for an AppError,
    its [type]; the [details] attached to an AppError are left out *)
Record exn := {
  name : jsstring;
  message : jsstring;
  type : option ErrorType;
}.

Definition AppError (msg : jsstring) (ty : ErrorType) : exn :=
  {| name := js "AppError"; message := msg; type := Some ty |}.

Definition TypeError (msg : jsstring) : exn :=
  {| name := js "TypeError"; message := msg; type := None |}.

Definition SyntaxError (msg : jsstring) : exn :=
  {| name := js "SyntaxError"; message := msg; type := None |}.

Definition QuotaExceededError : exn :=
  {| name := js "QuotaExceededError";
     message := js "The quota has been exceeded.";
     type := None |}.

(** [error instanceof AppError] *)
Definition isAppError (e : exn) : bool :=
  match type e with Some _ => true | None => false end.

(** a Person object: the value of each of its fields *)
Record PersonObj := {
  id : jsval;
  nome : jsval;
  dataNascimento : jsval;
  telefone : jsval;
  email : jsval;
  createdAt : Date;
  updatedAt : Date;
}.

(** a reference to a Person object or to an array of such references:
    its index in the heap.  A reference to nothing stands for a value
    that is not a Person (not an array). *)
Definition ref := nat.

Record World := {
  objs : list PersonObj;                        (* the Person objects *)
  arrs : list (list ref);                       (* the arrays of Persons *)
  persons : ref;                                (* [dataManager.persons] *)
  localStorage : list (jsstring * jsstring);    (* key and value, in order *)
  quota : nat;                                  (* room in localStorage *)
  ticks : nat;                                  (* readings taken so far *)
}.

Definition set_objs (f : list PersonObj -> list PersonObj) (w : World) : World :=
  {| objs := f (objs w); arrs := arrs w; persons := persons w;
     localStorage := localStorage w; quota := quota w; ticks := ticks w |}.

Definition set_arrs (f : list (list ref) -> list (list ref)) (w : World) : World :=
  {| objs := objs w; arrs := f (arrs w); persons := persons w;
     localStorage := localStorage w; quota := quota w; ticks := ticks w |}.

Definition set_persons (r : ref) (w : World) : World :=
  {| objs := objs w; arrs := arrs w; persons := r;
     localStorage := localStorage w; quota := quota w; ticks := ticks w |}.

Definition set_localStorage (items : list (jsstring * jsstring)) (w : World) : World :=
  {| objs := objs w; arrs := arrs w; persons := persons w;
     localStorage := items; quota := quota w; ticks := ticks w |}.

Definition tick (w : World) : World :=
  {| objs := objs w; arrs := arrs w; persons := persons w;
     localStorage := localStorage w; quota := quota w; ticks := S (ticks w) |}.

Inductive result (A : Type) :=
  | Ok (a : A)
  | Throw (e : exn).
Arguments Ok {A} a.
Arguments Throw {A} e.

(** a computation: its outcome and the state it leaves, whether it
    returns or throws *)
Definition M (A : Type) : Type := World -> result A * World.

Definition ret {A} (a : A) : M A := fun w => (Ok a, w).

Definition throw {A} (e : exn) : M A := fun w => (Throw e, w).

Definition bind {A B} (m : M A) (k : A -> M B) : M B :=
  fun w => match m w with
           | (Ok a, w') => k a w'
           | (Throw e, w') => (Throw e, w')
           end.

(** [try { m } catch (error) { h error }] *)
Definition try_catch {A} (m : M A) (h : exn -> M A) : M A :=
  fun w => match m w with
           | (Ok a, w') => (Ok a, w')
           | (Throw e, w') => h e w'
           end.

Definition lift {A} (r : result A) : M A := fun w => (r, w).

Definition get : M World := fun w => (Ok w, w).

Definition modify (f : World -> World) : M unit := fun w => (Ok tt, f w).

Notation "x <- m ;; k" := (bind m (fun x => k))
  (at level 100, m at next level, k at level 200, right associativity).
Notation "m ;;; k" := (bind m (fun _ => k))
  (at level 100, k at level 200, right associativity).

Fixpoint mapE {A B} (f : A -> M B) (l : list A) : M (list B) :=
  match l with
  | [] => ret []
  | x :: l' => y <- f x ;; ys <- mapE f l' ;; ret (y :: ys)
  end.

(** [Array.prototype.filter] with a callback that may throw *)
Fixpoint filterE {A} (f : A -> M bool) (l : list A) : M (list A) :=
  match l with
  | [] => ret []
  | x :: l' => b <- f x ;; ys <- filterE f l' ;; ret (if b then x :: ys else ys)
  end.

(** [Array.prototype.some] with a callback that may throw *)
Fixpoint someE {A} (f : A -> nat -> M bool) (i : nat) (l : list A) : M bool :=
  match l with
  | [] => ret false
  | x :: l' => b <- f x i ;; if b then ret true else someE f (S i) l'
  end.

(** reading a property of a value.  Only the property names the
    program reads occur: on an array or a string [length] is its
    length and the other names are absent. *)
Definition getProp (v : jsval) (k : jsstring) : result jsval :=
  match v with
  | VUndefined =>
      Throw (TypeError (js "Cannot read properties of undefined (reading '" ++ k ++ js "')"))
  | VNull =>
      Throw (TypeError (js "Cannot read properties of null (reading '" ++ k ++ js "')"))
  | VObj ps => Ok (match assoc k ps with Some x => x | None => VUndefined end)
  | VArr l =>
      Ok (if str_eqb k (js "length") then VNum (Z.of_nat (length l)) else VUndefined)
  | VStr s =>
      Ok (if str_eqb k (js "length") then VNum (Z.of_nat (length s)) else VUndefined)
  | VBool _ | VNum _ | VDate _ => Ok VUndefined
  end.

Definition notAFunction (what : jsstring) : exn :=
  TypeError (what ++ js " is not a function").

(** the error of calling the method [m] on a value that has none *)
Definition noMethod (v : jsval) (m : jsstring) : exn :=
  match getProp v m with
  | Throw e => e
  | Ok _ => notAFunction m
  end.

(** ** localStorage *)

Fixpoint lookupItem (k : jsstring) (items : list (jsstring * jsstring)) : option jsstring :=
  match items with
  | [] => None
  | (k', v) :: items' => if str_eqb k k' then Some v else lookupItem k items'
  end.

Fixpoint putItem (k v : jsstring) (items : list (jsstring * jsstring))
  : list (jsstring * jsstring) :=
  match items with
  | [] => [(k, v)]
  | (k', v') :: items' =>
      if str_eqb k k' then (k, v) :: items' else (k', v') :: putItem k v items'
  end.

Fixpoint usedSpace (items : list (jsstring * jsstring)) : nat :=
  match items with
  | [] => O
  | (k, v) :: items' => (length k + length v + usedSpace items')%nat
  end.

(** [localStorage.getItem(key)]: [None] is [null] *)
Definition getItem (k : jsstring) : M (option jsstring) :=
  fun w => (Ok (lookupItem k (localStorage w)), w).

(** [localStorage.setItem(key, value)]: the write is refused with a
    QuotaExceededError when the store would outgrow its quota *)
Definition setItem (k v : jsstring) : M unit :=
  fun w =>
    let items := putItem k v (localStorage w) in
    if (usedSpace items <=? quota w)%nat
    then (Ok tt, set_localStorage items w)
    else (Throw QuotaExceededError, w).


(** ** The Person model *)

Module Person.

Section WithPlatform.
Context `{Platform}.

(** [new Date(year, monthIndex, day)]: local midnight of that day *)
Definition Date_local (year monthIndex day : Z) : Z :=
  let yr := if (0 <=? year) && (year <=? 99) then 1900 + year else year in
  DateTime.MakeDate (DateTime.MakeDay yr monthIndex day) 0 - LocalTZA.

Definition getFullYear (t : Z) : Z := DateTime.YearFromTime (t + LocalTZA).
Definition getMonth (t : Z) : Z := DateTime.MonthFromTime (t + LocalTZA).
Definition getDate (t : Z) : Z := DateTime.DateFromTime (t + LocalTZA).

(** the groups of [/^(\d{1,2})\/(\d{1,2})\/(\d{4})$/] *)
Definition matchDate (s : jsstring) : option (jsstring * jsstring * jsstring) :=
  match split_on "/"%char s with
  | [d; m; y] =>
      if forallb isDigit d && forallb isDigit m && forallb isDigit y
         && (1 <=? length d)%nat && (length d <=? 2)%nat
         && (1 <=? length m)%nat && (length m <=? 2)%nat
         && (length y =? 4)%nat
      then Some (d, m, y) else None
  | _ => None
  end.

(** [dateString.replace(/[^\d\/]/g, empty)]: only digits and slashes stay *)
Definition cleanDate (s : jsstring) : jsstring :=
  List.filter (fun c => isDigit c || ascii_eqb c "/"%char) s.

Definition parseBrazilianDate (dateString : jsval) : option Z :=
  match dateString with
  | VStr s =>
      if negb (truthy dateString) then None else
      match matchDate (cleanDate s) with
      | None => None
      | Some (ds, ms, ys) =>
          let day := parseDigits ds in
          let month := parseDigits ms in
          let year := parseDigits ys in
          if (day <? 1) || (31 <? day) then None
          else if (month <? 1) || (12 <? month) then None
          else if (year <? 1900) || (2100 <? year) then None
          else
            let date := Date_local year (month - 1) day in
            if negb (getDate date =? day)
               || negb (getMonth date =? month - 1)
               || negb (getFullYear date =? year)
            then None
            else Some date
      end
  | _ => None
  end.

(** [validateBirthDate(date)], where [today] is the reading of the clock
    taken by [new Date()] *)
Definition validateBirthDate (today : Z) (date : jsval) : bool :=
  if negb (truthy date) then false else
  match parseBrazilianDate date with
  | None => false
  | Some birthDate =>
      if today <? birthDate then false
      else
        let age := getFullYear today - getFullYear birthDate in
        if 120 <? age then false else true
  end.

(** [phone.replace(/\D/g, empty)]: only the digits stay *)
Definition cleanPhone (s : jsstring) : jsstring := List.filter isDigit s.

Definition validatePhone (phone : jsval) : bool :=
  match phone with
  | VStr s =>
      if negb (truthy phone) then false else
      let clean := cleanPhone s in
      if negb (length clean =? 10)%nat && negb (length clean =? 11)%nat
      then false
      else
        let areaCode := parseDigits (take 2 clean) in
        if (areaCode <? 11) || (99 <? areaCode) then false else true
  | _ => false
  end.

Definition nameChar (c : ascii) : bool :=
  isLetter c || isSpace c || ascii_eqb c "-"%char || ascii_eqb c "'"%char.

Definition validateName (name : jsval) : bool :=
  match name with
  | VStr s =>
      if negb (truthy name) then false else
      let trimmedName := trim s in
      if (length trimmedName <? 2)%nat || (50 <? length trimmedName)%nat
      then false
      else forallb nameChar trimmedName
  | _ => false
  end.

Definition notSpaceAt (c : ascii) : bool :=
  negb (isSpace c) && negb (ascii_eqb c "@"%char).

(** [/^[^\s@]+\.[^\s@]+$/] on the part after the at sign: some dot splits
    it into two non-empty halves *)
Fixpoint domainOk (seen : bool) (s : jsstring) : bool :=
  match s with
  | [] => false
  | c :: s' =>
      (seen && ascii_eqb c "."%char
       && match s' with [] => false | _ => true end)
      || domainOk true s'
  end.

(** [/^[^\s@]+@[^\s@]+\.[^\s@]+$/] *)
Definition matchEmail (s : jsstring) : bool :=
  match split_on "@"%char s with
  | [local; domain] =>
      match local with [] => false | _ => true end
      && forallb notSpaceAt local && forallb notSpaceAt domain
      && domainOk false domain
  | _ => false
  end.

Definition validateEmail (email : jsval) : bool :=
  match email with
  | VStr s => if negb (truthy email) then false else matchEmail (trim s)
  | _ => false
  end.

(** the next reading of the clock: [Date.now()], [new Date()] *)
Definition now : M Z := fun w => (Ok (clock (ticks w)), tick w).

(** [Math.random().toString(36).substr(2, 9)] *)
Definition randomSuffix : M jsstring := fun w => (Ok (random (ticks w)), tick w).

Definition alloc (p : PersonObj) : M ref :=
  fun w => (Ok (length (objs w)), set_objs (fun h => h ++ [p]) w).

(** reading the object behind a reference; a reference to nothing is
    not an object and reading a property of it throws *)
Definition deref (r : ref) : M PersonObj :=
  fun w => match objs w !! r with
           | Some p => (Ok p, w)
           | None => (Throw (TypeError (js "Cannot read properties of undefined")), w)
           end.

Definition generateId : M jsstring :=
  t <- now ;; r <- randomSuffix ;;
  ret (js "person_" ++ dec t ++ js "_" ++ r).

(** [nome.toUpperCase()] *)
Definition callToUpperCase (v : jsval) : result jsval :=
  match v with
  | VStr s => Ok (VStr (toUpperCase s))
  | VUndefined | VNull => getProp v (js "toUpperCase")
  | _ => Throw (notAFunction (js "nome.toUpperCase"))
  end.

(** [new Person(nome, dataNascimento, telefone, email)] *)
Definition new_Person (nome dataNascimento telefone email : jsval) : M ref :=
  i <- generateId ;;
  n <- (if truthy nome then lift (callToUpperCase nome) else ret (VStr [])) ;;
  c <- now ;;
  u <- now ;;
  alloc {| id := VStr i; nome := n; dataNascimento := dataNascimento;
           telefone := telefone; email := email;
           createdAt := Some c; updatedAt := Some u |}.

Record ValidationResult := {
  isValid : bool;
  errors : list (jsstring * jsstring);   (* field and message *)
}.

Definition getAllMessages (v : ValidationResult) : list jsstring :=
  map snd (errors v).

Definition getErrorsForField (v : ValidationResult) (field : jsstring)
  : list (jsstring * jsstring) :=
  List.filter (fun e => str_eqb (fst e) field) (errors v).

(** [Person.validateBirthDate] with its reading of the clock, which is
    taken once the text has been parsed *)
Definition validateBirthDateNow (date : jsval) : M bool :=
  if negb (truthy date) then ret false else
  match parseBrazilianDate date with
  | None => ret false
  | Some _ => today <- now ;; ret (validateBirthDate today date)
  end.

Definition validate (p : PersonObj) : M ValidationResult :=
  let e1 := if validateName (nome p) then []
            else [(js "nome",
                   js "Nome deve conter apenas letras, espaços e caracteres válidos (2-50 caracteres)")] in
  okDate <- validateBirthDateNow (dataNascimento p) ;;
  let e2 := if okDate then []
            else [(js "dataNascimento",
                   js "Data de nascimento inválida ou pessoa muito idosa")] in
  let e3 := if validatePhone (telefone p) then []
            else [(js "telefone",
                   js "Telefone deve estar no formato brasileiro válido")] in
  let e4 := if validateEmail (email p) then []
            else [(js "email", js "Email deve ter um formato válido")] in
  let errors := e1 ++ e2 ++ e3 ++ e4 in
  ret {| isValid := (length errors =? 0)%nat; errors := errors |}.

(** [person.update(data)] *)
Definition update (r : ref) (data : jsval) : M unit :=
  p <- deref r ;;
  dn <- lift (getProp data (js "nome")) ;;
  n <- (if negb (strictEq dn VUndefined) then lift (callToUpperCase dn)
        else ret (nome p)) ;;
  dd <- lift (getProp data (js "dataNascimento")) ;;
  dt <- lift (getProp data (js "telefone")) ;;
  de <- lift (getProp data (js "email")) ;;
  u <- now ;;
  modify (set_objs (fun h =>
    <[r := {| id := id p; nome := n;
              dataNascimento := if negb (strictEq dd VUndefined) then dd
                                else dataNascimento p;
              telefone := if negb (strictEq dt VUndefined) then dt else telefone p;
              email := if negb (strictEq de VUndefined) then de else email p;
              createdAt := createdAt p; updatedAt := Some u |}]> h)).

Definition toJSON (p : PersonObj) : jsval :=
  VObj [ (js "id", id p);
         (js "nome", nome p);
         (js "dataNascimento", dataNascimento p);
         (js "telefone", telefone p);
         (js "email", email p);
         (js "createdAt", VDate (createdAt p));
         (js "updatedAt", VDate (updatedAt p)) ].

(** [new Date(v)]: a Date is copied, anything else is converted by the
    platform *)
Definition new_Date (v : jsval) : Date :=
  match v with
  | VDate d => d
  | _ => Date_parse v
  end.

(** [Person.fromJSON(data)] *)
Definition fromJSON (data : jsval) : M ref :=
  dnome <- lift (getProp data (js "nome")) ;;
  ddata <- lift (getProp data (js "dataNascimento")) ;;
  dtel <- lift (getProp data (js "telefone")) ;;
  demail <- lift (getProp data (js "email")) ;;
  r <- new_Person dnome ddata dtel demail ;;
  p <- deref r ;;
  did <- lift (getProp data (js "id")) ;;
  dcreated <- lift (getProp data (js "createdAt")) ;;
  dupdated <- lift (getProp data (js "updatedAt")) ;;
  modify (set_objs (fun h =>
    <[r := {| id := if truthy did then did else id p;
              nome := nome p;
              dataNascimento := dataNascimento p;
              telefone := telefone p;
              email := email p;
              createdAt := if truthy dcreated then new_Date dcreated
                           else createdAt p;
              updatedAt := if truthy dupdated then new_Date dupdated
                           else updatedAt p |}]> h)) ;;;
  ret r.

End WithPlatform.

End Person.

(** ** The backup utility *)

Module DataBackup.

Section WithPlatform.
Context `{Platform}.

Definition backupKey : jsstring := js "backup_listaPessoas".

Definition maxBackups : nat := 5.

(** [ToInt32] *)
Definition toInt32 (z : Z) : Z := (z + 2 ^ 31) mod 2 ^ 32 - 2 ^ 31.

(** one turn of the loop of [calculateChecksum]:
    [hash = (hash << 5) - hash + char; hash = hash & hash] *)
Definition hashStep (hash : Z) (c : ascii) : Z :=
  toInt32 (toInt32 (Z.shiftl hash 5) - hash + code c).

Definition calculateChecksum (data : jsval) : result jsstring :=
  match JSON.stringify data with
  | None => Throw (TypeError (js "Cannot read properties of undefined (reading 'length')"))
  | Some str => Ok (hex (fold_left hashStep str 0))
  end.

Definition generateBackupId : M jsstring :=
  t <- Person.now ;; r <- Person.randomSuffix ;;
  ret (js "backup_" ++ dec t ++ js "_" ++ r).

(** [getBackups()]: whatever JSON value the store holds under the backup
    key, the empty array when there is none or it does not parse *)
Definition getBackups : M jsval :=
  backupsData <- getItem backupKey ;;
  match backupsData with
  | None | Some [] => ret (VArr [])
  | Some text =>
      match JSON.parse text with
      | Some v => ret v
      | None => ret (VArr [])
      end
  end.

Definition createBackup (data : jsval) : M jsstring :=
  try_catch
    (bid <- generateBackupId ;;
     t <- Person.now ;;
     clone <- lift (match JSON.stringify data with
                    | None => Throw (SyntaxError (js "undefined is not valid JSON"))
                    | Some text =>
                        match JSON.parse text with
                        | Some v => Ok v
                        | None => Throw (SyntaxError (js "Unexpected token"))
                        end
                    end) ;;
     checksum <- lift (calculateChecksum data) ;;
     let backup := VObj [ (js "id", VStr bid);
                          (js "timestamp", VStr (DateTime.toISOString t));
                          (js "data", clone);
                          (js "version", VStr (js "1.0"));
                          (js "checksum", VStr checksum) ] in
     existingBackups <- getBackups ;;
     match existingBackups with
     | VArr l =>
         let l1 := backup :: l in
         let l2 := if (maxBackups <? length l1)%nat then take maxBackups l1 else l1 in
         match JSON.stringify (VArr l2) with
         | Some text => setItem backupKey text ;;; ret bid
         | None => ret bid
         end
     | _ => throw (noMethod existingBackups (js "unshift"))
     end)
    (fun error =>
       throw (AppError (js "Erro ao criar backup: " ++ message error) STORAGE_ERROR)).

(** [backups.find((b) => b.id === backupId)] *)
Fixpoint findBackup (backupId : jsval) (l : list jsval) : result (option jsval) :=
  match l with
  | [] => Ok None
  | b :: l' =>
      match getProp b (js "id") with
      | Throw e => Throw e
      | Ok i => if strictEq i backupId then Ok (Some b) else findBackup backupId l'
      end
  end.

Definition restoreBackup (backupId : jsval) : M jsval :=
  try_catch
    (backups <- getBackups ;;
     match backups with
     | VArr l =>
         found <- lift (findBackup backupId l) ;;
         let backup := match found with Some b => b | None => VUndefined end in
         if negb (truthy backup)
         then throw (AppError (js "Backup não encontrado") VALIDATION_ERROR)
         else
           d <- lift (getProp backup (js "data")) ;;
           calculatedChecksum <- lift (calculateChecksum d) ;;
           stored <- lift (getProp backup (js "checksum")) ;;
           if negb (strictEq (VStr calculatedChecksum) stored)
           then throw (AppError (js "Backup corrompido - checksum inválido")
                                STORAGE_ERROR)
           else ret d
     | _ => throw (noMethod backups (js "find"))
     end)
    (fun error =>
       if isAppError error then throw error
       else throw (AppError (js "Erro ao restaurar backup: " ++ message error)
                            STORAGE_ERROR)).

Definition shouldCreateBackup (currentData lastBackupData : jsval) : result bool :=
  match getProp currentData (js "length") with
  | Throw e => Throw e
  | Ok cl =>
      match getProp lastBackupData (js "length") with
      | Throw e => Throw e
      | Ok ll =>
          if negb (strictEq cl ll) then Ok true
          else
            match calculateChecksum currentData with
            | Throw e => Throw e
            | Ok currentChecksum =>
                match calculateChecksum lastBackupData with
                | Throw e => Throw e
                | Ok lastChecksum => Ok (negb (str_eqb currentChecksum lastChecksum))
                end
            end
      end
  end.

(** [v[0]] *)
Definition index0 (v : jsval) : result jsval :=
  match v with
  | VArr l => Ok (match l with x :: _ => x | [] => VUndefined end)
  | VStr s => Ok (match s with c :: _ => VStr [c] | [] => VUndefined end)
  | _ => getProp v (js "0")
  end.

(** [autoBackup(data)]: a failure is logged and goes no further *)
Definition autoBackup (data : jsval) : M unit :=
  try_catch
    (backups <- getBackups ;;
     lastBackup <- lift (index0 backups) ;;
     create <- (if negb (truthy lastBackup) then ret true
                else ld <- lift (getProp lastBackup (js "data")) ;;
                     lift (shouldCreateBackup data ld)) ;;
     if create then createBackup data ;;; ret tt else ret tt)
    (fun error => ret tt).

Record ImportValidation := {
  isValid : bool;
  errors : list jsstring;
  warnings : list jsstring;
  validRecords : nat;
  invalidRecords : nat;
}.

(** one required field of an imported entry: [!v || typeof v !== "string"] *)
Definition badString (v : jsval) : bool := negb (truthy v) || negb (isString v).

Definition registro (index : nat) (what : jsstring) : jsstring :=
  js "Registro " ++ dec (Z.of_nat index + 1) ++ js ": " ++ what.

(** the messages for one entry of the imported array *)
Definition itemErrors (item : jsval) (index : nat) : result (list jsstring) :=
  match getProp item (js "nome") with
  | Throw e => Throw e
  | Ok vnome =>
      match getProp item (js "email") with
      | Throw e => Throw e
      | Ok vemail =>
          match getProp item (js "telefone") with
          | Throw e => Throw e
          | Ok vtel =>
              match getProp item (js "dataNascimento") with
              | Throw e => Throw e
              | Ok vdata =>
                  Ok ((if badString vnome
                       then [registro index (js "Nome inválido")] else [])
                      ++ (if badString vemail
                          then [registro index (js "Email inválido")] else [])
                      ++ (if badString vtel
                          then [registro index (js "Telefone inválido")] else [])
                      ++ (if negb (truthy vdata)
                          then [registro index (js "Data de nascimento inválida")]
                          else []))
              end
          end
      end
  end.

(** the body of [data.forEach((item, index) => ...)] over the entries
    from [index] on *)
Fixpoint validateItems (items : list jsval) (index : nat) (acc : ImportValidation)
  : result ImportValidation :=
  match items with
  | [] => Ok acc
  | item :: items' =>
      match itemErrors item index with
      | Throw e => Throw e
      | Ok errs =>
          validateItems items' (S index)
            (if (0 <? length errs)%nat
             then {| isValid := isValid acc;
                     errors := errors acc ++ errs;
                     warnings := warnings acc;
                     validRecords := validRecords acc;
                     invalidRecords := S (invalidRecords acc) |}
             else {| isValid := isValid acc;
                     errors := errors acc;
                     warnings := warnings acc;
                     validRecords := S (validRecords acc);
                     invalidRecords := invalidRecords acc |})
      end
  end.

Definition validateImportData (data : jsval) : result ImportValidation :=
  match data with
  | VArr items =>
      match validateItems items 0
              {| isValid := true; errors := []; warnings := [];
                 validRecords := 0; invalidRecords := 0 |} with
      | Throw e => Throw e
      | Ok r =>
          Ok (if (0 <? length (errors r))%nat
              then {| isValid := false; errors := errors r;
                      warnings := warnings r;
                      validRecords := validRecords r;
                      invalidRecords := invalidRecords r |}
              else r)
      end
  | _ =>
      Ok {| isValid := false; errors := [js "Dados devem ser um array"];
            warnings := []; validRecords := 0; invalidRecords := 0 |}
  end.

(** a file handed to the page: its MIME type, its name and its text,
    [None] when it cannot be read *)
Record File := {
  ftype : jsstring;
  fname : jsstring;
  content : option jsstring;
}.

(** [name.endsWith(suffix)] *)
Definition endsWith (s suffix : jsstring) : bool := isPrefix (rev suffix) (rev s).

(** what the promise of [importFromFile(file)] settles to: [Ok] when it
    resolves, [Throw] when it rejects *)
Definition importFromFile (file : option File) : result jsval :=
  match file with
  | None => Throw (AppError (js "Nenhum arquivo selecionado") VALIDATION_ERROR)
  | Some f =>
      if negb (str_eqb (ftype f) (js "application/json"))
         && negb (endsWith (fname f) (js ".json"))
      then Throw (AppError (js "Arquivo deve ser do tipo JSON") VALIDATION_ERROR)
      else
        match content f with
        | None => Throw (AppError (js "Erro ao ler arquivo") UNKNOWN_ERROR)
        | Some text =>
            let wrap (e : exn) : exn :=
              if isAppError e then e
              else AppError (js "Erro ao processar arquivo: " ++ message e)
                            VALIDATION_ERROR in
            match JSON.parse text with
            | None => Throw (wrap (SyntaxError (js "Unexpected token")))
            | Some importData =>
                match getProp importData (js "data") with
                | Throw e => Throw (wrap e)
                | Ok d =>
                    if negb (truthy d)
                       || negb (match d with VArr _ => true | _ => false end)
                    then Throw (AppError (js "Formato de arquivo inválido")
                                         VALIDATION_ERROR)
                    else
                      match getProp importData (js "checksum") with
                      | Throw e => Throw (wrap e)
                      | Ok cs =>
                          if truthy cs then
                            match calculateChecksum d with
                            | Throw e => Throw (wrap e)
                            | Ok calculatedChecksum =>
                                if negb (strictEq (VStr calculatedChecksum) cs)
                                then Throw (AppError
                                              (js "Arquivo corrompido - checksum inválido")
                                              STORAGE_ERROR)
                                else Ok d
                            end
                          else Ok d
                      end
                end
            end
        end
  end.

End WithPlatform.

End DataBackup.

(** ** The data manager *)

Module DataManager.

Section WithPlatform.
Context `{Platform}.

Definition storageKey : jsstring := js "listaPessoas".

(** the array behind [this.persons] *)
Definition thisPersons : M (list ref) :=
  fun w => match arrs w !! persons w with
           | Some l => (Ok l, w)
           | None => (Throw (TypeError (js "this.persons is not an array")), w)
           end.

Definition allocArr (l : list ref) : M ref :=
  fun w => (Ok (length (arrs w)), set_arrs (fun h => h ++ [l]) w).

(** [this.persons = r] *)
Definition assignPersons (r : ref) : M unit := modify (set_persons r).

(** writing the array behind [this.persons] in place *)
Definition writePersons (l : list ref) : M unit :=
  fun w => (Ok tt, set_arrs (fun h => <[persons w := l]> h) w).

(** [getAllPersons()]: [[...this.persons]], a new array *)
Definition getAllPersons : M ref :=
  l <- thisPersons ;; allocArr l.

(** [this.persons.map((person) => person.toJSON())] *)
Definition personsToJSON : M jsval :=
  l <- thisPersons ;;
  ps <- mapE Person.deref l ;;
  ret (VArr (map Person.toJSON ps)).

Definition savePersons : M unit :=
  try_catch
    (d1 <- personsToJSON ;;
     DataBackup.autoBackup d1 ;;;
     d2 <- personsToJSON ;;
     match JSON.stringify d2 with
     | Some data => setItem storageKey data
     | None => setItem storageKey (js "undefined")
     end)
    (fun error =>
       if str_eqb (name error) (js "QuotaExceededError")
       then throw (AppError (js "Armazenamento local cheio. Remova alguns registros.")
                            STORAGE_QUOTA_ERROR)
       else throw (AppError (js "Erro ao salvar dados no armazenamento")
                            STORAGE_ERROR)).

(** [isDuplicate(person, excludeIndex)]; [-1] excludes nothing *)
Definition isDuplicate (person : ref) (excludeIndex : Z) : M bool :=
  l <- thisPersons ;;
  someE (fun existingPerson index =>
           if Z.of_nat index =? excludeIndex then ret false
           else
             e <- Person.deref existingPerson ;;
             p <- Person.deref person ;;
             ret (strictEq (email e) (email p)
                  || strictEq (telefone e) (telefone p)))
        0%nat l.

(** [person instanceof Person] *)
Definition instanceofPerson (r : ref) : M bool :=
  fun w => (Ok (match objs w !! r with Some _ => true | None => false end), w).

Definition validationFailed (v : Person.ValidationResult) : exn :=
  AppError (js "Validation failed: " ++ join (js ", ") (Person.getAllMessages v))
           VALIDATION_ERROR.

Definition duplicateError : exn :=
  AppError (js "Pessoa já cadastrada com este email ou telefone") DUPLICATE_ERROR.

(** the common [catch]: an AppError goes on as it is, anything else is
    wrapped as a storage error *)
Definition rethrow {A} (prefix : jsstring) (error : exn) : M A :=
  if isAppError error then throw error
  else throw (AppError (prefix ++ message error) STORAGE_ERROR).

Definition addPerson (person : ref) : M bool :=
  try_catch
    (isP <- instanceofPerson person ;;
     if negb isP then throw (AppError (js "Invalid person object") VALIDATION_ERROR)
     else
       p <- Person.deref person ;;
       validation <- Person.validate p ;;
       if negb (Person.isValid validation) then throw (validationFailed validation)
       else
         dup <- isDuplicate person (-1) ;;
         if dup then throw duplicateError
         else
           l <- thisPersons ;;
           writePersons (l ++ [person]) ;;;
           savePersons ;;;
           ret true)
    (rethrow (js "Erro ao adicionar pessoa: ")).

Definition updatePerson (index : Z) (updatedPerson : ref) : M bool :=
  try_catch
    (l <- thisPersons ;;
     if (index <? 0) || (Z.of_nat (length l) <=? index)
     then throw (AppError (js "Índice inválido") VALIDATION_ERROR)
     else
       isP <- instanceofPerson updatedPerson ;;
       if negb isP then throw (AppError (js "Invalid person object") VALIDATION_ERROR)
       else
         p <- Person.deref updatedPerson ;;
         validation <- Person.validate p ;;
         if negb (Person.isValid validation) then throw (validationFailed validation)
         else
           dup <- isDuplicate updatedPerson index ;;
           if dup then throw duplicateError
           else
             l <- thisPersons ;;
             match l !! Z.to_nat index with
             | None =>
                 throw (TypeError (js "Cannot read properties of undefined (reading 'id')"))
             | Some original =>
                 originalPerson <- Person.deref original ;;
                 p <- Person.deref updatedPerson ;;
                 t <- Person.now ;;
                 modify (set_objs (fun h =>
                   <[updatedPerson :=
                       {| id := id originalPerson; nome := nome p;
                          dataNascimento := dataNascimento p;
                          telefone := telefone p; email := email p;
                          createdAt := createdAt originalPerson;
                          updatedAt := Some t |}]> h)) ;;;
                 writePersons (<[Z.to_nat index := updatedPerson]> l) ;;;
                 savePersons ;;;
                 ret true
             end)
    (rethrow (js "Erro ao atualizar pessoa: ")).

Definition deletePerson (index : Z) : M bool :=
  try_catch
    (l <- thisPersons ;;
     if (index <? 0) || (Z.of_nat (length l) <=? index)
     then throw (AppError (js "Índice inválido") VALIDATION_ERROR)
     else
       writePersons (delete (Z.to_nat index) l) ;;;
       savePersons ;;;
       ret true)
    (rethrow (js "Erro ao remover pessoa: ")).

(** [s.toLowerCase()] on a field of a Person *)
Definition callToLowerCase (v : jsval) : result jsstring :=
  match v with
  | VStr s => Ok (toLowerCase s)
  | _ => Throw (noMethod v (js "toLowerCase"))
  end.

(** [telefone.includes(searchTerm)]: strings and arrays have the method *)
Definition callIncludes (v : jsval) (term : jsstring) : result bool :=
  match v with
  | VStr s => Ok (includes s term)
  | VArr l => Ok (existsb (strictEq (VStr term)) l)
  | _ => Throw (noMethod v (js "includes"))
  end.

(** the callback of the filter of [searchPersons] *)
Definition matches (searchTerm : jsstring) (r : ref) : M bool :=
  person <- Person.deref r ;;
  n <- lift (callToLowerCase (nome person)) ;;
  if includes n searchTerm then ret true
  else
    e <- lift (callToLowerCase (email person)) ;;
    if includes e searchTerm then ret true
    else lift (callIncludes (telefone person) searchTerm).

Definition searchPersons (query : jsval) : M ref :=
  match query with
  | VStr q =>
      if negb (truthy query) then getAllPersons
      else
        let searchTerm := trim (toLowerCase q) in
        l <- thisPersons ;;
        found <- filterE (matches searchTerm) l ;;
        allocArr found
  | _ => getAllPersons
  end.

(** [getPersonByIndex(index)]: [None] is [null] *)
Definition getPersonByIndex (index : Z) : M (option ref) :=
  l <- thisPersons ;;
  if (index <? 0) || (Z.of_nat (length l) <=? index) then ret None
  else ret (l !! Z.to_nat index).

Definition replaceAllData (newPersons : ref) : M bool :=
  try_catch
    (d <- personsToJSON ;;
     DataBackup.createBackup d ;;;
     assignPersons newPersons ;;;
     savePersons ;;;
     ret true)
    (fun error =>
       throw (AppError (js "Erro ao substituir dados: " ++ message error)
                       STORAGE_ERROR)).

Definition restoreFromBackup (backupId : jsval) : M bool :=
  try_catch
    (backupData <- DataBackup.restoreBackup backupId ;;
     match backupData with
     | VArr l =>
         restoredPersons <- mapE Person.fromJSON l ;;
         a <- allocArr restoredPersons ;;
         assignPersons a ;;;
         savePersons ;;;
         ret true
     | _ => throw (noMethod backupData (js "map"))
     end)
    (rethrow (js "Erro ao restaurar backup: ")).

(** [importData(file)]: the candidate Persons, in a new array, and the
    summary of the validation *)
Definition importData (file : option DataBackup.File)
  : M (ref * DataBackup.ImportValidation) :=
  try_catch
    (importedData <- lift (DataBackup.importFromFile file) ;;
     validation <- lift (DataBackup.validateImportData importedData) ;;
     if negb (DataBackup.isValid validation)
     then throw (AppError (js "Dados inválidos: "
                           ++ join (js ", ") (DataBackup.errors validation))
                          VALIDATION_ERROR)
     else
       match importedData with
       | VArr l =>
           importedPersons <- mapE Person.fromJSON l ;;
           a <- allocArr importedPersons ;;
           ret (a, validation)
       | _ => throw (noMethod importedData (js "map"))
       end)
    (fun error =>
       if isAppError error then throw error
       else throw (AppError (js "Erro ao importar dados: " ++ message error)
                            UNKNOWN_ERROR)).

(** [loadPersons()], run by the constructor *)
Definition loadPersons : M unit :=
  try_catch
    (data <- getItem storageKey ;;
     match data with
     | None | Some [] => a <- allocArr [] ;; assignPersons a
     | Some text =>
         match JSON.parse text with
         | None => throw (SyntaxError (js "Unexpected token"))
         | Some (VArr l) =>
             loaded <- mapE Person.fromJSON l ;;
             a <- allocArr loaded ;;
             assignPersons a
         | Some v => throw (noMethod v (js "map"))
         end
     end)
    (fun error =>
       a <- allocArr [] ;;
       assignPersons a ;;;
       throw (AppError (js "Erro ao carregar dados do armazenamento") STORAGE_ERROR)).

(** [clearAllPersons()] *)
Definition clearAllPersons : M bool :=
  try_catch
    (a <- allocArr [] ;;
     assignPersons a ;;;
     savePersons ;;;
     ret true)
    (fun error =>
       throw (AppError (js "Erro ao limpar dados: " ++ message error) STORAGE_ERROR)).

(** [getPersonById(id)]: the first Person with that id, [None] is [null] *)
Fixpoint findById (wanted : jsval) (l : list ref) : M (option ref) :=
  match l with
  | [] => ret None
  | r :: l' =>
      person <- Person.deref r ;;
      if strictEq (id person) wanted then ret (Some r) else findById wanted l'
  end.

Definition getPersonById (wanted : jsval) : M (option ref) :=
  l <- thisPersons ;; findById wanted l.

(** the records of the collection, as a caller that walks the array
    behind [this.persons] sees them *)
Definition collection (w : World) : option (list PersonObj) :=
  match arrs w !! persons w with
  | Some l => mapM (fun r => objs w !! r) l
  | None => None
  end.

End WithPlatform.

End DataManager.

(** ** The phone formatter *)

Module PhoneFormatter.

(** [s.slice(from, to)] with [0 <= from <= to] *)
Definition slice (from to : nat) (s : jsstring) : jsstring :=
  take (to - from) (drop from s).

(** calling [replace] on a value that is not a string *)
Definition noReplace (what : jsstring) : exn :=
  notAFunction (what ++ js ".replace").

Definition formatAsTyping (value : jsval) : result jsstring :=
  if negb (truthy value) then Ok []
  else
    match value with
    | VStr s =>
        let digits := Person.cleanPhone s in
        let cleanValue := if (11 <? length digits)%nat then slice 0 11 digits
                          else digits in
        if (length cleanValue <=? 2)%nat then Ok cleanValue
        else if (length cleanValue <=? 7)%nat
        then Ok (js "(" ++ slice 0 2 cleanValue ++ js ") " ++ drop 2 cleanValue)
        else if (length cleanValue <=? 11)%nat
        then
          let areaCode := slice 0 2 cleanValue in
          let firstPart := slice 2 7 cleanValue in
          let secondPart := drop 7 cleanValue in
          Ok (js "(" ++ areaCode ++ js ") " ++ firstPart ++ js "-" ++ secondPart)
        else Ok s
    | _ => Throw (noReplace (js "value"))
    end.

Definition formatForDisplay (phone : jsval) : result jsstring :=
  if negb (truthy phone) then Ok []
  else
    match phone with
    | VStr s =>
        let cleanPhone := Person.cleanPhone s in
        if (length cleanPhone =? 10)%nat
        then Ok (js "(" ++ slice 0 2 cleanPhone ++ js ") " ++ slice 2 6 cleanPhone
                 ++ js "-" ++ drop 6 cleanPhone)
        else if (length cleanPhone =? 11)%nat
        then Ok (js "(" ++ slice 0 2 cleanPhone ++ js ") " ++ slice 2 7 cleanPhone
                 ++ js "-" ++ drop 7 cleanPhone)
        else Ok s
    | _ => Throw (noReplace (js "phone"))
    end.

Definition clean (phone : jsval) : result jsstring :=
  if negb (truthy phone) then Ok []
  else
    match phone with
    | VStr s => Ok (Person.cleanPhone s)
    | _ => Throw (noReplace (js "phone"))
    end.

Definition isValid (phone : jsval) : result bool :=
  if negb (truthy phone) then Ok false
  else
    match clean phone with
    | Throw e => Throw e
    | Ok cleanPhone =>
        if negb (length cleanPhone =? 10)%nat && negb (length cleanPhone =? 11)%nat
        then Ok false
        else
          let areaCode := parseDigits (slice 0 2 cleanPhone) in
          if (areaCode <? 11) || (99 <? areaCode) then Ok false else Ok true
    end.

Definition getType (phone : jsval) : result jsstring :=
  match clean phone with
  | Throw e => Throw e
  | Ok cleanPhone =>
      if (length cleanPhone =? 10)%nat then Ok (js "landline")
      else if (length cleanPhone =? 11)%nat
              && match cleanPhone !! 2%nat with
                 | Some c => ascii_eqb c "9"%char
                 | None => false
                 end
      then Ok (js "mobile")
      else Ok (js "unknown")
  end.

End PhoneFormatter.

(** ** Notions of the specification *)

Module Spec.

Section WithPlatform.
Context `{Platform}.

(** the text is a day, a month and a year between slashes that name a
    day of the calendar, with the year from 1900 to 2100 *)
Definition isCalendarDate (s : jsstring) : bool :=
  match Person.matchDate s with
  | Some (ds, ms, ys) =>
      let day := parseDigits ds in
      let month := parseDigits ms in
      let year := parseDigits ys in
      (1 <=? day) && (day <=? DateTime.daysInMonth year month)
      && (1 <=? month) && (month <=? 12)
      && (1900 <=? year) && (year <=? 2100)
  | None => false
  end.

(** the age in whole years at [today] of someone born at [birth]: the
    difference of the calendar years, less one when the birthday of the
    year has not come yet *)
Definition ageInWholeYears (today birth : Z) : Z :=
  let years := Person.getFullYear today - Person.getFullYear birth in
  if (Person.getMonth today <? Person.getMonth birth)
     || ((Person.getMonth today =? Person.getMonth birth)
         && (Person.getDate today <? Person.getDate birth))
  then years - 1 else years.

(** no two records of the list share an email or a phone *)
Definition unique (ps : list PersonObj) : Prop :=
  forall i j p q, ps !! i = Some p -> ps !! j = Some q -> i <> j ->
    strictEq (email p) (email q) = false
    /\ strictEq (telefone p) (telefone q) = false.



(** a value that is not an object: [===] compares such values by what
    they are, as [strictEq] does *)
Definition primitive (v : jsval) : bool :=
  match v with
  | VUndefined | VNull | VBool _ | VNum _ | VStr _ => true
  | VDate _ | VArr _ | VObj _ => false
  end.

(** a key that an object enumerates before its other keys: an array
    index, written in digits *)
Definition indexKey (k : jsstring) : bool :=
  match k with
  | [] => false
  | _ => forallb isDigit k
  end.

Fixpoint distinctKeys (ks : list jsstring) : bool :=
  match ks with
  | [] => true
  | k :: ks' => negb (existsb (str_eqb k) ks') && distinctKeys ks'
  end.

(** a value as [JSON.parse] builds it and [JSON.stringify] writes it
    back member for member: no object of it has a key twice or an array
    index as a key, and its numbers are integers that a double holds *)
Fixpoint plain (v : jsval) : bool :=
  match v with
  | VNum n => Z.abs n <=? 2 ^ 53
  | VArr l => forallb plain l
  | VObj ps =>
      distinctKeys (map fst ps)
      && negb (existsb indexKey (map fst ps))
      && forallb (fun kv => plain (snd kv)) ps
  | _ => true
  end.

(** a text of the JSON that the parser of the model reads as
    [JSON.parse] does: it parses to a plain value *)
Definition plainText (text : jsstring) : bool :=
  match JSON.parse text with
  | Some v => plain v
  | None => false
  end.

(** a file whose text, when it can be read, is such a text *)
Definition plainFile (file : option DataBackup.File) : bool :=
  match file with
  | Some f =>
      match DataBackup.content f with
      | Some text => plainText text
      | None => true
      end
  | None => true
  end.

End WithPlatform.

End Spec.

(** ** Sample data *)

Module Sample.

Definition asciiUpper (s : jsstring) : jsstring :=
  map (fun c => if (97 <=? code c) && (code c <=? 122) then chr (code c - 32) else c) s.

Definition asciiLower (s : jsstring) : jsstring :=
  map (fun c => if (65 <=? code c) && (code c <=? 90) then chr (code c + 32) else c) s.

(** midnight of 2 November 2026, UTC *)
Definition t0 : Z := 1793577600000.

(** a page in UTC on 2 November 2026 whose clock advances by one
    millisecond at each reading *)
Definition running : Platform :=
  {| toUpperCase := asciiUpper; toLowerCase := asciiLower;
     Date_parse := fun _ => None; LocalTZA := 0;
     clock := fun k => t0 + Z.of_nat k;
     random := fun _ => js "k3x9q2m1z" |}.

(** the same page when all the readings fall in the same millisecond *)
Definition frozen : Platform :=
  {| toUpperCase := asciiUpper; toLowerCase := asciiLower;
     Date_parse := fun _ => None; LocalTZA := 0;
     clock := fun _ => t0;
     random := fun _ => js "k3x9q2m1z" |}.

(** the page just loaded with nothing stored, and room for [q] code
    units in the store *)
Definition emptyWorld (q : nat) : World :=
  {| objs := []; arrs := [[]]; persons := 0%nat;
     localStorage := []; quota := q; ticks := 0%nat |}.

Definition ana `{Platform} : M ref :=
  Person.new_Person (VStr (js "Ana Lima")) (VStr (js "10/05/1995"))
                    (VStr (js "(21) 98888-7777")) (VStr (js "ana@x.com")).

(** another person with the email of [ana] *)
Definition bia `{Platform} : M ref :=
  Person.new_Person (VStr (js "Bia Lima")) (VStr (js "11/06/1996"))
                    (VStr (js "(21) 97777-6666")) (VStr (js "ana@x.com")).

Definition caio `{Platform} : M ref :=
  Person.new_Person (VStr (js "Caio Reis")) (VStr (js "01/02/1980"))
                    (VStr (js "(11) 3333-4444")) (VStr (js "caio@x.com")).

(** an entry of an imported file *)
Definition entry (nome data telefone email : jsstring) : jsval :=
  VObj [ (js "nome", VStr nome); (js "dataNascimento", VStr data);
         (js "telefone", VStr telefone); (js "email", VStr email) ].

(** a JSON file whose text holds [data] under the key [data] *)
Definition jsonFile (data : jsval) : option DataBackup.File :=
  Some {| DataBackup.ftype := js "application/json";
          DataBackup.fname := js "pessoas.json";
          DataBackup.content := JSON.stringify (VObj [(js "data", data)]) |}.

(** [Date.parse] on the 24 characters [toISOString] writes *)
Definition parseISO (v : jsval) : Date :=
  match v with
  | VStr s =>
      if (length s =? 24)%nat then
        let num (from len : nat) := parseDigits (take len (drop from s)) in
        Some (DateTime.MakeDate
                (DateTime.MakeDay (num 0%nat 4%nat) (num 5%nat 2%nat - 1)
                                  (num 8%nat 2%nat))
                (num 11%nat 2%nat * 3600000 + num 14%nat 2%nat * 60000
                 + num 17%nat 2%nat * 1000 + num 20%nat 3%nat))
      else None
  | _ => None
  end.

(** the page of [running] with a [Date.parse] that reads ISO stamps *)
Definition reading : Platform :=
  {| toUpperCase := asciiUpper; toLowerCase := asciiLower;
     Date_parse := parseISO; LocalTZA := 0;
     clock := fun k => t0 + Z.of_nat k;
     random := fun _ => js "k3x9q2m1z" |}.

(** the world a computation leaves *)
Definition after {A} (m : M A) (w : World) : World := snd (m w).

(** the outcome of a computation *)
Definition outcome {A} (m : M A) (w : World) : result A := fst (m w).

End Sample.

(** ** Notions about the state *)

Module Frame.

(** the heap and the collection are the same in both states; the store
    and the count of readings may differ *)
Definition heapSame (w w' : World) : Prop :=
  objs w' = objs w /\ arrs w' = arrs w /\ persons w' = persons w.

(** a computation that leaves the heap and the collection as they were,
    whether it returns or throws *)
Definition quiet {A} (m : M A) : Prop :=
  forall w r w', m w = (r, w') -> heapSame w w'.

(** the two errors [savePersons] throws *)
Definition persistFailure (e : exn) : Prop :=
  e = AppError (js "Armazenamento local cheio. Remova alguns registros.")
               STORAGE_QUOTA_ERROR
  \/ e = AppError (js "Erro ao salvar dados no armazenamento") STORAGE_ERROR.

(** what a caller holding the array [a] can do to it: change its
    elements in place, by [f] *)
Definition mutateArray (a : ref) (f : list ref -> list ref) (w : World) : World :=
  set_arrs (fun h => alter f a h) w.

(** [p] with the identity of [original] and the stamp [t], as
    [updatePerson] leaves it *)
Definition stamped (original p : PersonObj) (t : Z) : PersonObj :=
  {| id := id original; nome := nome p; dataNascimento := dataNascimento p;
     telefone := telefone p; email := email p;
     createdAt := createdAt original; updatedAt := Some t |}.

(** the committed state of an update: the new record stamped and put in
    place *)
Definition committed (w : World) (l : list ref) (i : nat) (updated : ref)
    (q : PersonObj) (wc : World) : Prop :=
  objs wc = <[updated := q]> (objs w)
  /\ arrs wc = <[persons w := <[i := updated]> l]> (arrs w)
  /\ persons wc = persons w.

(** [p] passes [validate()] in the state [w] *)
Definition validAt `{Platform} (p : PersonObj) (w : World) : bool :=
  match fst (Person.validate p w) with
  | Ok v => Person.isValid v
  | Throw _ => false
  end.

(** an object with its property [k] replaced by [v] *)
Definition setMember (k : jsstring) (v : jsval) (ps : list (jsstring * jsval))
  : list (jsstring * jsval) :=
  map (fun kv => if str_eqb (fst kv) k then (k, v) else kv) ps.

(** the store after someone has replaced, by hand, the data of its
    newest snapshot by [d] *)
Definition tamperNewest (d : jsval) (w : World) : World :=
  match lookupItem DataBackup.backupKey (localStorage w) with
  | Some text =>
      match JSON.parse text with
      | Some (VArr (VObj ps :: l)) =>
          match JSON.stringify (VArr (VObj (setMember (js "data") d ps) :: l)) with
          | Some text' =>
              set_localStorage (putItem DataBackup.backupKey text' (localStorage w)) w
          | None => w
          end
      | _ => w
      end
  | None => w
  end.

(** the snapshot [createBackup] writes *)
Definition snapshot (bid timestamp : jsstring) (data : jsval) (checksum : jsstring)
  : jsval :=
  VObj [ (js "id", VStr bid); (js "timestamp", VStr timestamp); (js "data", data);
         (js "version", VStr (js "1.0")); (js "checksum", VStr checksum) ].

(** the arrays, the collection and the store are the same in both
    states; objects may have been made and the clock read *)
Definition storeSame (w w' : World) : Prop :=
  arrs w' = arrs w /\ persons w' = persons w /\ localStorage w' = localStorage w.

(** a computation that writes neither an array nor the store *)
Definition keepsStore {A} (m : M A) : Prop :=
  forall w r w', m w = (r, w') -> storeSame w w'.

(** a record that [JSON] and [fromJSON] give back as it is: its id and
    its three plain fields are JSON values, its name is a string in upper
    case, and its two stamps are read back by [Date.parse] from their
    ISO text *)
Definition storable `{Platform} (p : PersonObj) : Prop :=
  truthy (id p) = true /\ JSON.norm (id p) = Some (id p)
  /\ (exists n, nome p = VStr n /\ (n <> [] -> toUpperCase n = n))
  /\ JSON.norm (dataNascimento p) = Some (dataNascimento p)
  /\ JSON.norm (telefone p) = Some (telefone p)
  /\ JSON.norm (email p) = Some (email p)
  /\ (exists c, createdAt p = Some c
                /\ Date_parse (VStr (DateTime.toISOString c)) = Some c)
  /\ (exists u, updatedAt p = Some u
                /\ Date_parse (VStr (DateTime.toISOString u)) = Some u).

End Frame.

(** * Theorems *)

(** ** JSON: what is written is read back *)

Ltac eval_escape :=
  match goal with
  | |- context [JSON.escapeChar ?c] =>
      let e := eval vm_compute in (JSON.escapeChar c) in
      change (JSON.escapeChar c) with e
  end.

Lemma parseString_escape c tail r rest :
  JSON.parseString tail = Some (r, rest) ->
  JSON.parseString (JSON.escapeChar c ++ tail) = Some (c :: r, rest).
Proof.
  intros Ht.
  destruct c as [[] [] [] [] [] [] [] []]; eval_escape; simpl; rewrite Ht; reflexivity.
Qed.

Lemma parseString_quote s rest :
  JSON.parseString (concat (map JSON.escapeChar s) ++ chr 34 :: rest) = Some (s, rest).
Proof.
  induction s as [|c s IH]; [reflexivity|].
  cbn [map concat]. rewrite <- app_assoc. apply parseString_escape, IH.
Qed.

Lemma code_range c : 0 <= code c < 256.
Proof.
  unfold code. pose proof (N_ascii_bounded c). lia.
Qed.

Lemma code_chr n : 0 <= n < 256 -> code (chr n) = n.
Proof.
  intros Hn. unfold code, chr. rewrite N_ascii_embedding by lia. lia.
Qed.

Lemma chr_code c : chr (code c) = c.
Proof.
  unfold code, chr. rewrite N2Z.id. apply ascii_N_embedding.
Qed.

Lemma code_inj a b : code a = code b -> a = b.
Proof.
  intros E. rewrite <- (chr_code a), <- (chr_code b). now rewrite E.
Qed.

Lemma ascii_eqb_eq a b : ascii_eqb a b = true <-> a = b.
Proof.
  unfold ascii_eqb. rewrite Z.eqb_eq. split; [apply code_inj | now intros ->].
Qed.

Lemma str_eqb_eq s t : str_eqb s t = true <-> s = t.
Proof.
  revert t. induction s as [|a s IH]; intros [|b t]; simpl; try easy.
  rewrite andb_true_iff, ascii_eqb_eq, IH. split; [intros [-> ->]; easy | intros [= -> ->]; easy].
Qed.

Lemma isDigit_digitChar d : 0 <= d <= 9 -> isDigit (digitChar d) = true.
Proof.
  intros Hd. unfold isDigit, digitChar. rewrite code_chr by lia. lia.
Qed.

Lemma digitVal_digitChar d : 0 <= d <= 9 -> digitVal (digitChar d) = d.
Proof.
  intros Hd. unfold digitVal, digitChar. rewrite code_chr by lia. lia.
Qed.

Lemma parseDigits_snoc ds c : parseDigits (ds ++ [c]) = 10 * parseDigits ds + digitVal c.
Proof.
  unfold parseDigits. now rewrite fold_left_app.
Qed.

(** what [dec_nat] builds in front of its accumulator *)
Lemma dec_nat_spec fuel : forall n acc,
  0 <= n < 2 ^ Z.of_nat fuel -> (0 < fuel)%nat ->
  exists d ds, dec_nat fuel n acc = (d :: ds) ++ acc
    /\ forallb isDigit (d :: ds) = true
    /\ parseDigits (d :: ds) = n
    /\ (code d = 48 -> ds = [] /\ n = 0).
Proof.
  induction fuel as [|fuel IH]; intros n acc Hn Hf; [lia|].
  cbn [dec_nat]. destruct (Z.ltb_spec n 10) as [Hlt|Hge].
  - exists (digitChar (n mod 10)), []. rewrite Z.mod_small by lia.
    split; [reflexivity|]. split.
    + cbn. rewrite isDigit_digitChar by lia. reflexivity.
    + split.
      * unfold parseDigits. cbn. rewrite digitVal_digitChar by lia. lia.
      * unfold digitChar. rewrite code_chr by lia. intros; split; [reflexivity | lia].
  - assert (Hfuel : (0 < fuel)%nat).
    { destruct fuel; [|lia]. cbn in Hn. lia. }
    destruct (IH (n / 10) (digitChar (n mod 10) :: acc)) as (d & ds & E & Hd & Hv & Hz); [|exact Hfuel|].
    { split; [apply Z.div_pos; lia|].
      rewrite Nat2Z.inj_succ, Z.pow_succ_r in Hn by lia.
      apply Z.div_lt_upper_bound; lia. }
    exists d, (ds ++ [digitChar (n mod 10)]).
    split; [rewrite E; cbn; now rewrite <- app_assoc|].
    pose proof (Z.mod_pos_bound n 10 ltac:(lia)) as Hm.
    split.
    + change (d :: ds ++ [digitChar (n mod 10)]) with ((d :: ds) ++ [digitChar (n mod 10)]).
      rewrite forallb_app, Hd. cbn. now rewrite isDigit_digitChar by lia.
    + split.
      * change (d :: ds ++ [digitChar (n mod 10)]) with ((d :: ds) ++ [digitChar (n mod 10)]).
        rewrite parseDigits_snoc, Hv, digitVal_digitChar by lia.
        pose proof (Z.div_mod n 10 ltac:(lia)). lia.
      * intros H48. destruct (Hz H48) as [_ H0].
        assert (n / 10 > 0). { pose proof (Z.div_le_mono 10 n 10 ltac:(lia) ltac:(lia)). rewrite Z.div_same in H by lia. lia. }
        lia.
Qed.

Lemma dec_pos_spec n : 0 <= n ->
  exists d ds, dec_pos n = d :: ds
    /\ forallb isDigit (d :: ds) = true
    /\ parseDigits (d :: ds) = n
    /\ (code d = 48 -> ds = [] /\ n = 0).
Proof.
  intros Hn. unfold dec_pos.
  destruct (dec_nat_spec (S (Z.to_nat (Z.log2 n))) n []) as (d & ds & E & H); [|lia|].
  - split; [lia|]. rewrite Nat2Z.inj_succ, Z2Nat.id by apply Z.log2_nonneg.
    destruct (Z.eq_dec n 0) as [->|Hne]; [reflexivity|].
    apply Z.log2_spec. lia.
  - exists d, ds. rewrite E, app_nil_r. auto.
Qed.

Lemma span_digits ds rest :
  forallb isDigit ds = true -> delimited rest = true ->
  JSON.span isDigit (ds ++ rest) = (ds, rest).
Proof.
  intros Hd Hr. induction ds as [|d ds IH]; cbn in *.
  - destruct rest as [|c rest]; [reflexivity|]. cbn in Hr |- *.
    destruct (isDigit c); [discriminate|reflexivity].
  - apply andb_true_iff in Hd as [-> Hd]. now rewrite IH.
Qed.

Lemma parseNat_dec n rest : 0 <= n -> delimited rest = true ->
  JSON.parseNat (dec_pos n ++ rest) = Some (n, rest).
Proof.
  intros Hn Hr. destruct (dec_pos_spec n Hn) as (d & ds & E & Hd & Hv & Hz).
  unfold JSON.parseNat. rewrite E, span_digits by assumption.
  destruct (Z.eqb_spec (code d) 48) as [H48|H48].
  - destruct (Hz H48) as [-> ->]. cbn [negb andb].
    replace (JSON.startsFraction rest) with false; [now rewrite Hv|].
    destruct rest; [reflexivity|]. cbn in Hr. apply andb_true_iff in Hr as [_ Hr].
    now apply negb_true_iff in Hr.
  - cbn [andb].
    replace (JSON.startsFraction rest) with false; [now rewrite Hv|].
    destruct rest; [reflexivity|]. cbn in Hr. apply andb_true_iff in Hr as [_ Hr].
    now apply negb_true_iff in Hr.
Qed.

Lemma skipWs_start s rest : startOk s = true -> JSON.skipWs (s ++ rest) = s ++ rest.
Proof.
  destruct s as [|c s]; [discriminate|]. cbn.
  destruct (JSON.isWs c); [discriminate|reflexivity].
Qed.

Lemma parseValue_digit fuel c r :
  isDigit c = true ->
  JSON.parseValue (S fuel) (c :: r) =
  match JSON.parseNat (c :: r) with
  | Some (n, rest) => Some (VNum n, rest)
  | None => None
  end.
Proof.
  intros Hc.
  destruct c as [[] [] [] [] [] [] [] []]; try discriminate Hc; reflexivity.
Qed.

Lemma startOk_digit c s : isDigit c = true -> startOk (c :: s) = true.
Proof.
  intros Hc.
  destruct c as [[] [] [] [] [] [] [] []]; try discriminate Hc; reflexivity.
Qed.

Lemma delimited_comma r : delimited (chr 44 :: r) = true.
Proof. reflexivity. Qed.
Lemma delimited_bracket r : delimited (chr 93 :: r) = true.
Proof. reflexivity. Qed.
Lemma delimited_brace r : delimited (chr 125 :: r) = true.
Proof. reflexivity. Qed.

Lemma parseValue_minus fuel r :
  JSON.parseValue (S fuel) ("-"%char :: r) =
  match JSON.parseNat r with
  | Some (m, rest') => Some (VNum (- m), rest')
  | None => None
  end.
Proof. reflexivity. Qed.

Lemma parseValue_quote fuel r :
  JSON.parseValue (S fuel) (chr 34 :: r) =
  match JSON.parseString r with
  | Some (str, rest') => Some (VStr str, rest')
  | None => None
  end.
Proof. reflexivity. Qed.

Lemma parse_num fuel n rest :
  delimited rest = true ->
  JSON.parseValue (S fuel) (dec n ++ rest) = Some (VNum n, rest).
Proof.
  intros Hr. unfold dec. destruct (Z.ltb_spec n 0) as [Hneg|Hpos].
  - cbn [app]. rewrite parseValue_minus.
    rewrite parseNat_dec by (assumption || lia). now rewrite Z.opp_involutive.
  - destruct (dec_pos_spec n Hpos) as (d & ds & E & Hd & _).
    pose proof (parseNat_dec n rest Hpos Hr) as HP.
    rewrite E in HP |- *. cbn in Hd. apply andb_true_iff in Hd as [Hd _].
    cbn [app]. rewrite parseValue_digit by assumption.
    cbn [app] in HP. now rewrite HP.
Qed.

Lemma startOk_dec n : startOk (dec n) = true.
Proof.
  unfold dec. destruct (Z.ltb_spec n 0) as [Hneg|Hpos]; [reflexivity|].
  destruct (dec_pos_spec n Hpos) as (d & ds & E & Hd & _). rewrite E.
  cbn in Hd. apply andb_true_iff in Hd as [Hd _]. now apply startOk_digit.
Qed.

Lemma parse_str fuel s rest :
  JSON.parseValue (S fuel) (JSON.quote s ++ rest) = Some (VStr s, rest).
Proof.
  unfold JSON.quote.
  cbn [app]. rewrite parseValue_quote.
  rewrite <- app_assoc. cbn [app]. now rewrite parseString_quote.
Qed.

Lemma parse_null fuel rest :
  JSON.parseValue (S fuel) (js "null" ++ rest) = Some (VNull, rest).
Proof. reflexivity. Qed.

Lemma parse_true fuel rest :
  JSON.parseValue (S fuel) (js "true" ++ rest) = Some (VBool true, rest).
Proof. reflexivity. Qed.

Lemma parse_false fuel rest :
  JSON.parseValue (S fuel) (js "false" ++ rest) = Some (VBool false, rest).
Proof. reflexivity. Qed.

Lemma reads_leaf s v' :
  startOk s = true -> JSON.stringify v' = Some s -> JSON.norm v' = Some v' ->
  (forall fuel rest, delimited rest = true ->
     JSON.parseValue (S fuel) (s ++ rest) = Some (v', rest)) ->
  reads s v'.
Proof.
  intros H1 H2 H3 H4. repeat split; try assumption.
  intros fuel rest Hl Hr. destruct fuel as [|fuel].
  - destruct s; [discriminate H1 | cbn in Hl; lia].
  - now apply H4.
Qed.

Lemma reads_elem x : roundtrips x -> reads (elemText x) (elemNorm x).
Proof.
  intros Hx. unfold elemText, elemNorm.
  destruct (JSON.stringify x) as [s|] eqn:Es.
  - destruct (Hx s Es) as (v' & -> & Hr). exact Hr.
  - assert (x = VUndefined) as ->.
    { destruct x as [| | | | |[]| |]; try discriminate Es; reflexivity. }
    cbn. apply reads_leaf; reflexivity.
Qed.

Lemma join_cons sep x l tail :
  join sep (x :: l) ++ tail =
  x ++ match l with [] => tail | _ => sep ++ join sep l ++ tail end.
Proof.
  destruct l; cbn [join]; [reflexivity|]. rewrite <- !app_assoc. reflexivity.
Qed.

Lemma length_join_cons sep x y l :
  length (join sep (x :: y :: l)) = (length x + length sep + length (join sep (y :: l)))%nat.
Proof. change (join sep (x :: y :: l)) with (x ++ sep ++ join sep (y :: l)). rewrite !length_app. lia. Qed.

Lemma reads_nonempty s v : reads s v -> (0 < length s)%nat.
Proof. intros [H _]. destruct s; [discriminate|cbn; lia]. Qed.

Lemma parseElems_unfold fuel s :
  JSON.parseElems (S fuel) s =
  match JSON.parseValue fuel s with
  | None => None
  | Some (v, r) =>
      match JSON.skipWs r with
      | c :: r' =>
          if code c =? 44 then
            match JSON.parseElems fuel r' with
            | Some (l, rest) => Some (v :: l, rest)
            | None => None
            end
          else if code c =? 93 then Some ([v], r')
          else None
      | [] => None
      end
  end.
Proof. reflexivity. Qed.

Lemma parseElems_items (items : list (jsstring * jsval)) :
  items <> [] -> Forall (fun it => reads (fst it) (snd it)) items ->
  forall fuel rest, (length (join (js ",") (map fst items)) < fuel)%nat ->
    JSON.parseElems fuel (join (js ",") (map fst items) ++ chr 93 :: rest)
    = Some (map snd items, rest).
Proof.
  intros Hne Hall. induction Hall as [|[s v] items Hr Hall IH]; [congruence|].
  intros fuel rest Hlen. destruct fuel as [|fuel]; [lia|].
  rewrite parseElems_unfold. cbn [map fst snd] in *.
  rewrite join_cons. destruct items as [|it items].
  - cbn [map join] in *. destruct Hr as (_ & _ & _ & Hp).
    rewrite Hp by (try apply delimited_bracket; lia). reflexivity.
  - cbn [map] in Hlen. rewrite length_join_cons in Hlen.
    change (fst it :: map fst items) with (map fst (it :: items)) in Hlen.
    change (length (js ",")) with 1%nat in Hlen.
    pose proof (reads_nonempty _ _ Hr) as Hs.
    destruct Hr as (_ & _ & _ & Hp).
    cbn [map]. cbv iota.
    change (fst it :: map fst items) with (map fst (it :: items)).
    change (js "," ++ join (js ",") (map fst (it :: items)) ++ chr 93 :: rest)
      with (chr 44 :: (join (js ",") (map fst (it :: items)) ++ chr 93 :: rest)).
    rewrite Hp by (try apply delimited_comma; lia).
    cbn [JSON.skipWs dropWhile]. change (JSON.isWs (chr 44)) with false. cbv iota.
    change (code (chr 44) =? 44) with true. cbv iota.
    rewrite IH by (try congruence; lia). reflexivity.
Qed.

Lemma parseMembers_unfold fuel s :
  JSON.parseMembers (S fuel) s =
  match JSON.skipWs s with
  | q :: r0 =>
      if code q =? 34 then
        match JSON.parseString r0 with
        | None => None
        | Some (k, r1) =>
            match JSON.skipWs r1 with
            | colon :: r2 =>
                if code colon =? 58 then
                  match JSON.parseValue fuel r2 with
                  | None => None
                  | Some (v, r3) =>
                      match JSON.skipWs r3 with
                      | c :: r4 =>
                          if code c =? 44 then
                            match JSON.parseMembers fuel r4 with
                            | Some (ps, rest) => Some ((k, v) :: ps, rest)
                            | None => None
                            end
                          else if code c =? 125 then Some ([(k, v)], r4)
                          else None
                      | [] => None
                      end
                  end
                else None
            | [] => None
            end
        end
      else None
  | [] => None
  end.
Proof. reflexivity. Qed.

Lemma parseMembers_items (items : list (jsstring * jsstring * jsval)) :
  items <> [] -> Forall (fun it => reads (snd (fst it)) (snd it)) items ->
  forall fuel rest, (length (join (js ",") (map memberOf items)) < fuel)%nat ->
    JSON.parseMembers fuel (join (js ",") (map memberOf items) ++ chr 125 :: rest)
    = Some (map (fun it => (fst (fst it), snd it)) items, rest).
Proof.
  intros Hne Hall. induction Hall as [|[[k s] v] items Hr Hall IH]; [congruence|].
  intros fuel rest Hlen. destruct fuel as [|fuel]; [lia|].
  rewrite parseMembers_unfold. cbn [map fst snd] in *.
  rewrite join_cons. unfold memberOf at 1. cbn [fst snd].
  unfold JSON.quote at 1. cbn [app JSON.skipWs dropWhile].
  change (JSON.isWs (chr 34)) with false. cbv iota.
  change (code (chr 34) =? 34) with true. cbv iota.
  rewrite <- !app_assoc. cbn [app]. rewrite parseString_quote.
  change (js ":" ++ ?x) with (chr 58 :: x).
  cbn [JSON.skipWs dropWhile]. change (JSON.isWs (chr 58)) with false. cbv iota.
  change (code (chr 58) =? 58) with true. cbv iota.
  pose proof (reads_nonempty _ _ Hr) as Hs.
  destruct Hr as (_ & _ & _ & Hp).
  assert (Hm : (length s < length (memberOf (k, s, v)))%nat).
  { unfold memberOf, JSON.quote. cbn [fst snd length]. rewrite !length_app. cbn. lia. }
  destruct items as [|it items].
  - cbn [map join] in *. rewrite Hp by (try apply delimited_brace; lia). reflexivity.
  - cbn [map] in Hlen. rewrite length_join_cons in Hlen.
    change (memberOf it :: map memberOf items) with (map memberOf (it :: items)) in Hlen.
    change (length (js ",")) with 1%nat in Hlen.
    cbn [map]. cbv iota.
    change (memberOf it :: map memberOf items) with (map memberOf (it :: items)).
    change (js "," ++ join (js ",") (map memberOf (it :: items)) ++ chr 125 :: rest)
      with (chr 44 :: (join (js ",") (map memberOf (it :: items)) ++ chr 125 :: rest)).
    rewrite Hp by (try apply delimited_comma; lia).
    cbn [JSON.skipWs dropWhile]. change (JSON.isWs (chr 44)) with false. cbv iota.
    change (code (chr 44) =? 44) with true. cbv iota.
    rewrite IH by (try congruence; lia). reflexivity.
Qed.

Lemma parseValue_arr fuel r :
  JSON.parseValue (S fuel) (chr 91 :: r) =
  match JSON.skipWs r with
  | c2 :: r2 =>
      if code c2 =? 93 then Some (VArr [], r2)
      else match JSON.parseElems fuel r with
           | Some (l, rest) => Some (VArr l, rest)
           | None => None
           end
  | [] => None
  end.
Proof. reflexivity. Qed.

Lemma parseValue_obj fuel r :
  JSON.parseValue (S fuel) (chr 123 :: r) =
  match JSON.skipWs r with
  | c2 :: r2 =>
      if code c2 =? 125 then Some (VObj [], r2)
      else match JSON.parseMembers fuel r with
           | Some (ps, rest) => Some (VObj ps, rest)
           | None => None
           end
  | [] => None
  end.
Proof. reflexivity. Qed.

Lemma stringify_arr l :
  JSON.stringify (VArr l) = Some (chr 91 :: join (js ",") (map elemText l) ++ [chr 93]).
Proof. reflexivity. Qed.

Lemma norm_arr l : JSON.norm (VArr l) = Some (VArr (map elemNorm l)).
Proof. reflexivity. Qed.

Lemma stringify_obj ps :
  JSON.stringify (VObj ps) = Some (chr 123 :: join (js ",") (omap memberText ps) ++ [chr 125]).
Proof. reflexivity. Qed.

Lemma norm_obj ps : JSON.norm (VObj ps) = Some (VObj (omap memberNorm ps)).
Proof. reflexivity. Qed.

(** the first character of a non-empty joined text is that of its first part *)
Lemma skipWs_join_start items tail c r :
  (forall s, In s items -> startOk s = true) -> items <> [] ->
  JSON.skipWs (join (js ",") items ++ tail) = c :: r ->
  c :: r = join (js ",") items ++ tail /\ (code c =? 93) = false /\ (code c =? 125) = false.
Proof.
  intros Hall Hne. destruct items as [|s items]; [congruence|].
  rewrite join_cons. pose proof (Hall s (or_introl eq_refl)) as Hs.
  destruct s as [|c0 s]; [discriminate|]. cbn [app JSON.skipWs dropWhile].
  cbn in Hs. destruct (JSON.isWs c0); [discriminate|]. cbn in Hs.
  intros [= <- <-]. split; [reflexivity|].
  destruct (code c0 =? 93); [discriminate|]. destruct (code c0 =? 125); [discriminate|]. easy.
Qed.

Lemma reads_arr l :
  Forall roundtrips l ->
  reads (chr 91 :: join (js ",") (map elemText l) ++ [chr 93]) (VArr (map elemNorm l)).
Proof.
  intros Hall.
  assert (Hr : Forall (fun x => reads (elemText x) (elemNorm x)) l).
  { eapply Forall_impl; [exact Hall|]. intros x Hx. now apply reads_elem. }
  clear Hall. split; [reflexivity|]. split; [|split].
  - assert (E : map elemText (map elemNorm l) = map elemText l).
    { rewrite map_map. apply map_ext_Forall. eapply Forall_impl; [exact Hr|].
      intros x (_ & Hs & _). unfold elemText at 1. now rewrite Hs. }
    rewrite stringify_arr, E. reflexivity.
  - assert (E : map elemNorm (map elemNorm l) = map elemNorm l).
    { rewrite map_map. apply map_ext_Forall. eapply Forall_impl; [exact Hr|].
      intros x (_ & _ & Hn & _). unfold elemNorm at 1. now rewrite Hn. }
    rewrite norm_arr, E. reflexivity.
  - intros fuel rest Hlen _. destruct fuel as [|fuel]; [cbn in Hlen; lia|].
    cbn [app]. rewrite parseValue_arr. rewrite <- app_assoc. cbn [app].
    destruct l as [|x l].
    + reflexivity.
    + set (items := map (fun x => (elemText x, elemNorm x)) (x :: l)).
      assert (E1 : map elemText (x :: l) = map fst items).
      { unfold items. rewrite map_map. reflexivity. }
      assert (E2 : map elemNorm (x :: l) = map snd items).
      { unfold items. rewrite map_map. reflexivity. }
      assert (Hit : Forall (fun it => reads (fst it) (snd it)) items).
      { unfold items. rewrite Forall_map. exact Hr. }
      assert (Hne : items <> []) by (unfold items; cbn; congruence).
      rewrite E1, E2 in *.
      destruct (JSON.skipWs (join (js ",") (map fst items) ++ chr 93 :: rest)) as [|c2 r2] eqn:Esk.
      { destruct items as [|[s v] items']; [congruence|].
        cbn [map fst] in Esk. rewrite join_cons in Esk.
        apply Forall_inv in Hit. apply reads_nonempty in Hit as Hpos. destruct Hit as (Hst & _).
        cbn [fst] in *. rewrite skipWs_start in Esk by assumption.
        destruct s; [cbn in Hpos; lia | discriminate]. }
      apply skipWs_join_start in Esk as (_ & -> & _).
      * rewrite parseElems_items; [reflexivity|assumption|assumption|].
        cbn [length] in Hlen. rewrite length_app in Hlen. cbn [length] in Hlen. lia.
      * intros s Hin. apply in_map_iff in Hin as ([s' v'] & <- & Hin).
        rewrite List.Forall_forall in Hit. apply Hit in Hin. apply Hin.
      * intros E. apply map_eq_nil in E. congruence.
Qed.

Lemma member_items ps :
  Forall (fun kv => roundtrips (snd kv)) ps ->
  omap memberText ps = map memberOf (omap memberItem ps)
  /\ omap memberNorm ps = map (fun it => (fst (fst it), snd it)) (omap memberItem ps)
  /\ Forall (fun it => reads (snd (fst it)) (snd it)) (omap memberItem ps).
Proof.
  induction 1 as [|[k x] ps Hx Hps (IH1 & IH2 & IH3)]; [repeat split; constructor|].
  cbn [omap list_omap memberText memberNorm memberItem snd] in *.
  destruct (JSON.stringify x) as [s|] eqn:Es.
  - destruct (Hx s Es) as (y & -> & Hr).
    fold (omap memberText ps) (omap memberNorm ps) (omap memberItem ps).
    rewrite IH1, IH2. repeat split; try reflexivity. constructor; assumption.
  - assert (x = VUndefined) as ->.
    { destruct x as [| | | | |[]| |]; try discriminate Es; reflexivity. }
    cbn. fold (omap memberText ps) (omap memberNorm ps) (omap memberItem ps).
    auto.
Qed.

Lemma items_fixed (items : list (jsstring * jsstring * jsval)) :
  Forall (fun it => reads (snd (fst it)) (snd it)) items ->
  omap memberText (map (fun it => (fst (fst it), snd it)) items) = map memberOf items
  /\ omap memberNorm (map (fun it => (fst (fst it), snd it)) items)
     = map (fun it => (fst (fst it), snd it)) items.
Proof.
  induction 1 as [|[[k s] y] items Hr Hall [IH1 IH2]]; [split; reflexivity|].
  destruct Hr as (_ & Hs & Hn & _). cbn [fst snd] in Hs, Hn.
  cbn [map omap list_omap fst snd memberText memberNorm].
  rewrite Hs, Hn.
  fold (omap memberText (map (fun it : jsstring * jsstring * jsval => (fst (fst it), snd it)) items)).
  fold (omap memberNorm (map (fun it : jsstring * jsstring * jsval => (fst (fst it), snd it)) items)).
  rewrite IH1, IH2. split; reflexivity.
Qed.

Lemma startOk_memberOf it : startOk (memberOf it) = true.
Proof. reflexivity. Qed.

Lemma reads_obj ps :
  Forall (fun kv => roundtrips (snd kv)) ps ->
  reads (chr 123 :: join (js ",") (omap memberText ps) ++ [chr 125])
        (VObj (omap memberNorm ps)).
Proof.
  intros Hall. destruct (member_items ps Hall) as (E1 & E2 & Hit).
  rewrite E1, E2. clear E1 E2 Hall. set (items := omap memberItem ps) in *. clearbody items.
  destruct (items_fixed items Hit) as [F1 F2].
  split; [reflexivity|]. split; [|split].
  - rewrite stringify_obj, F1. reflexivity.
  - rewrite norm_obj, F2. reflexivity.
  - intros fuel rest Hlen _. destruct fuel as [|fuel]; [cbn in Hlen; lia|].
    cbn [app]. rewrite parseValue_obj. rewrite <- app_assoc. cbn [app].
    destruct items as [|it items]; [reflexivity|].
    destruct (JSON.skipWs (join (js ",") (map memberOf (it :: items)) ++ chr 125 :: rest))
      as [|c2 r2] eqn:Esk.
    { cbn [map] in Esk. rewrite join_cons in Esk. discriminate Esk. }
    apply skipWs_join_start in Esk as (_ & _ & ->).
    + rewrite parseMembers_items; [reflexivity|congruence|assumption|].
      cbn [length] in Hlen. rewrite length_app in Hlen. cbn [length] in Hlen. lia.
    + intros s Hin. apply in_map_iff in Hin as (it' & <- & _). apply startOk_memberOf.
    + cbn [map]. congruence.
Qed.

Theorem stringify_roundtrips v : roundtrips v.
Proof.
  induction v as [| | b | n | s | [t|] | l IH | ps IH] using jsval_ind; intros text Ht.
  - discriminate.
  - injection Ht as <-. exists VNull. split; [reflexivity|].
    apply reads_leaf; reflexivity.
  - injection Ht as <-. exists (VBool b). split; [reflexivity|].
    destruct b; apply reads_leaf; reflexivity.
  - injection Ht as <-. exists (VNum n). split; [reflexivity|].
    apply reads_leaf; try reflexivity; [apply startOk_dec|].
    intros; now apply parse_num.
  - injection Ht as <-. exists (VStr s). split; [reflexivity|].
    apply reads_leaf; try reflexivity. intros; apply parse_str.
  - injection Ht as <-. exists (VStr (DateTime.toISOString t)). split; [reflexivity|].
    apply reads_leaf; try reflexivity. intros; apply parse_str.
  - injection Ht as <-. exists VNull. split; [reflexivity|].
    apply reads_leaf; reflexivity.
  - rewrite stringify_arr in Ht. injection Ht as <-.
    exists (VArr (map elemNorm l)). split; [reflexivity|]. now apply reads_arr.
  - rewrite stringify_obj in Ht. injection Ht as <-.
    exists (VObj (omap memberNorm ps)). split; [reflexivity|]. now apply reads_obj.
Qed.

(** [JSON.parse(JSON.stringify(v))] is [norm v], and writing that out
    again gives the same text *)
Theorem parse_stringify v s :
  JSON.stringify v = Some s ->
  exists v', JSON.norm v = Some v' /\ JSON.parse s = Some v'
             /\ JSON.stringify v' = Some s /\ JSON.norm v' = Some v'.
Proof.
  intros Hs. destruct (stringify_roundtrips v s Hs) as (v' & Hn & _ & Hs' & Hn' & Hp).
  exists v'. repeat split; try assumption.
  unfold JSON.parse. rewrite <- (app_nil_r s) at 2.
  rewrite Hp by (try reflexivity; lia). reflexivity.
Qed.

(** ** Calendar *)

Ltac dlia := Z.to_euclidean_division_equations; lia.

Lemma DayFromYear_succ y :
  DateTime.DayFromYear (y + 1) = DateTime.DayFromYear y + DateTime.DaysInYear y.
Proof.
  unfold DateTime.DayFromYear, DateTime.DaysInYear, DateTime.isLeap.
  destruct (Z.eqb_spec (y mod 4) 0), (Z.eqb_spec (y mod 100) 0), (Z.eqb_spec (y mod 400) 0);
    cbn [negb andb orb]; dlia.
Qed.

Lemma DayFromYear_mono y1 y2 : y1 <= y2 -> DateTime.DayFromYear y1 <= DateTime.DayFromYear y2.
Proof.
  unfold DateTime.DayFromYear. dlia.
Qed.

Lemma DayFromYear_lt y1 y2 : y1 < y2 -> DateTime.DayFromYear y1 < DateTime.DayFromYear y2.
Proof.
  unfold DateTime.DayFromYear. dlia.
Qed.

Lemma yearDown_spec fuel : forall y D y',
  DateTime.DayFromYear y' <= D < DateTime.DayFromYear (y' + 1) ->
  y' <= y -> y - y' <= Z.of_nat fuel ->
  DateTime.yearDown fuel y D = y'.
Proof.
  induction fuel as [|fuel IH]; intros y D y' HD Hle Hf; cbn [DateTime.yearDown].
  - lia.
  - destruct (Z.leb_spec (DateTime.DayFromYear y) D) as [Hy|Hy].
    + destruct (Z.eq_dec y y') as [|Hne]; [assumption|].
      pose proof (DayFromYear_mono (y' + 1) y ltac:(lia)). lia.
    + assert (y <> y') by (intros ->; lia).
      apply IH; [assumption|lia|lia].
Qed.

Lemma YearFromDay_spec D y :
  DateTime.DayFromYear y <= D < DateTime.DayFromYear (y + 1) ->
  DateTime.YearFromDay D = y.
Proof.
  intros HD. unfold DateTime.YearFromDay. apply yearDown_spec; [assumption| |].
  - unfold DateTime.DayFromYear in HD. destruct (Z.ltb_spec D 0); dlia.
  - unfold DateTime.DayFromYear in HD. rewrite Nat2Z.inj_add, Z2Nat.id by (apply Z.div_pos; lia).
    destruct (Z.ltb_spec D 0); dlia.
Qed.


Lemma Day_MakeDate D : DateTime.Day (DateTime.MakeDate D 0) = D.
Proof.
  unfold DateTime.Day, DateTime.MakeDate. rewrite Z.add_0_r.
  apply Z.div_mul. unfold DateTime.msPerDay. lia.
Qed.

(** the year, the leap flag and the day within the year of the [off]-th
    day of year [y] *)
Lemma yearParts y off t :
  DateTime.Day t = DateTime.DayFromYear y + off ->
  0 <= off < DateTime.DaysInYear y ->
  DateTime.YearFromTime t = y
  /\ DateTime.DayWithinYear t = off
  /\ DateTime.InLeapYear t = (if DateTime.isLeap y then 1 else 0).
Proof.
  intros HD Hoff.
  assert (Hy : DateTime.YearFromTime t = y).
  { unfold DateTime.YearFromTime. apply YearFromDay_spec.
    rewrite DayFromYear_succ. lia. }
  unfold DateTime.DayWithinYear, DateTime.InLeapYear. rewrite Hy. repeat split. lia.
Qed.

Lemma MakeDay_in_year y m d :
  1 <= m <= 12 ->
  DateTime.MakeDay y (m - 1) d =
  DateTime.DayFromYear y
  + DateTime.monthStart (m - 1) (if DateTime.isLeap y then 1 else 0) + d - 1.
Proof.
  intros Hm. unfold DateTime.MakeDay.
  replace ((m - 1) / 12) with 0 by dlia. replace ((m - 1) mod 12) with (m - 1) by dlia.
  now rewrite Z.add_0_r.
Qed.

Ltac month_cases m Hm :=
  assert (m = 1 \/ m = 2 \/ m = 3 \/ m = 4 \/ m = 5 \/ m = 6 \/ m = 7 \/ m = 8
          \/ m = 9 \/ m = 10 \/ m = 11 \/ m = 12) as Hcases by lia;
  repeat (destruct Hcases as [-> | Hcases]); [..|subst m].

Ltac ltb_cases :=
  repeat match goal with
         | |- context [?a <? ?b] => destruct (Z.ltb_spec a b); try lia
         end.

Ltac eqb_cases :=
  repeat match goal with
         | |- context [?a =? ?b] => destruct (Z.eqb_spec a b); try lia
         | |- context [?a <=? ?b] => destruct (Z.leb_spec a b); try lia
         end.

Lemma partsComeBack_spec y m d :
  1 <= m <= 12 -> 1 <= d <= 31 ->
  DateTime.partsComeBack y m d = (d <=? DateTime.daysInMonth y m).
Proof.
  intros Hm Hd. unfold DateTime.partsComeBack.
  set (t := DateTime.MakeDate (DateTime.MakeDay y (m - 1) d) 0).
  assert (HD : DateTime.Day t = DateTime.MakeDay y (m - 1) d) by apply Day_MakeDate.
  rewrite MakeDay_in_year in HD by assumption.
  rewrite <- Z.add_sub_assoc, <- Z.add_assoc in HD.
  assert (Hoff : 0 <= DateTime.monthStart (m - 1) (if DateTime.isLeap y then 1 else 0) + (d - 1)
                 < DateTime.DaysInYear y).
  { unfold DateTime.DaysInYear. month_cases m Hm; destruct (DateTime.isLeap y); simpl; lia. }
  destruct (yearParts y _ t HD Hoff) as (Hy & Hw & Hl).
  unfold DateTime.DateFromTime, DateTime.MonthFromTime. rewrite Hy, Hw, Hl.
  clearbody t. clear HD Hoff Hy Hw Hl t.
  unfold DateTime.daysInMonth.
  month_cases m Hm; destruct (DateTime.isLeap y); simpl;
    ltb_cases; simpl; eqb_cases; reflexivity.
Qed.

Lemma daysInMonth_le y m : DateTime.daysInMonth y m <= 31.
Proof.
  unfold DateTime.daysInMonth.
  repeat match goal with
         | |- context [match ?x with _ => _ end] => destruct x
         end; lia.
Qed.

Section DateFacts.
Context `{Platform}.

Lemma Date_local_shift y m d :
  1900 <= y ->
  Person.Date_local y m d + LocalTZA = DateTime.MakeDate (DateTime.MakeDay y m d) 0.
Proof.
  intros Hy. unfold Person.Date_local.
  destruct (Z.leb_spec y 99); [lia|]. rewrite andb_false_r. lia.
Qed.

(** [parseBrazilianDate] on a string: the shape, the ranges and the
    calendar decide, and the result is the local midnight of the day *)
Lemma parseBrazilianDate_spec s :
  Person.parseBrazilianDate (VStr s) =
  match Person.matchDate (Person.cleanDate s) with
  | Some (ds, ms, ys) =>
      if Spec.isCalendarDate (Person.cleanDate s)
      then Some (Person.Date_local (parseDigits ys) (parseDigits ms - 1) (parseDigits ds))
      else None
  | None => None
  end.
Proof.
  unfold Person.parseBrazilianDate, Spec.isCalendarDate.
  destruct s as [|c s]; [reflexivity|].
  change (negb (truthy (VStr (c :: s)))) with false. cbv iota.
  destruct (Person.matchDate (Person.cleanDate (c :: s))) as [[[ds ms] ys]|]; [|reflexivity].
  unfold Person.getDate, Person.getMonth, Person.getFullYear.
  generalize (parseDigits ds) (parseDigits ms) (parseDigits ys). clear.
  intros day month year.
  pose proof (daysInMonth_le year month) as H31.
  destruct (Z.ltb_spec day 1) as [Hd1|Hd1].
  { rewrite (proj2 (Z.leb_gt 1 day)) by lia. reflexivity. }
  destruct (Z.ltb_spec 31 day) as [Hd2|Hd2].
  { rewrite (proj2 (Z.leb_gt day (DateTime.daysInMonth year month))) by lia.
    rewrite andb_false_r. reflexivity. }
  destruct (Z.ltb_spec month 1) as [Hm1|Hm1].
  { rewrite (proj2 (Z.leb_gt 1 month)) by lia. rewrite !andb_false_r. reflexivity. }
  destruct (Z.ltb_spec 12 month) as [Hm2|Hm2].
  { rewrite (proj2 (Z.leb_gt month 12)) by lia. rewrite !andb_false_r. reflexivity. }
  destruct (Z.ltb_spec year 1900) as [Hy1|Hy1].
  { rewrite (proj2 (Z.leb_gt 1900 year)) by lia. rewrite !andb_false_r. reflexivity. }
  destruct (Z.ltb_spec 2100 year) as [Hy2|Hy2].
  { rewrite (proj2 (Z.leb_gt year 2100)) by lia. rewrite !andb_false_r. reflexivity. }
  rewrite (proj2 (Z.leb_le 1 day)), (proj2 (Z.leb_le 1 month)), (proj2 (Z.leb_le month 12)),
    (proj2 (Z.leb_le 1900 year)), (proj2 (Z.leb_le year 2100)) by lia.
  rewrite Date_local_shift by lia.
  rewrite <- (partsComeBack_spec year month day) by lia.
  unfold DateTime.partsComeBack.
  destruct (DateTime.DateFromTime _ =? day), (DateTime.MonthFromTime _ =? month - 1),
    (DateTime.YearFromTime _ =? year); reflexivity.
Qed.

Lemma isCalendarDate_ranges c ds ms ys :
  Person.matchDate c = Some (ds, ms, ys) -> Spec.isCalendarDate c = true ->
  1 <= parseDigits ds <= DateTime.daysInMonth (parseDigits ys) (parseDigits ms)
  /\ 1 <= parseDigits ms <= 12 /\ 1900 <= parseDigits ys <= 2100.
Proof.
  intros Em Ec. unfold Spec.isCalendarDate in Ec. rewrite Em in Ec.
  apply andb_true_iff in Ec as [Ec Hy2]. apply andb_true_iff in Ec as [Ec Hy1].
  apply andb_true_iff in Ec as [Ec Hm2]. apply andb_true_iff in Ec as [Ec Hm1].
  apply andb_true_iff in Ec as [Hd1 Hd2].
  apply Z.leb_le in Hy2, Hy1, Hm2, Hm1, Hd1, Hd2. lia.
Qed.

(** the local midnight of a day of the calendar: its year, and the fact
    that it starts a local day *)
Lemma Date_local_year y m d :
  1900 <= y -> 1 <= m <= 12 -> 1 <= d <= DateTime.daysInMonth y m ->
  Person.getFullYear (Person.Date_local y (m - 1) d) = y
  /\ DateTime.Day (Person.Date_local y (m - 1) d + LocalTZA) * DateTime.msPerDay
     = Person.Date_local y (m - 1) d + LocalTZA.
Proof.
  intros Hy Hm Hd. pose proof (daysInMonth_le y m) as H31.
  unfold Person.getFullYear. rewrite Date_local_shift by lia. split.
  - pose proof (partsComeBack_spec y m d ltac:(lia) ltac:(lia)) as Hp.
    rewrite (proj2 (Z.leb_le d (DateTime.daysInMonth y m))) in Hp by lia.
    unfold DateTime.partsComeBack in Hp.
    apply andb_true_iff in Hp as [_ Hp]. now apply Z.eqb_eq in Hp.
  - rewrite Day_MakeDate. unfold DateTime.MakeDate. lia.
Qed.

(** the year of a parsed date is the year that was written *)
Lemma parseBrazilianDate_year s bd :
  Person.parseBrazilianDate (VStr s) = Some bd ->
  exists ds ms ys, Person.matchDate (Person.cleanDate s) = Some (ds, ms, ys)
    /\ Spec.isCalendarDate (Person.cleanDate s) = true
    /\ bd = Person.Date_local (parseDigits ys) (parseDigits ms - 1) (parseDigits ds)
    /\ Person.getFullYear bd = parseDigits ys
    /\ DateTime.Day (bd + LocalTZA) * DateTime.msPerDay = bd + LocalTZA.
Proof.
  rewrite parseBrazilianDate_spec.
  destruct (Person.matchDate (Person.cleanDate s)) as [[[ds ms] ys]|] eqn:Em; [|discriminate].
  destruct (Spec.isCalendarDate (Person.cleanDate s)) eqn:Ec; [|discriminate].
  intros [= <-]. exists ds, ms, ys.
  destruct (isCalendarDate_ranges _ _ _ _ Em Ec) as (Hd & Hm & Hy).
  destruct (Date_local_year (parseDigits ys) (parseDigits ms) (parseDigits ds)) as [H1 H2];
    [lia|lia|lia|].
  auto.
Qed.

End DateFacts.


Section BirthDate.
Context `{Platform}.

Lemma validateBirthDate_parsed today s birthDate :
  Person.parseBrazilianDate (VStr s) = Some birthDate ->
  Person.validateBirthDate today (VStr s) =
  negb (today <? birthDate)
  && negb (120 <? Person.getFullYear today - Person.getFullYear birthDate).
Proof.
  intros Hp. unfold Person.validateBirthDate. rewrite Hp.
  destruct s as [|c s]; [discriminate Hp|].
  change (negb (truthy (VStr (c :: s)))) with false. cbv iota.
  destruct (today <? birthDate); [reflexivity|].
  destruct (120 <? _); reflexivity.
Qed.

Lemma validateBirthDate_string today date :
  Person.validateBirthDate today date = true ->
  exists s birthDate, date = VStr s /\ Person.parseBrazilianDate (VStr s) = Some birthDate.
Proof.
  unfold Person.validateBirthDate. destruct (negb (truthy date)); [discriminate|].
  destruct (Person.parseBrazilianDate date) as [bd|] eqn:Hp; [|discriminate].
  intros _. destruct date as [| | | |s| | |]; try discriminate Hp. eauto.
Qed.

(** C4 (as amended): validateBirthDate accepts an input only if it is a
    string that, once every character other than a digit or a slash is
    removed, reads as day/month/year with the day from 1 to 31, the month
    from 1 to 12, the year from 1900 to 2100 and the day existing in that
    month; 31/02/2023 and 29/02/1990 are refused whatever the day is, and
    29/02/1996 is accepted from that day on until the end of 2116. *)
Theorem C4_validateBirthDate_calendar (today : Z) :
  (forall date, Person.validateBirthDate today date = true ->
     exists s ds ms ys, date = VStr s
       /\ Person.matchDate (Person.cleanDate s) = Some (ds, ms, ys)
       /\ 1 <= parseDigits ds <= 31
       /\ 1 <= parseDigits ms <= 12
       /\ 1900 <= parseDigits ys <= 2100
       /\ parseDigits ds <= DateTime.daysInMonth (parseDigits ys) (parseDigits ms)
       /\ DateTime.partsComeBack (parseDigits ys) (parseDigits ms) (parseDigits ds) = true)
  /\ Person.validateBirthDate today (VStr (js "31/02/2023")) = false
  /\ Person.validateBirthDate today (VStr (js "29/02/1990")) = false
  /\ (Person.Date_local 1996 1 29 <= today -> Person.getFullYear today <= 2116 ->
      Person.validateBirthDate today (VStr (js "29/02/1996")) = true).
Proof.
  split; [|split; [|split]].
  - intros date Hv. destruct (validateBirthDate_string _ _ Hv) as (s & bd & -> & Hp).
    destruct (parseBrazilianDate_year _ _ Hp) as (ds & ms & ys & Em & Ec & _).
    destruct (isCalendarDate_ranges _ _ _ _ Em Ec) as (Hd & Hm & Hy).
    pose proof (daysInMonth_le (parseDigits ys) (parseDigits ms)) as H31.
    exists s, ds, ms, ys. repeat split; try assumption; try lia.
    rewrite partsComeBack_spec by lia. apply Z.leb_le. lia.
  - unfold Person.validateBirthDate. rewrite parseBrazilianDate_spec. reflexivity.
  - unfold Person.validateBirthDate. rewrite parseBrazilianDate_spec. reflexivity.
  - intros Hpast Hyear.
    assert (Hp : Person.parseBrazilianDate (VStr (js "29/02/1996"))
                 = Some (Person.Date_local 1996 1 29)).
    { rewrite parseBrazilianDate_spec. reflexivity. }
    rewrite (validateBirthDate_parsed _ _ _ Hp).
    destruct (Date_local_year 1996 2 29) as [Hy _];
      [lia|lia|change (DateTime.daysInMonth 1996 2) with 29; lia|].
    change (2 - 1) with 1 in Hy. rewrite Hy.
    rewrite (proj2 (Z.ltb_ge today _)), (proj2 (Z.ltb_ge 120 _)) by lia. reflexivity.
Qed.

(** C3 (as amended): for a string that parses as a date, validateBirthDate
    is true exactly when the date is not after now and the calendar year
    of now less the year of birth is at most 120; so a date after now is
    refused, an age above 120 whole years is refused, a birth on the
    local day of now is accepted, and so is a past date whose year is
    120 before the current one. *)
Theorem C3_validateBirthDate_age (today : Z) (s : jsstring) (birthDate : Z) :
  Person.parseBrazilianDate (VStr s) = Some birthDate ->
  (Person.validateBirthDate today (VStr s) = true <->
     birthDate <= today
     /\ Person.getFullYear today - Person.getFullYear birthDate <= 120)
  /\ (today < birthDate -> Person.validateBirthDate today (VStr s) = false)
  /\ (120 < Spec.ageInWholeYears today birthDate ->
      Person.validateBirthDate today (VStr s) = false)
  /\ (DateTime.Day (birthDate + LocalTZA) = DateTime.Day (today + LocalTZA) ->
      Person.validateBirthDate today (VStr s) = true)
  /\ (birthDate <= today ->
      Person.getFullYear today - Person.getFullYear birthDate = 120 ->
      Person.validateBirthDate today (VStr s) = true).
Proof.
  intros Hp. rewrite (validateBirthDate_parsed _ _ _ Hp).
  assert (Hiff : negb (today <? birthDate)
                 && negb (120 <? Person.getFullYear today - Person.getFullYear birthDate) = true
                 <-> birthDate <= today
                     /\ Person.getFullYear today - Person.getFullYear birthDate <= 120).
  { rewrite andb_true_iff, !negb_true_iff, !Z.ltb_ge. reflexivity. }
  split; [exact Hiff|]. split; [|split; [|split]].
  - intros Hlt. rewrite (proj2 (Z.ltb_lt today birthDate)) by lia. reflexivity.
  - intros Hage. apply not_true_is_false. rewrite Hiff. intros [_ Hy].
    unfold Spec.ageInWholeYears in Hage.
    destruct (_ || _) in Hage; lia.
  - intros Hday. apply Hiff.
    destruct (parseBrazilianDate_year _ _ Hp) as (_ & _ & _ & _ & _ & _ & _ & Hmid).
    split.
    + rewrite Hday in Hmid.
      pose proof (Z.mul_div_le (today + LocalTZA) DateTime.msPerDay ltac:(unfold DateTime.msPerDay; lia)) as Hle.
      unfold DateTime.Day in Hmid. lia.
    + unfold Person.getFullYear, DateTime.YearFromTime. rewrite Hday. lia.
  - intros Hpast Hyear. apply Hiff. lia.
Qed.

End BirthDate.

(** C4 (as stated) fails: a text with stray letters, which is not a date
    in day/month/year form, is accepted once the letters are dropped. *)
Lemma C4_counterexample :
  @Person.validateBirthDate Sample.running Sample.t0 (VStr (js "1a5/06/1990")) = true
  /\ Spec.isCalendarDate (js "1a5/06/1990") = false.
Proof. split; vm_compute; reflexivity. Qed.

Lemma C4_witness :
  exists s ds ms ys, VStr (js "15/06/1990") = VStr s
    /\ Person.matchDate (Person.cleanDate s) = Some (ds, ms, ys)
    /\ 1 <= parseDigits ds <= 31
    /\ 1 <= parseDigits ms <= 12
    /\ 1900 <= parseDigits ys <= 2100
    /\ parseDigits ds <= DateTime.daysInMonth (parseDigits ys) (parseDigits ms)
    /\ DateTime.partsComeBack (parseDigits ys) (parseDigits ms) (parseDigits ds) = true.
Proof.
  apply (proj1 (@C4_validateBirthDate_calendar Sample.running Sample.t0)).
  vm_compute. reflexivity.
Defined.

(** C3 (as stated) fails: on 2 November 2026 someone born on 31 December
    1905 is 120 whole years old, and the date is refused. *)
Lemma C3_counterexample :
  exists birthDate,
    @Person.parseBrazilianDate Sample.running (VStr (js "31/12/1905")) = Some birthDate
    /\ birthDate <= Sample.t0
    /\ @Spec.ageInWholeYears Sample.running Sample.t0 birthDate = 120
    /\ @Person.validateBirthDate Sample.running Sample.t0 (VStr (js "31/12/1905")) = false.
Proof.
  exists (-2019772800000). repeat split; vm_compute; try reflexivity. discriminate.
Qed.

Lemma C3_witness :
  @Person.validateBirthDate Sample.running Sample.t0 (VStr (js "10/05/1995")) = true <->
  @Person.Date_local Sample.running 1995 4 10 <= Sample.t0
  /\ @Person.getFullYear Sample.running Sample.t0
     - @Person.getFullYear Sample.running (@Person.Date_local Sample.running 1995 4 10) <= 120.
Proof.
  apply (@C3_validateBirthDate_age Sample.running Sample.t0 (js "10/05/1995")).
  vm_compute. reflexivity.
Defined.


(** C8: validatePhone keeps the digits of its input and accepts exactly
    the strings with 10 or 11 digits whose first two digits, read as a
    number, lie between 11 and 99; whatever is not a string is refused. *)
Theorem C8_validatePhone :
  (forall phone : jsval,
     Person.validatePhone phone = true <->
     exists s, phone = VStr s
       /\ (length (List.filter isDigit s) = 10%nat \/ length (List.filter isDigit s) = 11%nat)
       /\ 11 <= parseDigits (take 2 (List.filter isDigit s)) <= 99)
  /\ Person.validatePhone (VStr (js "(11) 99999-9999")) = true
  /\ Person.validatePhone (VStr (js "11999999999")) = true
  /\ Person.validatePhone (VStr (js "123456789")) = false
  /\ Person.validatePhone (VStr (js "(01) 99999-9999")) = false.
Proof.
  split; [|repeat split; reflexivity].
  intros phone. split.
  - destruct phone as [| | | |s| | |]; try discriminate.
    intros Hv. exists s. split; [reflexivity|].
    unfold Person.validatePhone, Person.cleanPhone in Hv.
    destruct (truthy (VStr s)); [|discriminate]. cbn [negb] in Hv.
    destruct (Nat.eqb_spec (length (List.filter isDigit s)) 10) as [E10|N10];
      destruct (Nat.eqb_spec (length (List.filter isDigit s)) 11) as [E11|N11];
      cbn [negb andb] in Hv; try discriminate;
      (destruct (Z.ltb_spec (parseDigits (take 2 (List.filter isDigit s))) 11);
       [discriminate|];
       destruct (Z.ltb_spec 99 (parseDigits (take 2 (List.filter isDigit s))));
       [discriminate|]; split; [auto|lia]).
  - intros (s & -> & Hlen & Harea).
    unfold Person.validatePhone, Person.cleanPhone.
    destruct s as [|c s]; [cbn in Hlen; lia|]. cbn [truthy negb].
    set (d := List.filter isDigit (c :: s)) in *.
    destruct (Nat.eqb_spec (length d) 10) as [E10|N10];
      destruct (Nat.eqb_spec (length d) 11) as [E11|N11];
      cbn [negb andb]; try lia;
      (destruct (Z.ltb_spec (parseDigits (take 2 d)) 11); [lia|];
       destruct (Z.ltb_spec 99 (parseDigits (take 2 d))); [lia|]; reflexivity).
Qed.


(** *** Computations *)

Import Frame.

Lemma bind_Ok {A B} (m : M A) (k : A -> M B) w b w' :
  bind m k w = (Ok b, w') ->
  exists a w1, m w = (Ok a, w1) /\ k a w1 = (Ok b, w').
Proof.
  unfold bind. destruct (m w) as [[a|e] w1]; [eauto|discriminate].
Qed.

Lemma bind_Throw {A B} (m : M A) (k : A -> M B) w e w' :
  bind m k w = (Throw e, w') ->
  m w = (Throw e, w') \/ exists a w1, m w = (Ok a, w1) /\ k a w1 = (Throw e, w').
Proof.
  unfold bind. destruct (m w) as [[a|e1] w1]; [eauto|].
  intros [= -> ->]. now left.
Qed.

Lemma heapSame_refl w : heapSame w w.
Proof. repeat split. Qed.

Lemma heapSame_trans w1 w2 w3 : heapSame w1 w2 -> heapSame w2 w3 -> heapSame w1 w3.
Proof. intros (A1 & A2 & A3) (B1 & B2 & B3). repeat split; congruence. Qed.

Lemma quiet_ret {A} (a : A) : quiet (ret a).
Proof. intros w r w' [= <- <-]. apply heapSame_refl. Qed.

Lemma quiet_throw {A} e : quiet (@throw A e).
Proof. intros w r w' [= <- <-]. apply heapSame_refl. Qed.

Lemma quiet_lift {A} (x : result A) : quiet (lift x).
Proof. intros w r w' [= <- <-]. apply heapSame_refl. Qed.

Lemma quiet_bind {A B} (m : M A) (k : A -> M B) :
  quiet m -> (forall a, quiet (k a)) -> quiet (bind m k).
Proof.
  intros Hm Hk w r w'. unfold bind.
  destruct (m w) as [[a|e] w1] eqn:Em.
  - intros Hr. eapply heapSame_trans; [eapply Hm, Em | eapply Hk, Hr].
  - intros [= <- <-]. eapply Hm, Em.
Qed.

Lemma quiet_try_catch {A} (m : M A) (h : exn -> M A) :
  quiet m -> (forall e, quiet (h e)) -> quiet (try_catch m h).
Proof.
  intros Hm Hh w r w'. unfold try_catch.
  destruct (m w) as [[a|e] w1] eqn:Em.
  - intros [= <- <-]. eapply Hm, Em.
  - intros Hr. eapply heapSame_trans; [eapply Hm, Em | eapply Hh, Hr].
Qed.

Lemma quiet_getItem k : quiet (getItem k).
Proof. intros w r w' [= <- <-]. apply heapSame_refl. Qed.

Lemma quiet_setItem k v : quiet (setItem k v).
Proof.
  intros w r w'. unfold setItem.
  destruct (_ <=? _)%nat; intros [= <- <-]; repeat split.
Qed.

Lemma quiet_mapE {A B} (f : A -> M B) l : (forall x, quiet (f x)) -> quiet (mapE f l).
Proof.
  intros Hf. induction l as [|x l IH]; cbn [mapE]; [apply quiet_ret|].
  apply quiet_bind; [apply Hf|]. intros y.
  apply quiet_bind; [apply IH|]. intros ys. apply quiet_ret.
Qed.

Lemma quiet_filterE {A} (f : A -> M bool) l : (forall x, quiet (f x)) -> quiet (filterE f l).
Proof.
  intros Hf. induction l as [|x l IH]; cbn [filterE]; [apply quiet_ret|].
  apply quiet_bind; [apply Hf|]. intros y.
  apply quiet_bind; [apply IH|]. intros ys. apply quiet_ret.
Qed.

Lemma quiet_someE {A} (f : A -> nat -> M bool) l :
  (forall x i, quiet (f x i)) -> forall i, quiet (someE f i l).
Proof.
  intros Hf. induction l as [|x l IH]; intros i; cbn [someE]; [apply quiet_ret|].
  apply quiet_bind; [apply Hf|]. intros [|]; [apply quiet_ret|apply IH].
Qed.

Section Quiet.
Context `{Platform}.

Lemma quiet_now : quiet Person.now.
Proof. intros w r w' [= <- <-]. repeat split. Qed.

Lemma quiet_randomSuffix : quiet Person.randomSuffix.
Proof. intros w r w' [= <- <-]. repeat split. Qed.

Lemma quiet_deref r : quiet (Person.deref r).
Proof.
  intros w x w'. unfold Person.deref.
  destruct (objs w !! r); intros [= <- <-]; apply heapSame_refl.
Qed.

Lemma quiet_validate p : quiet (Person.validate p).
Proof.
  unfold Person.validate. apply quiet_bind; [|intros; apply quiet_ret].
  unfold Person.validateBirthDateNow.
  destruct (negb _); [apply quiet_ret|].
  destruct (Person.parseBrazilianDate _); [|apply quiet_ret].
  apply quiet_bind; [apply quiet_now|intros; apply quiet_ret].
Qed.

Lemma quiet_getBackups : quiet DataBackup.getBackups.
Proof.
  unfold DataBackup.getBackups. apply quiet_bind; [apply quiet_getItem|].
  intros [[|c s]|]; try apply quiet_ret.
  destruct (JSON.parse _); apply quiet_ret.
Qed.

Lemma quiet_generateBackupId : quiet DataBackup.generateBackupId.
Proof.
  unfold DataBackup.generateBackupId.
  apply quiet_bind; [apply quiet_now|]. intros t.
  apply quiet_bind; [apply quiet_randomSuffix|]. intros; apply quiet_ret.
Qed.

Lemma quiet_createBackup data : quiet (DataBackup.createBackup data).
Proof.
  unfold DataBackup.createBackup. apply quiet_try_catch; [|intros; apply quiet_throw].
  apply quiet_bind; [apply quiet_generateBackupId|]. intros bid.
  apply quiet_bind; [apply quiet_now|]. intros t.
  apply quiet_bind; [apply quiet_lift|]. intros clone.
  apply quiet_bind; [apply quiet_lift|]. intros checksum.
  apply quiet_bind; [apply quiet_getBackups|]. intros existing.
  destruct existing; try apply quiet_throw.
  destruct (JSON.stringify _); [|apply quiet_ret].
  apply quiet_bind; [apply quiet_setItem|]. intros; apply quiet_ret.
Qed.

Lemma quiet_autoBackup data : quiet (DataBackup.autoBackup data).
Proof.
  unfold DataBackup.autoBackup. apply quiet_try_catch; [|intros; apply quiet_ret].
  apply quiet_bind; [apply quiet_getBackups|]. intros backups.
  apply quiet_bind; [apply quiet_lift|]. intros lastBackup.
  apply quiet_bind.
  - destruct (negb _); [apply quiet_ret|].
    apply quiet_bind; [apply quiet_lift|]. intros; apply quiet_lift.
  - intros [|]; [|apply quiet_ret].
    apply quiet_bind; [apply quiet_createBackup|]. intros; apply quiet_ret.
Qed.

Lemma quiet_restoreBackup backupId : quiet (DataBackup.restoreBackup backupId).
Proof.
  unfold DataBackup.restoreBackup. apply quiet_try_catch.
  - apply quiet_bind; [apply quiet_getBackups|]. intros backups.
    destruct backups; try apply quiet_throw.
    apply quiet_bind; [apply quiet_lift|]. intros found.
    destruct (negb _); [apply quiet_throw|].
    apply quiet_bind; [apply quiet_lift|]. intros d.
    apply quiet_bind; [apply quiet_lift|]. intros c.
    apply quiet_bind; [apply quiet_lift|]. intros stored.
    destruct (negb _); [apply quiet_throw|apply quiet_ret].
  - intros e. destruct (isAppError e); apply quiet_throw.
Qed.

Lemma quiet_thisPersons : quiet DataManager.thisPersons.
Proof.
  intros w r w'. unfold DataManager.thisPersons.
  destruct (arrs w !! persons w); intros [= <- <-]; apply heapSame_refl.
Qed.

Lemma quiet_personsToJSON : quiet DataManager.personsToJSON.
Proof.
  unfold DataManager.personsToJSON.
  apply quiet_bind; [apply quiet_thisPersons|]. intros l.
  apply quiet_bind; [apply quiet_mapE; intros; apply quiet_deref|].
  intros; apply quiet_ret.
Qed.

Lemma quiet_savePersons : quiet DataManager.savePersons.
Proof.
  unfold DataManager.savePersons. apply quiet_try_catch.
  - apply quiet_bind; [apply quiet_personsToJSON|]. intros d1.
    apply quiet_bind; [apply quiet_autoBackup|]. intros _.
    apply quiet_bind; [apply quiet_personsToJSON|]. intros d2.
    destruct (JSON.stringify d2); apply quiet_setItem.
  - intros e. destruct (str_eqb _ _); apply quiet_throw.
Qed.

(** [savePersons] fails only with one of its two errors *)
Lemma savePersons_Throw w e w' :
  DataManager.savePersons w = (Throw e, w') -> persistFailure e.
Proof.
  unfold DataManager.savePersons, try_catch.
  destruct (bind _ _ w) as [[[]|e0] w1]; [discriminate|].
  destruct (str_eqb _ _); intros [= <- <-]; [left|right]; reflexivity.
Qed.

Lemma quiet_instanceofPerson r : quiet (DataManager.instanceofPerson r).
Proof. intros w x w' [= <- <-]. apply heapSame_refl. Qed.

Lemma quiet_isDuplicate person excludeIndex :
  quiet (DataManager.isDuplicate person excludeIndex).
Proof.
  unfold DataManager.isDuplicate.
  apply quiet_bind; [apply quiet_thisPersons|]. intros l.
  apply quiet_someE. intros x i. destruct (_ =? _); [apply quiet_ret|].
  apply quiet_bind; [apply quiet_deref|]. intros e.
  apply quiet_bind; [apply quiet_deref|]. intros p. apply quiet_ret.
Qed.

End Quiet.

(** *** Failures of the mutating operations *)

Section Failures.
Context `{Platform}.

Lemma deref_Throw r w e w' :
  Person.deref r w = (Throw e, w') -> type e = None /\ w' = w.
Proof.
  unfold Person.deref. destruct (objs w !! r); [discriminate|].
  intros [= <- <-]. split; reflexivity.
Qed.

Lemma deref_Ok r w p w' :
  Person.deref r w = (Ok p, w') -> objs w !! r = Some p /\ w' = w.
Proof.
  unfold Person.deref. destruct (objs w !! r); [|discriminate].
  intros [= <- <-]. split; reflexivity.
Qed.

Lemma thisPersons_Throw w e w' :
  DataManager.thisPersons w = (Throw e, w') -> type e = None /\ w' = w.
Proof.
  unfold DataManager.thisPersons. destruct (arrs w !! persons w); [discriminate|].
  intros [= <- <-]. split; reflexivity.
Qed.

Lemma thisPersons_Ok w l w' :
  DataManager.thisPersons w = (Ok l, w') -> arrs w !! persons w = Some l /\ w' = w.
Proof.
  unfold DataManager.thisPersons. destruct (arrs w !! persons w); [|discriminate].
  intros [= <- <-]. split; reflexivity.
Qed.

Lemma validate_Ok p w : exists v w', Person.validate p w = (Ok v, w').
Proof.
  unfold Person.validate, bind, Person.validateBirthDateNow.
  destruct (negb _); [cbn; eauto|].
  destruct (Person.parseBrazilianDate _); cbn; eauto.
Qed.

Lemma validate_Throw p w e w' : Person.validate p w = (Throw e, w') -> False.
Proof.
  destruct (validate_Ok p w) as (v & w1 & E). rewrite E. discriminate.
Qed.

Lemma isDuplicate_Throw person ex w e w' :
  DataManager.isDuplicate person ex w = (Throw e, w') -> type e = None.
Proof.
  unfold DataManager.isDuplicate. intros Hb.
  apply bind_Throw in Hb as [Hb|(l & w1 & _ & Hb)]; [now apply thisPersons_Throw in Hb|].
  revert w1 Hb. generalize 0%nat.
  induction l as [|x l IH]; intros i w1 Hb; cbn [someE] in Hb; [discriminate|].
  apply bind_Throw in Hb as [Hb|(b & w2 & _ & Hb)].
  - destruct (_ =? _); [discriminate|].
    apply bind_Throw in Hb as [Hb|(ex' & w2 & _ & Hb)]; [now apply deref_Throw in Hb|].
    apply bind_Throw in Hb as [Hb|(p & w3 & _ & Hb)]; [now apply deref_Throw in Hb|].
    discriminate.
  - destruct b; [discriminate|]. eapply IH, Hb.
Qed.

(** the common [catch] on an error that is not an AppError *)
Lemma rethrow_plain {A} prefix e w :
  type e = None ->
  @DataManager.rethrow A prefix e w = (Throw (AppError (prefix ++ message e) STORAGE_ERROR), w).
Proof.
  intros Ht. unfold DataManager.rethrow, isAppError. rewrite Ht. reflexivity.
Qed.

Lemma rethrow_app {A} prefix msg ty w :
  @DataManager.rethrow A prefix (AppError msg ty) w = (Throw (AppError msg ty), w).
Proof. reflexivity. Qed.

Lemma persistFailure_isAppError e : persistFailure e -> isAppError e = true.
Proof. intros [-> | ->]; reflexivity. Qed.

Lemma rethrow_persist {A} prefix e w :
  persistFailure e -> @DataManager.rethrow A prefix e w = (Throw e, w).
Proof.
  intros Hp. unfold DataManager.rethrow. now rewrite (persistFailure_isAppError e Hp).
Qed.

End Failures.

(** an error other than the two of [savePersons] *)
Ltac not_persist :=
  let E := fresh in
  intros [E|E]; inversion E.

Section Atomicity.
Context `{Platform}.

Lemma writePersons_Ok l w u w' :
  DataManager.writePersons l w = (Ok u, w') ->
  w' = set_arrs (fun h => <[persons w := l]> h) w.
Proof. now intros [= <- <-]. Qed.

Lemma addPerson_Throw person w e w' :
  DataManager.addPerson person w = (Throw e, w') ->
  (heapSame w w' /\ ~ persistFailure e)
  \/ (persistFailure e /\ objs w' = objs w /\ persons w' = persons w
      /\ exists l, arrs w !! persons w = Some l
           /\ arrs w' = <[persons w := l ++ [person]]> (arrs w)).
Proof.
  unfold DataManager.addPerson, try_catch.
  match goal with |- context [bind ?m ?k w] => destruct (bind m k w) as [[b|e0] w1] eqn:Eb end;
    [discriminate|].
  apply bind_Throw in Eb as [Eb|(isP & w2 & H1 & Eb)]; [discriminate|].
  injection H1 as <- <-.
  destruct (negb _).
  { injection Eb as <- <-. rewrite rethrow_app. intros [= <- <-].
    left. split; [apply heapSame_refl|not_persist]. }
  apply bind_Throw in Eb as [Eb|(p & w2 & H2 & Eb)].
  { apply deref_Throw in Eb as [Ht ->]. rewrite rethrow_plain by assumption.
    intros [= <- <-]. left. split; [apply heapSame_refl|not_persist]. }
  apply deref_Ok in H2 as [Hp ->].
  apply bind_Throw in Eb as [Eb|(v & w2 & H3 & Eb)]; [now apply validate_Throw in Eb|].
  pose proof (quiet_validate _ _ _ _ H3) as Q3.
  destruct (negb (Person.isValid v)).
  { injection Eb as <- <-. unfold DataManager.validationFailed. rewrite rethrow_app. intros [= <- <-].
    left. split; [assumption|not_persist]. }
  apply bind_Throw in Eb as [Eb|(dup & w3 & H4 & Eb)].
  { pose proof (quiet_isDuplicate _ _ _ _ _ Eb) as Q4.
    apply isDuplicate_Throw in Eb. rewrite rethrow_plain by assumption.
    intros [= <- <-]. left. split; [eapply heapSame_trans; eassumption|not_persist]. }
  pose proof (quiet_isDuplicate _ _ _ _ _ H4) as Q4.
  destruct dup.
  { injection Eb as <- <-. unfold DataManager.duplicateError. rewrite rethrow_app. intros [= <- <-].
    left. split; [eapply heapSame_trans; eassumption|not_persist]. }
  apply bind_Throw in Eb as [Eb|(l & w4 & H5 & Eb)].
  { apply thisPersons_Throw in Eb as [Ht ->]. rewrite rethrow_plain by assumption.
    intros [= <- <-]. left. split; [eapply heapSame_trans; eassumption|not_persist]. }
  apply thisPersons_Ok in H5 as [Hl ->].
  apply bind_Throw in Eb as [Eb|(u & w5 & H6 & Eb)]; [discriminate|].
  apply writePersons_Ok in H6 as ->.
  apply bind_Throw in Eb as [Eb|(u' & w6 & H7 & Eb)]; [|discriminate].
  pose proof (quiet_savePersons _ _ _ Eb) as (S1 & S2 & S3).
  apply savePersons_Throw in Eb as Hpf. rewrite rethrow_persist by assumption.
  intros [= <- <-]. right. split; [assumption|].
  assert (Q : heapSame w w3) by (eapply heapSame_trans; eassumption).
  destruct Q as (Q1 & Q2 & Q3'). cbn in S1, S2, S3.
  repeat split; try congruence.
  exists l. split; congruence.
Qed.

End Atomicity.

Section Update.
Context `{Platform}.

Lemma now_Ok w t w' :
  Person.now w = (Ok t, w') -> t = clock (ticks w) /\ w' = tick w.
Proof. now intros [= <- <-]. Qed.

Lemma ticks_validate p w r w' :
  Person.validate p w = (r, w') -> (ticks w <= ticks w')%nat.
Proof.
  unfold Person.validate, bind, Person.validateBirthDateNow.
  destruct (negb _); [intros [= <- <-]; lia|].
  destruct (Person.parseBrazilianDate _); cbn; intros [= <- <-]; cbn; lia.
Qed.

Lemma ticks_isDuplicate person ex w r w' :
  DataManager.isDuplicate person ex w = (r, w') -> ticks w' = ticks w.
Proof.
  unfold DataManager.isDuplicate, bind, DataManager.thisPersons.
  destruct (arrs w !! persons w) as [l|]; [|now intros [= <- <-]].
  generalize 0%nat.
  induction l as [|x l IH]; intros i; cbn [someE]; [now intros [= <- <-]|].
  unfold bind. destruct (_ =? _).
  - cbn. apply IH.
  - unfold Person.deref. destruct (objs w !! x); [|now intros [= <- <-]].
    destruct (objs w !! person); [|now intros [= <- <-]].
    cbn. destruct (_ || _); [now intros [= <- <-]|apply IH].
Qed.

(** every way [updatePerson] can end: before the change with the state
    untouched, or after it, saved or not *)
Lemma updatePerson_cases index updated w r w' :
  DataManager.updatePerson index updated w = (r, w') ->
  (exists e, r = Throw e /\ heapSame w w' /\ ~ persistFailure e)
  \/ (exists l orig original p v w2 w3 k wc,
        arrs w !! persons w = Some l
        /\ 0 <= index < Z.of_nat (length l)
        /\ l !! Z.to_nat index = Some orig
        /\ objs w !! orig = Some original
        /\ objs w !! updated = Some p
        /\ Person.validate p w = (Ok v, w2) /\ Person.isValid v = true
        /\ DataManager.isDuplicate updated index w2 = (Ok false, w3)
        /\ (ticks w <= k)%nat
        /\ committed w l (Z.to_nat index) updated (stamped original p (clock k)) wc
        /\ heapSame wc w'
        /\ (r = Ok true \/ exists e, r = Throw e /\ persistFailure e)).
Proof.
  unfold DataManager.updatePerson, try_catch.
  match goal with |- context [bind ?m ?k w] => destruct (bind m k w) as [[b|e0] w1] eqn:Eb end.
  - (* the operation returned *)
    intros [= <- <-]. right.
    apply bind_Ok in Eb as (l & w0 & H0 & Eb). apply thisPersons_Ok in H0 as [Hl ->].
    destruct (Z.ltb_spec index 0) as [|Hi0]; [discriminate|].
    destruct (Z.leb_spec (Z.of_nat (length l)) index) as [|Hi1]; [discriminate|].
    cbn [orb] in Eb.
    apply bind_Ok in Eb as (isP & w0 & H1 & Eb). injection H1 as <- <-.
    destruct (negb _); [discriminate|].
    apply bind_Ok in Eb as (p & w0 & H2 & Eb). apply deref_Ok in H2 as [Hp ->].
    apply bind_Ok in Eb as (v & w2 & H3 & Eb).
    pose proof (quiet_validate _ _ _ _ H3) as Q3. pose proof (ticks_validate _ _ _ _ H3) as T3.
    destruct (Person.isValid v) eqn:Hv; [|discriminate]. cbn [negb] in Eb.
    apply bind_Ok in Eb as (dup & w3 & H4 & Eb).
    pose proof (quiet_isDuplicate _ _ _ _ _ H4) as Q4.
    pose proof (ticks_isDuplicate _ _ _ _ _ H4) as T4.
    destruct dup; [discriminate|].
    assert (Q : heapSame w w3) by (eapply heapSame_trans; eassumption).
    destruct Q as (Qo & Qa & Qp).
    apply bind_Ok in Eb as (l2 & w0 & H5 & Eb). apply thisPersons_Ok in H5 as [Hl2 ->].
    rewrite Qa, Qp, Hl in Hl2. injection Hl2 as <-.
    destruct (lookup_lt_is_Some_2 l (Z.to_nat index) ltac:(lia)) as [orig Horig].
    cbv beta in Eb. rewrite Horig in Eb.
    apply bind_Ok in Eb as (original & w0 & H6 & Eb). apply deref_Ok in H6 as [Ho ->].
    apply bind_Ok in Eb as (p2 & w0 & H7 & Eb). apply deref_Ok in H7 as [Hp2 ->].
    rewrite Qo in Ho, Hp2. rewrite Hp in Hp2. injection Hp2 as <-.
    apply bind_Ok in Eb as (t & w4 & H8 & Eb). apply now_Ok in H8 as [-> ->].
    apply bind_Ok in Eb as (u & w5 & H9 & Eb). injection H9 as <- <-.
    apply bind_Ok in Eb as (u' & w6 & H10 & Eb). apply writePersons_Ok in H10 as ->.
    apply bind_Ok in Eb as (u'' & w7 & H11 & Eb). injection Eb as <- <-.
    pose proof (quiet_savePersons _ _ _ H11) as Qs.
    exists l, orig, original, p, v, w2, w3, (ticks w3). eexists.
    split; [exact Hl|]. split; [lia|]. split; [exact Horig|]. split; [exact Ho|].
    split; [exact Hp|]. split; [exact H3|]. split; [exact Hv|]. split; [exact H4|].
    split; [lia|]. split; [|split; [exact Qs|left; reflexivity]].
    unfold committed, set_arrs, set_objs, tick. cbn [objs arrs persons ticks].
    rewrite Qo, Qa, Qp. repeat split.
  - (* the operation threw *)
    intros Hr.
    apply bind_Throw in Eb as [Eb|(l & w0 & H0 & Eb)].
    { apply thisPersons_Throw in Eb as [Ht ->]. rewrite rethrow_plain in Hr by assumption.
      injection Hr as <- <-. left. eexists. split; [reflexivity|].
      split; [apply heapSame_refl|not_persist]. }
    apply thisPersons_Ok in H0 as [Hl ->].
    destruct (Z.ltb_spec index 0) as [|Hi0].
    { injection Eb as <- <-. rewrite rethrow_app in Hr. injection Hr as <- <-.
      left. eexists. split; [reflexivity|]. split; [apply heapSame_refl|not_persist]. }
    destruct (Z.leb_spec (Z.of_nat (length l)) index) as [|Hi1].
    { injection Eb as <- <-. rewrite rethrow_app in Hr. injection Hr as <- <-.
      left. eexists. split; [reflexivity|]. split; [apply heapSame_refl|not_persist]. }
    cbn [orb] in Eb.
    apply bind_Throw in Eb as [Eb|(isP & w0 & H1 & Eb)]; [discriminate|].
    injection H1 as <- <-.
    destruct (negb _).
    { injection Eb as <- <-. rewrite rethrow_app in Hr. injection Hr as <- <-.
      left. eexists. split; [reflexivity|]. split; [apply heapSame_refl|not_persist]. }
    apply bind_Throw in Eb as [Eb|(p & w0 & H2 & Eb)].
    { apply deref_Throw in Eb as [Ht ->]. rewrite rethrow_plain in Hr by assumption.
      injection Hr as <- <-. left. eexists. split; [reflexivity|].
      split; [apply heapSame_refl|not_persist]. }
    apply deref_Ok in H2 as [Hp ->].
    apply bind_Throw in Eb as [Eb|(v & w2 & H3 & Eb)]; [now apply validate_Throw in Eb|].
    pose proof (quiet_validate _ _ _ _ H3) as Q3. pose proof (ticks_validate _ _ _ _ H3) as T3.
    destruct (Person.isValid v) eqn:Hv; cbn [negb] in Eb.
    2:{ injection Eb as <- <-. unfold DataManager.validationFailed in Hr.
        rewrite rethrow_app in Hr. injection Hr as <- <-.
        left. eexists. split; [reflexivity|]. split; [assumption|not_persist]. }
    apply bind_Throw in Eb as [Eb|(dup & w3 & H4 & Eb)].
    { pose proof (quiet_isDuplicate _ _ _ _ _ Eb) as Q4.
      apply isDuplicate_Throw in Eb. rewrite rethrow_plain in Hr by assumption.
      injection Hr as <- <-. left. eexists. split; [reflexivity|].
      split; [eapply heapSame_trans; eassumption|not_persist]. }
    pose proof (quiet_isDuplicate _ _ _ _ _ H4) as Q4.
    pose proof (ticks_isDuplicate _ _ _ _ _ H4) as T4.
    assert (Q : heapSame w w3) by (eapply heapSame_trans; eassumption).
    destruct dup.
    { injection Eb as <- <-. unfold DataManager.duplicateError in Hr.
      rewrite rethrow_app in Hr. injection Hr as <- <-.
      left. eexists. split; [reflexivity|]. split; [assumption|not_persist]. }
    apply bind_Throw in Eb as [Eb|(l2 & w0 & H5 & Eb)].
    { apply thisPersons_Throw in Eb as [Ht ->]. rewrite rethrow_plain in Hr by assumption.
      injection Hr as <- <-. left. eexists. split; [reflexivity|].
      split; [assumption|not_persist]. }
    apply thisPersons_Ok in H5 as [Hl2 ->].
    destruct Q as (Qo & Qa & Qp).
    rewrite Qa, Qp, Hl in Hl2. injection Hl2 as <-.
    destruct (lookup_lt_is_Some_2 l (Z.to_nat index) ltac:(lia)) as [orig Horig].
    cbv beta in Eb. rewrite Horig in Eb.
    apply bind_Throw in Eb as [Eb|(original & w0 & H6 & Eb)].
    { apply deref_Throw in Eb as [Ht ->]. rewrite rethrow_plain in Hr by assumption.
      injection Hr as <- <-. left. eexists. split; [reflexivity|].
      split; [repeat split; assumption|not_persist]. }
    apply deref_Ok in H6 as [Ho ->].
    apply bind_Throw in Eb as [Eb|(p2 & w0 & H7 & Eb)].
    { apply deref_Throw in Eb as [Ht ->]. rewrite rethrow_plain in Hr by assumption.
      injection Hr as <- <-. left. eexists. split; [reflexivity|].
      split; [repeat split; assumption|not_persist]. }
    apply deref_Ok in H7 as [Hp2 ->].
    rewrite Qo in Ho, Hp2. rewrite Hp in Hp2. injection Hp2 as <-.
    apply bind_Throw in Eb as [Eb|(t & w4 & H8 & Eb)]; [discriminate|].
    apply now_Ok in H8 as [-> ->].
    apply bind_Throw in Eb as [Eb|(u & w5 & H9 & Eb)]; [discriminate|].
    injection H9 as <- <-.
    apply bind_Throw in Eb as [Eb|(u' & w6 & H10 & Eb)]; [discriminate|].
    apply writePersons_Ok in H10 as ->.
    apply bind_Throw in Eb as [Eb|(u'' & w7 & H11 & Eb)]; [|discriminate].
    pose proof (quiet_savePersons _ _ _ Eb) as Qs.
    apply savePersons_Throw in Eb as Hpf. rewrite rethrow_persist in Hr by assumption.
    injection Hr as <- <-. right.
    exists l, orig, original, p, v, w2, w3, (ticks w3). eexists.
    split; [exact Hl|]. split; [lia|]. split; [exact Horig|]. split; [exact Ho|].
    split; [exact Hp|]. split; [exact H3|]. split; [exact Hv|]. split; [exact H4|].
    split; [lia|]. split; [|split; [exact Qs|right; eauto]].
    unfold committed, set_arrs, set_objs, tick. cbn [objs arrs persons ticks].
    rewrite Qo, Qa, Qp. repeat split.
Qed.

End Update.

Section Delete.
Context `{Platform}.

Lemma deletePerson_Throw index w e w' :
  DataManager.deletePerson index w = (Throw e, w') ->
  (heapSame w w' /\ ~ persistFailure e)
  \/ (persistFailure e /\ objs w' = objs w /\ persons w' = persons w
      /\ exists l, arrs w !! persons w = Some l
           /\ arrs w' = <[persons w := delete (Z.to_nat index) l]> (arrs w)).
Proof.
  unfold DataManager.deletePerson, try_catch.
  match goal with |- context [bind ?m ?k w] => destruct (bind m k w) as [[b|e0] w1] eqn:Eb end;
    [discriminate|].
  intros Hr.
  apply bind_Throw in Eb as [Eb|(l & w0 & H0 & Eb)].
  { apply thisPersons_Throw in Eb as [Ht ->]. rewrite rethrow_plain in Hr by assumption.
    injection Hr as <- <-. left. split; [apply heapSame_refl|not_persist]. }
  apply thisPersons_Ok in H0 as [Hl ->].
  destruct ((index <? 0) || (Z.of_nat (length l) <=? index)).
  { injection Eb as <- <-. rewrite rethrow_app in Hr. injection Hr as <- <-.
    left. split; [apply heapSame_refl|not_persist]. }
  apply bind_Throw in Eb as [Eb|(u & w2 & H1 & Eb)]; [discriminate|].
  apply writePersons_Ok in H1 as ->.
  apply bind_Throw in Eb as [Eb|(u' & w3 & H2 & Eb)]; [|discriminate].
  pose proof (quiet_savePersons _ _ _ Eb) as (S1 & S2 & S3).
  apply savePersons_Throw in Eb as Hpf. rewrite rethrow_persist in Hr by assumption.
  injection Hr as <- <-. right. split; [assumption|]. cbn in S1, S2, S3.
  repeat split; try assumption. exists l. split; assumption.
Qed.

(** C1 (as amended): when addPerson, updatePerson or deletePerson fails
    before the change (a validation error, a duplicate, a bad index, a
    value that is not a Person), the heap and the collection are as
    before; when it fails in savePersons, the change stays applied in
    memory: the pushed record, the replaced record with its new stamp,
    or the removal. *)
Theorem C1_failed_operation (w w' : World) (e : exn) :
  (forall person, DataManager.addPerson person w = (Throw e, w') ->
     (heapSame w w' /\ ~ persistFailure e)
     \/ (persistFailure e /\ objs w' = objs w /\ persons w' = persons w
         /\ exists l, arrs w !! persons w = Some l
              /\ arrs w' = <[persons w := l ++ [person]]> (arrs w)))
  /\ (forall index updated,
        DataManager.updatePerson index updated w = (Throw e, w') ->
        (heapSame w w' /\ ~ persistFailure e)
        \/ (persistFailure e /\ persons w' = persons w
            /\ exists l orig original p k,
                 arrs w !! persons w = Some l
                 /\ l !! Z.to_nat index = Some orig
                 /\ objs w !! orig = Some original
                 /\ objs w !! updated = Some p
                 /\ objs w' = <[updated := stamped original p (clock k)]> (objs w)
                 /\ arrs w' = <[persons w := <[Z.to_nat index := updated]> l]> (arrs w)))
  /\ (forall index, DataManager.deletePerson index w = (Throw e, w') ->
        (heapSame w w' /\ ~ persistFailure e)
        \/ (persistFailure e /\ objs w' = objs w /\ persons w' = persons w
            /\ exists l, arrs w !! persons w = Some l
                 /\ arrs w' = <[persons w := delete (Z.to_nat index) l]> (arrs w))).
Proof.
  split; [|split].
  - intros person. apply addPerson_Throw.
  - intros index updated Hu.
    apply updatePerson_cases in Hu
      as [(e' & [= <-] & Hs & Hn)
         |(l & orig & original & p & v & w2 & w3 & k & wc & Hl & Hi & Ho & Hoo & Hp & _ & _ & _
           & _ & (C1 & C2 & C3) & (S1 & S2 & S3) & [Hr|(e' & [= <-] & Hpf)])];
      [left; split; assumption|discriminate|].
    right. split; [assumption|]. split; [congruence|].
    exists l, orig, original, p, k. repeat split; try assumption; congruence.
  - intros index. apply deletePerson_Throw.
Qed.

End Delete.

(** C1 (as stated) fails: with no room left in the store addPerson
    throws the quota error, and the collection holds the new record. *)
Lemma C1_counterexample :
  let w1 := Sample.after (@Sample.ana Sample.running) (Sample.emptyWorld 10) in
  exists e w2 p,
    @DataManager.addPerson Sample.running 0%nat w1 = (Throw e, w2)
    /\ type e = Some STORAGE_QUOTA_ERROR
    /\ DataManager.collection w1 = Some []
    /\ DataManager.collection w2 = Some [p].
Proof.
  vm_compute. do 3 eexists. repeat split.
Qed.

Lemma C1_witness :
  let w1 := Sample.after (@Sample.ana Sample.running) (Sample.emptyWorld 10) in
  let r := @DataManager.addPerson Sample.running 0%nat w1 in
  exists e, fst r = Throw e /\ persistFailure e
    /\ arrs (snd r) = <[persons w1 := [0%nat]]> (arrs w1).
Proof.
  intros w1 r.
  destruct (@DataManager.addPerson Sample.running 0%nat w1) as [[b|e] w2] eqn:E;
    [vm_compute in E; discriminate E|].
  exists e. split; [reflexivity|].
  destruct (proj1 (@C1_failed_operation Sample.running w1 w2 e) 0%nat E)
    as [[_ Hn]|(Hpf & _ & _ & l & Hl & Ha)].
  - exfalso. apply Hn. vm_compute in E. injection E as <- _. left. reflexivity.
  - split; [assumption|]. vm_compute in Hl. injection Hl as <-. exact Ha.
Defined.

Section Identity.
Context `{Platform}.

Lemma validate_valid p w v w' :
  Person.validate p w = (Ok v, w') -> Person.isValid v = true ->
  Person.validateName (nome p) = true
  /\ Person.validatePhone (telefone p) = true
  /\ Person.validateEmail (email p) = true.
Proof.
  unfold Person.validate, bind.
  destruct (Person.validateBirthDateNow _ w) as [[ok|e] w1]; [|discriminate].
  intros [= <- <-]. cbn [Person.isValid].
  destruct (Person.validateName _), ok, (Person.validatePhone _), (Person.validateEmail _);
    cbn; try discriminate. auto.
Qed.

Lemma validateEmail_string v :
  Person.validateEmail v = true -> exists s, v = VStr s.
Proof. destruct v; try discriminate. eauto. Qed.

Lemma strictEq_string s : strictEq (VStr s) (VStr s) = true.
Proof. cbn. now apply str_eqb_eq. Qed.

Lemma someE_no_alias (r : ref) (ex : Z) (p : PersonObj) (w : World) :
  objs w !! r = Some p -> strictEq (email p) (email p) = true ->
  forall l i w',
    someE (fun existingPerson index =>
             if Z.of_nat index =? ex then ret false
             else
               e <- Person.deref existingPerson ;;
               q <- Person.deref r ;;
               ret (strictEq (email e) (email q)
                    || strictEq (telefone e) (telefone q))) i l w = (Ok false, w') ->
    forall j rj, Z.of_nat (i + j) <> ex -> l !! j = Some rj -> rj <> r.
Proof.
  intros Hp Heq. induction l as [|x l IH]; intros i w' Hs j rj Hj Hl; [discriminate|].
  cbn [someE] in Hs. unfold bind at 1 in Hs.
  destruct j as [|j]; cbn in Hl.
  - injection Hl as ->. rewrite Nat.add_0_r in Hj.
    destruct (Z.eqb_spec (Z.of_nat i) ex) as [|_]; [contradiction|].
    intros ->. unfold bind, Person.deref in Hs. rewrite Hp in Hs.
    cbv beta iota in Hs. rewrite ?Hp in Hs. cbv beta iota in Hs.
    unfold ret in Hs. rewrite Heq in Hs. cbn in Hs. discriminate.
  - destruct (Z.of_nat i =? ex).
    + cbn in Hs. eapply (IH (S i)); [exact Hs| |exact Hl].
      now replace (S i + j)%nat with (i + S j)%nat by lia.
    + unfold bind, Person.deref in Hs.
      destruct (objs w !! x); [|discriminate]. cbv beta iota in Hs. rewrite Hp in Hs.
      cbv beta iota in Hs. unfold ret in Hs. destruct (_ || _); [discriminate|].
      eapply (IH (S i)); [exact Hs| |exact Hl].
      now replace (S i + j)%nat with (i + S j)%nat by lia.
Qed.

Lemma isDuplicate_no_alias r ex w w' l p :
  DataManager.isDuplicate r ex w = (Ok false, w') ->
  arrs w !! persons w = Some l -> objs w !! r = Some p ->
  strictEq (email p) (email p) = true ->
  forall j rj, Z.of_nat j <> ex -> l !! j = Some rj -> rj <> r.
Proof.
  intros Hd Hl Hp Heq j rj Hj Hlj.
  unfold DataManager.isDuplicate, bind, DataManager.thisPersons in Hd. rewrite Hl in Hd.
  eapply (someE_no_alias r ex p w Hp Heq l 0%nat w' Hd j rj); assumption.
Qed.

(** C6 (as amended): after updatePerson(i, updated) succeeds, the record
    at index i is the updated one with the id and the createdAt of the
    record that was there and with updatedAt set to a reading of the
    clock taken during the update; the records at the other indices are
    other objects and are unchanged. *)
Theorem C6_updatePerson_identity (w w' : World) (index : Z) (updated : ref) :
  DataManager.updatePerson index updated w = (Ok true, w') ->
  exists l orig original p k,
    arrs w !! persons w = Some l
    /\ 0 <= index < Z.of_nat (length l)
    /\ l !! Z.to_nat index = Some orig
    /\ objs w !! orig = Some original
    /\ objs w !! updated = Some p
    /\ persons w' = persons w
    /\ arrs w' !! persons w' = Some (<[Z.to_nat index := updated]> l)
    /\ objs w' !! updated = Some (stamped original p (clock k))
    /\ (ticks w <= k)%nat
    /\ (forall j r, j <> Z.to_nat index -> l !! j = Some r ->
          r <> updated /\ objs w' !! r = objs w !! r).
Proof.
  intros Hu.
  apply updatePerson_cases in Hu
    as [(e' & [=] & _)
       |(l & orig & original & p & v & w2 & w3 & k & wc & Hl & Hi & Ho & Hoo & Hp & Hv & Hvalid
         & Hd & Hk & (C1 & C2 & C3) & (S1 & S2 & S3) & _)].
  exists l, orig, original, p, k.
  assert (Hlen : (persons w < length (arrs w))%nat) by (eapply lookup_lt_Some; eassumption).
  assert (Hup : (updated < length (objs w))%nat) by (eapply lookup_lt_Some; eassumption).
  repeat (split; [first [assumption|congruence|lia]|]).
  split; [|split; [|split; [assumption|]]].
  - rewrite S3, C3, S2, C2. now apply list_lookup_insert_eq.
  - rewrite S1, C1. now apply list_lookup_insert_eq.
  - intros j r Hj Hlj.
    destruct (validate_valid _ _ _ _ Hv Hvalid) as (_ & _ & Hemail).
    destruct (validateEmail_string _ Hemail) as [s Hs].
    pose proof (quiet_validate _ _ _ _ Hv) as (Q1 & Q2 & Q3).
    assert (Hl2 : arrs w2 !! persons w2 = Some l) by congruence.
    assert (Hp2 : objs w2 !! updated = Some p) by congruence.
    assert (Heq : strictEq (email p) (email p) = true)
      by (rewrite Hs; apply strictEq_string).
    assert (Hji : Z.of_nat j <> index) by lia.
    pose proof (isDuplicate_no_alias updated index w2 w3 l p Hd Hl2 Hp2 Heq j r Hji Hlj)
      as Hne.
    split; [exact Hne|]. rewrite S1, C1. apply list_lookup_insert_ne. congruence.
Qed.

End Identity.

(** C6 (as stated) fails: when the record and its update are made in the
    same millisecond, the new updatedAt equals the old one. *)
Lemma C6_counterexample :
  let setup := (@Sample.ana Sample.frozen ;;;
                @DataManager.addPerson Sample.frozen 0%nat ;;;
                @Sample.caio Sample.frozen) in
  let w1 := Sample.after setup (Sample.emptyWorld 4000) in
  exists w2 old new,
    @DataManager.updatePerson Sample.frozen 0 1%nat w1 = (Ok true, w2)
    /\ DataManager.collection w1 = Some [old]
    /\ DataManager.collection w2 = Some [new]
    /\ id new = id old /\ createdAt new = createdAt old
    /\ updatedAt new = updatedAt old.
Proof.
  vm_compute. do 3 eexists. repeat split.
Qed.

Lemma C6_witness :
  let setup := (@Sample.ana Sample.running ;;;
                @DataManager.addPerson Sample.running 0%nat ;;;
                @Sample.caio Sample.running) in
  let w1 := Sample.after setup (Sample.emptyWorld 4000) in
  let w2 := Sample.after (@DataManager.updatePerson Sample.running 0 1%nat) w1 in
  exists l orig original p k,
    arrs w1 !! persons w1 = Some l
    /\ 0 <= 0 < Z.of_nat (length l)
    /\ l !! Z.to_nat 0 = Some orig
    /\ objs w1 !! orig = Some original
    /\ objs w1 !! 1%nat = Some p
    /\ persons w2 = persons w1
    /\ arrs w2 !! persons w2 = Some (<[Z.to_nat 0 := 1%nat]> l)
    /\ objs w2 !! 1%nat = Some (stamped original p (@clock Sample.running k))
    /\ (ticks w1 <= k)%nat
    /\ (forall j r, j <> Z.to_nat 0 -> l !! j = Some r ->
          r <> 1%nat /\ objs w2 !! r = objs w1 !! r).
Proof.
  intros setup w1 w2.
  apply (@C6_updatePerson_identity Sample.running w1 w2 0 1%nat).
  vm_compute. reflexivity.
Defined.

Section Fresh.
Context `{Platform}.

Lemma allocArr_Ok found w a w1 :
  DataManager.allocArr found w = (Ok a, w1) ->
  a = length (arrs w) /\ w1 = set_arrs (fun h => h ++ [found]) w.
Proof. now intros [= <- <-]. Qed.

Lemma quiet_matches term r : quiet (DataManager.matches term r).
Proof.
  unfold DataManager.matches.
  apply quiet_bind; [apply quiet_deref|]. intros person.
  apply quiet_bind; [apply quiet_lift|]. intros n.
  destruct (includes n term); [apply quiet_ret|].
  apply quiet_bind; [apply quiet_lift|]. intros e.
  destruct (includes e term); [apply quiet_ret|apply quiet_lift].
Qed.

(** both readers end by allocating their result in a state whose heap
    is that of the start *)
Lemma reader_allocates query w a w1 :
  DataManager.getAllPersons w = (Ok a, w1)
  \/ DataManager.searchPersons query w = (Ok a, w1) ->
  exists l found wq,
    arrs w !! persons w = Some l /\ heapSame w wq
    /\ DataManager.allocArr found wq = (Ok a, w1).
Proof.
  assert (Hall : forall w a w1, DataManager.getAllPersons w = (Ok a, w1) ->
            exists l found wq, arrs w !! persons w = Some l /\ heapSame w wq
              /\ DataManager.allocArr found wq = (Ok a, w1)).
  { clear. intros w a w1 Hg. unfold DataManager.getAllPersons in Hg.
    apply bind_Ok in Hg as (l & w0 & H0 & Hg). apply thisPersons_Ok in H0 as [Hl ->].
    exists l, l, w. split; [assumption|]. split; [apply heapSame_refl|assumption]. }
  intros [Hg|Hs]; [now apply Hall|].
  unfold DataManager.searchPersons in Hs.
  destruct query as [| | | |q| | |]; try (now apply Hall).
  destruct (negb (truthy (VStr q))); [now apply Hall|].
  apply bind_Ok in Hs as (l & w0 & H0 & Hs). apply thisPersons_Ok in H0 as [Hl ->].
  apply bind_Ok in Hs as (found & wq & Hf & Hs).
  exists l, found, wq. split; [assumption|]. split; [|assumption].
  eapply quiet_filterE; [|exact Hf]. intros; apply quiet_matches.
Qed.

(** C10: getAllPersons and searchPersons return a new array: whatever
    the caller then does to the elements of that array, the collection
    of the data manager and the records are as they were, and a further
    getAllPersons returns the same records. *)
Theorem C10_fresh_arrays (w w1 : World) (a : ref) (query : jsval)
    (f : list ref -> list ref) :
  DataManager.getAllPersons w = (Ok a, w1)
  \/ DataManager.searchPersons query w = (Ok a, w1) ->
  exists l,
    arrs w !! persons w = Some l
    /\ arrs w !! a = None /\ a <> persons w
    /\ persons (mutateArray a f w1) = persons w
    /\ objs (mutateArray a f w1) = objs w
    /\ arrs (mutateArray a f w1) !! persons w = Some l
    /\ exists b w3,
         DataManager.getAllPersons (mutateArray a f w1) = (Ok b, w3)
         /\ arrs w3 !! b = Some l.
Proof.
  intros Hr. destruct (reader_allocates _ _ _ _ Hr) as (l & found & wq & Hl & (Q1 & Q2 & Q3) & Ha).
  apply allocArr_Ok in Ha as [-> ->]. exists l.
  assert (Hlt : (persons w < length (arrs w))%nat) by (eapply lookup_lt_Some; eassumption).
  rewrite Q2.
  assert (Hne : length (arrs w) <> persons w) by lia.
  assert (Hin : arrs (mutateArray (length (arrs w)) f (set_arrs (fun h => h ++ [found]) wq))
                  !! persons w = Some l).
  { unfold mutateArray, set_arrs. cbn [arrs]. rewrite Q2.
    rewrite list_lookup_alter_ne by assumption. now rewrite lookup_app_l. }
  split; [assumption|]. split; [apply lookup_ge_None; lia|]. split; [assumption|].
  split; [exact Q3|]. split; [exact Q1|]. split; [exact Hin|].
  unfold DataManager.getAllPersons, bind, DataManager.thisPersons.
  replace (persons (mutateArray (length (arrs w)) f (set_arrs (fun h => h ++ [found]) wq)))
    with (persons w) by (symmetry; exact Q3).
  rewrite Hin. do 2 eexists. split; [reflexivity|].
  unfold set_arrs. cbn [arrs]. apply list_lookup_middle. reflexivity.
Qed.

End Fresh.

Lemma C10_witness :
  let setup := (@Sample.ana Sample.running ;;;
                @DataManager.addPerson Sample.running 0%nat) in
  let w := Sample.after setup (Sample.emptyWorld 4000) in
  let w1 := Sample.after (DataManager.getAllPersons) w in
  exists l,
    arrs w !! persons w = Some l
    /\ arrs w !! 1%nat = None /\ 1%nat <> persons w
    /\ persons (mutateArray 1%nat (fun _ => []) w1) = persons w
    /\ objs (mutateArray 1%nat (fun _ => []) w1) = objs w
    /\ arrs (mutateArray 1%nat (fun _ => []) w1) !! persons w = Some l
    /\ exists b w3,
         DataManager.getAllPersons (mutateArray 1%nat (fun _ => []) w1)
         = (Ok b, w3)
         /\ arrs w3 !! b = Some l.
Proof.
  intros setup w w1.
  apply (@C10_fresh_arrays Sample.running w w1 1%nat VUndefined (fun _ => [])).
  left. vm_compute. reflexivity.
Defined.

Section RoundTrip.
Context `{Platform}.

Lemma validateName_string v :
  Person.validateName v = true -> exists c s, v = VStr (c :: s).
Proof.
  destruct v as [| | | |[|c s]| | |]; try discriminate. eauto.
Qed.

Lemma validAt_valid p w :
  validAt p w = true ->
  Person.validateName (nome p) = true
  /\ Person.validatePhone (telefone p) = true
  /\ Person.validateEmail (email p) = true.
Proof.
  unfold validAt. destruct (Person.validate p w) as [[v|e] w1] eqn:E; [|discriminate].
  cbn [fst]. intros Hv. eapply validate_valid; eassumption.
Qed.

(** reading the fields of the serialized form *)
Lemma toJSON_fields p :
  getProp (Person.toJSON p) (js "id") = Ok (id p)
  /\ getProp (Person.toJSON p) (js "nome") = Ok (nome p)
  /\ getProp (Person.toJSON p) (js "dataNascimento") = Ok (dataNascimento p)
  /\ getProp (Person.toJSON p) (js "telefone") = Ok (telefone p)
  /\ getProp (Person.toJSON p) (js "email") = Ok (email p)
  /\ getProp (Person.toJSON p) (js "createdAt") = Ok (VDate (createdAt p))
  /\ getProp (Person.toJSON p) (js "updatedAt") = Ok (VDate (updatedAt p)).
Proof. repeat split. Qed.

(** the constructor gives every record an id and a name in upper case *)
Lemma new_Person_record n d t e w r w' :
  (forall s, toUpperCase (toUpperCase s) = toUpperCase s) ->
  toUpperCase [] = [] ->
  Person.new_Person n d t e w = (Ok r, w') ->
  exists p, objs w' !! r = Some p
            /\ truthy (id p) = true
            /\ (forall s, nome p = VStr s -> toUpperCase s = s).
Proof.
  intros Hidem Hnil. unfold Person.new_Person, Person.generateId.
  unfold bind, lift, ret, Person.now, Person.randomSuffix, Person.alloc.
  destruct (truthy n) eqn:Et.
  - destruct (Person.callToUpperCase n) as [v|e'] eqn:Ec; [|discriminate].
    intros [= <- <-]. eexists. split; [apply list_lookup_middle; reflexivity|].
    split; [reflexivity|]. cbn [nome]. intros s ->.
    destruct n; try discriminate Ec. cbn in Ec. injection Ec as <-. apply Hidem.
  - intros [= <- <-]. eexists. split; [apply list_lookup_middle; reflexivity|].
    split; [reflexivity|]. cbn [nome]. intros s [= <-]. exact Hnil.
Qed.

(** C5: for a valid record whose id is set and whose name is in the
    upper case the constructor gives it, fromJSON(toJSON(r)) is a new
    Person with the same id, nome, dataNascimento, telefone, email,
    createdAt and updatedAt; the other objects are untouched. *)
Theorem C5_fromJSON_toJSON (w : World) (p : PersonObj) :
  validAt p w = true ->
  truthy (id p) = true ->
  (forall n, nome p = VStr n -> toUpperCase n = n) ->
  exists r w',
    Person.fromJSON (Person.toJSON p) w = (Ok r, w')
    /\ objs w' !! r = Some p
    /\ objs w !! r = None
    /\ (forall r0, r0 <> r -> objs w' !! r0 = objs w !! r0).
Proof.
  intros Hvalid Hid Hupper.
  destruct (validAt_valid _ _ Hvalid) as (Hname & _ & _).
  destruct (validateName_string _ Hname) as (c & n & Hn).
  specialize (Hupper _ Hn).
  destruct (toJSON_fields p) as (F1 & F2 & F3 & F4 & F5 & F6 & F7).
  exists (length (objs w)). eexists.
  unfold Person.fromJSON. rewrite F1, F2, F3, F4, F5, F6, F7. clear F1 F2 F3 F4 F5 F6 F7.
  unfold bind, lift. cbv beta iota.
  unfold Person.new_Person, Person.generateId. rewrite Hn.
  change (truthy (VStr (c :: n))) with true. cbv iota.
  unfold Person.callToUpperCase. rewrite Hupper.
  unfold bind, lift, ret, modify, Person.now, Person.randomSuffix, Person.alloc, Person.deref.
  cbv beta iota.
  unfold set_objs, tick. cbn [objs arrs persons ticks localStorage quota fst snd].
  rewrite list_lookup_middle by reflexivity. cbv beta iota.
  cbn [id nome dataNascimento telefone email createdAt updatedAt].
  rewrite Hid. change (truthy (VDate (createdAt p))) with true.
  change (truthy (VDate (updatedAt p))) with true. cbv iota. cbn [Person.new_Date].
  split; [reflexivity|]. cbn [objs]. split; [|split].
  - rewrite <- Hn. destruct p. apply list_lookup_insert_eq. rewrite length_app. cbn. lia.
  - apply lookup_ge_None. lia.
  - intros r0 Hr0. rewrite list_lookup_insert_ne by congruence.
    destruct (Nat.lt_ge_cases r0 (length (objs w))) as [Hlt|Hge].
    + now rewrite lookup_app_l.
    + rewrite !lookup_ge_None_2; [reflexivity|lia|rewrite length_app; cbn; lia].
Qed.

End RoundTrip.

Section ImportFile.
Context `{Platform}.












End ImportFile.

Lemma str_eqb_refl s : str_eqb s s = true.
Proof. now apply str_eqb_eq. Qed.

Lemma str_eqb_neq s t : s <> t -> str_eqb s t = false.
Proof.
  intros Hne. destruct (str_eqb s t) eqn:E; [|reflexivity].
  apply str_eqb_eq in E. contradiction.
Qed.

Lemma lookupItem_putItem k v items : lookupItem k (putItem k v items) = Some v.
Proof.
  induction items as [|[k' v'] items IH]; cbn [putItem lookupItem].
  - now rewrite str_eqb_refl.
  - destruct (str_eqb k k') eqn:E; cbn [lookupItem]; [now rewrite str_eqb_refl|].
    now rewrite E.
Qed.

Section Backup.
Context `{Platform}.

Lemma getBackups_parsed w text v :
  lookupItem DataBackup.backupKey (localStorage w) = Some text ->
  JSON.parse text = Some v ->
  DataBackup.getBackups w = (Ok v, w).
Proof.
  intros Hl Hp. unfold DataBackup.getBackups, bind, getItem, ret. rewrite Hl.
  destruct text as [|c text]; [discriminate Hp|]. now rewrite Hp.
Qed.

(** what a successful [createBackup] leaves in the store *)
Lemma createBackup_stored data w bid w' :
  DataBackup.createBackup data w = (Ok bid, w') ->
  exists text clone t l text2,
    JSON.stringify data = Some text
    /\ JSON.norm data = Some clone
    /\ JSON.stringify clone = Some text
    /\ JSON.norm clone = Some clone
    /\ lookupItem DataBackup.backupKey (localStorage w') = Some text2
    /\ JSON.stringify
         (VArr (snapshot bid t clone (hex (fold_left DataBackup.hashStep text 0)) :: l))
       = Some text2.
Proof.
  unfold DataBackup.createBackup, try_catch, bind.
  unfold DataBackup.generateBackupId, Person.now, Person.randomSuffix, bind, ret, lift.
  unfold DataBackup.calculateChecksum.
  destruct (JSON.stringify data) as [text|] eqn:Es; [|discriminate].
  destruct (parse_stringify _ _ Es) as (clone & Hn & Hp & Hs' & Hn').
  rewrite Hp.
  destruct (DataBackup.getBackups _) as [[a|e] w1] eqn:Eg; [|discriminate].
  destruct a as [| | | | | |l|]; try discriminate.
  match goal with
  | |- context [if ?c then take DataBackup.maxBackups (?b :: l) else _] =>
      assert (Hl : exists l', (if c then take DataBackup.maxBackups (b :: l) else b :: l)
                              = b :: l')
        by (destruct c; [exists (take 4 l)|exists l]; reflexivity)
  end.
  destruct Hl as [l' ->].
  destruct (JSON.stringify (VArr _)) as [text2|] eqn:Et;
    [|rewrite stringify_arr in Et; discriminate Et].
  unfold setItem. destruct (_ <=? _)%nat; [|discriminate].
  intros [= <- <-].
  exists text, clone, (DateTime.toISOString (clock (ticks (tick (tick w))))), l', text2.
  split; [reflexivity|]. split; [exact Hn|]. split; [exact Hs'|]. split; [exact Hn'|].
  split; [apply lookupItem_putItem|exact Et].
Qed.

Lemma snapshot_fields bid t d c :
  getProp (snapshot bid t d c) (js "id") = Ok (VStr bid)
  /\ getProp (snapshot bid t d c) (js "data") = Ok d
  /\ getProp (snapshot bid t d c) (js "checksum") = Ok (VStr c)
  /\ truthy (snapshot bid t d c) = true.
Proof. repeat split. Qed.

Lemma elemNorm_snapshot bid t d c d' :
  JSON.norm d = Some d' -> elemNorm (snapshot bid t d c) = snapshot bid t d' c.
Proof.
  intros Hn. unfold elemNorm, snapshot. rewrite norm_obj.
  cbn [omap list_omap memberNorm JSON.norm]. rewrite Hn. reflexivity.
Qed.

(** restoring when the newest snapshot is the one asked for *)
Lemma restoreBackup_newest w text bid t d c l d' s :
  lookupItem DataBackup.backupKey (localStorage w) = Some text ->
  JSON.stringify (VArr (snapshot bid t d c :: l)) = Some text ->
  JSON.norm d = Some d' ->
  JSON.stringify d = Some s ->
  DataBackup.restoreBackup (VStr bid) w
  = if str_eqb (hex (fold_left DataBackup.hashStep s 0)) c
    then (Ok d', w)
    else (Throw (AppError (js "Backup corrompido - checksum inválido") STORAGE_ERROR), w).
Proof.
  intros Hl Ht Hn Hs.
  destruct (parse_stringify _ _ Ht) as (v' & Hnv & Hp & _ & _).
  rewrite norm_arr in Hnv. injection Hnv as <-.
  destruct (parse_stringify _ _ Hs) as (d2 & Hn2 & _ & Hs2 & _).
  rewrite Hn in Hn2. injection Hn2 as <-.
  cbn [map] in Hp. rewrite (elemNorm_snapshot _ _ _ _ _ Hn) in Hp.
  destruct (snapshot_fields bid t d' c) as (Hid & Hdata & Hsum & Htruthy).
  unfold DataBackup.restoreBackup, try_catch, bind.
  rewrite (getBackups_parsed _ _ _ Hl Hp).
  cbn [DataBackup.findBackup]. rewrite Hid. cbn [strictEq]. rewrite str_eqb_refl.
  unfold lift. rewrite Htruthy. cbn [negb]. rewrite Hdata.
  unfold DataBackup.calculateChecksum. rewrite Hs2, Hsum. cbn [strictEq].
  destruct (str_eqb _ c); reflexivity.
Qed.

Lemma tamperNewest_stored w text bid t d0 c l d :
  lookupItem DataBackup.backupKey (localStorage w) = Some text ->
  JSON.stringify (VArr (snapshot bid t d0 c :: l)) = Some text ->
  JSON.norm d0 = Some d0 ->
  exists text' l',
    lookupItem DataBackup.backupKey (localStorage (tamperNewest d w)) = Some text'
    /\ JSON.stringify (VArr (snapshot bid t d c :: l')) = Some text'.
Proof.
  intros Hl Ht Hn.
  destruct (parse_stringify _ _ Ht) as (v' & Hnv & Hp & _ & _).
  rewrite norm_arr in Hnv. injection Hnv as <-.
  cbn [map] in Hp. rewrite (elemNorm_snapshot _ _ _ _ _ Hn) in Hp.
  unfold tamperNewest. rewrite Hl, Hp. unfold snapshot at 1. cbv beta iota.
  change (VObj (setMember (js "data") d _)) with (snapshot bid t d c).
  destruct (JSON.stringify (VArr (snapshot bid t d c :: map elemNorm l)))
    as [text'|] eqn:Et';
    [|rewrite stringify_arr in Et'; discriminate Et'].
  exists text', (map elemNorm l). split; [apply lookupItem_putItem|exact Et'].
Qed.

(** C9 (as amended): restoring the backup just created returns the
    data as JSON reads them back (dates as their ISO strings), which are
    the original data when these hold only JSON values; and when the
    data of that snapshot are replaced in the store by data with another
    checksum, restoring throws the storage error
    [Backup corrompido - checksum inválido]. *)
Theorem C9_restoreBackup (data : jsval) (bid : jsstring) (w w' : World) :
  DataBackup.createBackup data w = (Ok bid, w') ->
  (exists image,
      JSON.norm data = Some image
      /\ DataBackup.restoreBackup (VStr bid) w' = (Ok image, w'))
  /\ (forall d text,
        JSON.stringify d = Some text ->
        DataBackup.calculateChecksum d <> DataBackup.calculateChecksum data ->
        DataBackup.restoreBackup (VStr bid) (tamperNewest d w')
        = (Throw (AppError (js "Backup corrompido - checksum inválido") STORAGE_ERROR),
           tamperNewest d w')).
Proof.
  intros Hc.
  destruct (createBackup_stored _ _ _ _ Hc)
    as (text & clone & t & l & text2 & Hs & Hn & Hsc & Hnc & Hl & Ht).
  split.
  - exists clone. split; [exact Hn|].
    rewrite (restoreBackup_newest _ _ _ _ _ _ _ _ _ Hl Ht Hnc Hsc).
    now rewrite str_eqb_refl.
  - intros d dtext Hd Hne.
    destruct (tamperNewest_stored _ _ _ _ _ _ _ d Hl Ht Hnc) as (text' & l' & Hl' & Ht').
    destruct (parse_stringify _ _ Hd) as (d' & Hnd & _).
    rewrite (restoreBackup_newest _ _ _ _ _ _ _ _ _ Hl' Ht' Hnd Hd).
    rewrite str_eqb_neq; [reflexivity|].
    intros Heq. apply Hne. unfold DataBackup.calculateChecksum. rewrite Hd, Hs.
    now rewrite Heq.
Qed.

End Backup.

(** C5 at the record made for Ana Lima *)
Lemma C5_witness :
  let w := Sample.after (@Sample.ana Sample.running) (Sample.emptyWorld 4000) in
  exists p,
    objs w !! 0%nat = Some p
    /\ exists r w',
         @Person.fromJSON Sample.running (Person.toJSON p) w = (Ok r, w')
         /\ objs w' !! r = Some p
         /\ objs w !! r = None
         /\ (forall r0, r0 <> r -> objs w' !! r0 = objs w !! r0).
Proof.
  intros w.
  destruct (objs w !! 0%nat) as [p|] eqn:Ep; [|discriminate Ep].
  exists p. split; [reflexivity|].
  injection Ep as <-.
  apply (@C5_fromJSON_toJSON Sample.running).
  - vm_compute. reflexivity.
  - vm_compute. reflexivity.
  - intros n [= <-]. vm_compute. reflexivity.
Defined.



(** C9 (as stated) fails: the data the manager backs up hold Date
    objects, and the restored data hold their ISO strings instead. *)
Lemma C9_counterexample :
  let w := Sample.after (@Sample.ana Sample.running) (Sample.emptyWorld 4000) in
  exists p,
    objs w !! 0%nat = Some p
    /\ let data := VArr [Person.toJSON p] in
       let made := @DataBackup.createBackup Sample.running data in
       exists bid restored,
         Sample.outcome made w = Ok bid
         /\ Sample.outcome (DataBackup.restoreBackup (VStr bid)) (Sample.after made w)
            = Ok restored
         /\ restored <> data.
Proof.
  intros w. eexists. split; [vm_compute; reflexivity|].
  intros data made. exists (js "backup_1793577600004_k3x9q2m1z").
  destruct (Sample.outcome (DataBackup.restoreBackup _) _) as [restored|e] eqn:E;
    vm_compute in E; [|discriminate E].
  exists restored. split; [vm_compute; reflexivity|]. split; [reflexivity|].
  injection E as <-. vm_compute. discriminate.
Qed.

Lemma C9_witness :
  let data := VArr [ Sample.entry (js "Ana Lima") (js "10/05/1995")
                                  (js "(21) 98888-7777") (js "ana@x.com") ] in
  let w := Sample.emptyWorld 4000 in
  let bid := js "backup_1793577600000_k3x9q2m1z" in
  let w' := Sample.after (@DataBackup.createBackup Sample.running data) w in
  (exists image,
      JSON.norm data = Some image
      /\ DataBackup.restoreBackup (VStr bid) w' = (Ok image, w'))
  /\ (forall d text,
        JSON.stringify d = Some text ->
        DataBackup.calculateChecksum d <> DataBackup.calculateChecksum data ->
        DataBackup.restoreBackup (VStr bid) (tamperNewest d w')
        = (Throw (AppError (js "Backup corrompido - checksum inválido") STORAGE_ERROR),
           tamperNewest d w')).
Proof.
  intros data w bid w'.
  apply (@C9_restoreBackup Sample.running data bid w w').
  vm_compute. reflexivity.
Defined.

(** C2 fails on this input: from the empty collection, importing a file
    of two entries with the same email and replacing the data by what
    the import returned leaves two records with that email in the
    collection, although [addPerson] refuses the second of them. *)
Lemma C2_replaceAllData_duplicates :
  let items := [ Sample.entry (js "Ana Lima") (js "10/05/1995") (js "(21) 98888-7777")
                              (js "ana@x.com");
                 Sample.entry (js "Bia Lima") (js "11/06/1996") (js "(21) 97777-6666")
                              (js "ana@x.com") ] in
  let replace := (r <- @DataManager.importData Sample.running (Sample.jsonFile (VArr items)) ;;
                  @DataManager.replaceAllData Sample.running (fst r)) in
  let add := (@Sample.ana Sample.running ;;; @DataManager.addPerson Sample.running 0%nat ;;;
              @Sample.bia Sample.running ;;; @DataManager.addPerson Sample.running 1%nat) in
  DataManager.collection (Sample.emptyWorld 4000) = Some []
  /\ Sample.outcome replace (Sample.emptyWorld 4000) = Ok true
  /\ (exists p q,
        DataManager.collection (Sample.after replace (Sample.emptyWorld 4000))
        = Some [p; q]
        /\ email p = email q
        /\ ~ Spec.unique [p; q])
  /\ Sample.outcome add (Sample.emptyWorld 4000)
     = Throw (AppError (js "Pessoa já cadastrada com este email ou telefone")
                       DUPLICATE_ERROR).
Proof.
  intros items replace add.
  split; [reflexivity|]. split; [vm_compute; reflexivity|]. split.
  - destruct (DataManager.collection _) as [[|p [|q [|? ?]]]|] eqn:E;
      vm_compute in E; try discriminate E.
    exists p, q. split; [reflexivity|]. injection E as <- <-.
    split; [reflexivity|].
    intros Hu. destruct (Hu 0%nat 1%nat _ _ eq_refl eq_refl) as [He _]; [lia|].
    vm_compute in He. discriminate He.
  - vm_compute. reflexivity.
Qed.

(** * Further properties of the code *)

(** ** The phone formatter *)

Lemma filter_all {A} (f : A -> bool) (l : list A) :
  forallb f l = true -> List.filter f l = l.
Proof.
  induction l as [|x l IH]; [reflexivity|]. cbn. destruct (f x); [|discriminate].
  intros Hl. now rewrite IH.
Qed.

Lemma forallb_filter_self {A} (f : A -> bool) (l : list A) :
  forallb f (List.filter f l) = true.
Proof.
  induction l as [|x l IH]; [reflexivity|]. cbn. destruct (f x) eqn:E; [|exact IH].
  cbn. now rewrite E.
Qed.

Lemma forallb_take {A} (f : A -> bool) n (l : list A) :
  forallb f l = true -> forallb f (take n l) = true.
Proof.
  revert n. induction l as [|x l IH]; intros [|n]; cbn; try reflexivity.
  intros Hl. apply andb_true_iff in Hl as [-> Hl]. now apply IH.
Qed.

Lemma forallb_drop {A} (f : A -> bool) n (l : list A) :
  forallb f l = true -> forallb f (drop n l) = true.
Proof.
  revert n. induction l as [|x l IH]; intros [|n]; cbn; try reflexivity; try easy.
  intros Hl. apply andb_true_iff in Hl as [_ Hl]. now apply IH.
Qed.

Lemma cleanPhone_app s t :
  Person.cleanPhone (s ++ t) = Person.cleanPhone s ++ Person.cleanPhone t.
Proof. apply List.filter_app. Qed.

Lemma cleanPhone_digits s : forallb isDigit s = true -> Person.cleanPhone s = s.
Proof. apply filter_all. Qed.

Lemma cleanPhone_idem s : Person.cleanPhone (Person.cleanPhone s) = Person.cleanPhone s.
Proof. apply cleanPhone_digits, forallb_filter_self. Qed.

(** the digits of a phone put between the signs of the display form *)
Lemma cleanPhone_display a b c :
  forallb isDigit a = true -> forallb isDigit b = true -> forallb isDigit c = true ->
  Person.cleanPhone (js "(" ++ a ++ js ") " ++ b ++ js "-" ++ c) = a ++ b ++ c.
Proof.
  intros Ha Hb Hc. rewrite !cleanPhone_app, (cleanPhone_digits a), (cleanPhone_digits b),
    (cleanPhone_digits c) by assumption.
  reflexivity.
Qed.

Lemma cleanPhone_typing a b :
  forallb isDigit a = true -> forallb isDigit b = true ->
  Person.cleanPhone (js "(" ++ a ++ js ") " ++ b) = a ++ b.
Proof.
  intros Ha Hb. rewrite !cleanPhone_app, (cleanPhone_digits a), (cleanPhone_digits b)
    by assumption.
  reflexivity.
Qed.

Lemma slice_parts (d : jsstring) (i j : nat) :
  (i <= j)%nat ->
  take i d ++ PhoneFormatter.slice i j d ++ drop j d = d.
Proof.
  intros Hij. unfold PhoneFormatter.slice.
  rewrite <- (take_drop i d) at 4. f_equal.
  rewrite <- (take_drop (j - i) (drop i d)) at 2. f_equal.
  rewrite drop_drop. f_equal. lia.
Qed.

(** [validatePhone] looks at the digits only *)
Lemma validatePhone_digits s t :
  Person.cleanPhone s = Person.cleanPhone t ->
  Person.validatePhone (VStr s) = Person.validatePhone (VStr t).
Proof.
  assert (Hg : forall u, Person.validatePhone (VStr u)
    = (if negb (length (Person.cleanPhone u) =? 10)%nat
          && negb (length (Person.cleanPhone u) =? 11)%nat
       then false
       else if (parseDigits (take 2 (Person.cleanPhone u)) <? 11)
               || (99 <? parseDigits (take 2 (Person.cleanPhone u)))
            then false else true)).
  { intros [|c u]; reflexivity. }
  intros Heq. rewrite !Hg, Heq. reflexivity.
Qed.

(** X1: formatForDisplay keeps the digits of its input, and with them the
    answer of validatePhone; formatting what it returned changes
    nothing more. *)
Theorem formatForDisplay_keeps_digits (phone : jsval) (t : jsstring) :
  PhoneFormatter.formatForDisplay phone = Ok t ->
  PhoneFormatter.clean (VStr t) = PhoneFormatter.clean phone
  /\ Person.validatePhone (VStr t) = Person.validatePhone phone
  /\ PhoneFormatter.formatForDisplay (VStr t) = Ok t.
Proof.
  unfold PhoneFormatter.formatForDisplay.
  destruct (truthy phone) eqn:Etruthy; cbn [negb].
  2:{ intros [= <-]. unfold PhoneFormatter.clean. rewrite Etruthy. cbn [negb truthy].
      split; [reflexivity|]. split; [|reflexivity].
      destruct phone as [| |b|n|s| | |]; try reflexivity; try discriminate Etruthy.
      destruct s; [reflexivity|discriminate Etruthy]. }
  destruct phone as [| | | |s| | |]; try discriminate.
  pose proof (forallb_filter_self isDigit s) as Hd. fold (Person.cleanPhone s) in Hd.
  set (d := Person.cleanPhone s) in *.
  assert (Hshape : forall i j, (i <= j)%nat -> (2 <= i)%nat ->
    let t' := js "(" ++ PhoneFormatter.slice 0 2 d ++ js ") "
              ++ PhoneFormatter.slice 2 i d ++ js "-" ++ drop j d in
    i = j -> Person.cleanPhone t' = d).
  { intros i j Hij Hi t' ->. unfold t'. rewrite cleanPhone_display.
    - change (PhoneFormatter.slice 0 2 d) with (take 2 d).
      unfold PhoneFormatter.slice.
      rewrite <- (take_drop 2 d) at 4. f_equal.
      rewrite <- (take_drop (j - 2) (drop 2 d)) at 2. f_equal.
      rewrite drop_drop. f_equal. lia.
    - now apply forallb_take.
    - now apply forallb_take, forallb_drop.
    - now apply forallb_drop. }
  assert (Hfinish : forall t', Person.cleanPhone t' = d -> t' <> [] ->
    PhoneFormatter.clean (VStr t') = PhoneFormatter.clean (VStr s)
    /\ Person.validatePhone (VStr t') = Person.validatePhone (VStr s)).
  { intros t' Ht' Hne. split; [|now apply validatePhone_digits].
    unfold PhoneFormatter.clean. rewrite Etruthy.
    destruct t'; [congruence|]. cbn [truthy negb]. now rewrite Ht'. }
  destruct (length d =? 10)%nat eqn:E10; [|destruct (length d =? 11)%nat eqn:E11].
  + intros [= <-]. pose proof (Hshape 6%nat 6%nat ltac:(lia) ltac:(lia) eq_refl) as Hc.
    cbv zeta in Hc. destruct (Hfinish _ Hc ltac:(discriminate)) as [H1 H2].
    split; [exact H1|]. split; [exact H2|].
    cbn [truthy negb app js list_ascii_of_string]. cbv zeta.
    change (Person.cleanPhone ("("%char :: ?x)) with (Person.cleanPhone ("("%char :: x)).
    cbn [app js list_ascii_of_string] in Hc. rewrite Hc, E10. reflexivity.
  + intros [= <-]. pose proof (Hshape 7%nat 7%nat ltac:(lia) ltac:(lia) eq_refl) as Hc.
    cbv zeta in Hc. destruct (Hfinish _ Hc ltac:(discriminate)) as [H1 H2].
    split; [exact H1|]. split; [exact H2|].
    cbn [truthy negb app js list_ascii_of_string]. cbv zeta.
    cbn [app js list_ascii_of_string] in Hc. rewrite Hc, E10, E11. reflexivity.
  + intros [= <-]. split; [reflexivity|]. split; [reflexivity|].
    rewrite Etruthy. cbn [negb]. cbv zeta. fold d. rewrite E10, E11. reflexivity.
Qed.

Lemma formatForDisplay_witness :
  PhoneFormatter.clean (VStr (js "(11) 99999-9999"))
  = PhoneFormatter.clean (VStr (js "11999999999"))
  /\ Person.validatePhone (VStr (js "(11) 99999-9999"))
     = Person.validatePhone (VStr (js "11999999999"))
  /\ PhoneFormatter.formatForDisplay (VStr (js "(11) 99999-9999"))
     = Ok (js "(11) 99999-9999").
Proof.
  apply (formatForDisplay_keeps_digits (VStr (js "11999999999"))).
  vm_compute. reflexivity.
Defined.

(** what formatAsTyping returns on a non-empty string, from the first
    11 digits of it *)
Lemma formatAsTyping_string s c :
  s <> [] -> c = take 11 (Person.cleanPhone s) ->
  PhoneFormatter.formatAsTyping (VStr s)
  = Ok (if (length c <=? 2)%nat then c
        else if (length c <=? 7)%nat
             then js "(" ++ take 2 c ++ js ") " ++ drop 2 c
             else js "(" ++ take 2 c ++ js ") " ++ take 5 (drop 2 c)
                  ++ js "-" ++ drop 7 c).
Proof.
  intros Hne ->. unfold PhoneFormatter.formatAsTyping.
  destruct s as [|a s]; [congruence|]. cbn [truthy negb]. cbv zeta.
  set (d := Person.cleanPhone (a :: s)).
  assert (Hc : (if (11 <? length d)%nat then PhoneFormatter.slice 0 11 d else d)
               = take 11 d).
  { destruct (11 <? length d)%nat eqn:E; [reflexivity|].
    apply Nat.ltb_ge in E. now rewrite take_ge. }
  rewrite Hc. change (PhoneFormatter.slice 0 2 (take 11 d)) with (take 2 (take 11 d)).
  change (PhoneFormatter.slice 2 7 (take 11 d)) with (take 5 (drop 2 (take 11 d))).
  destruct (length (take 11 d) <=? 2)%nat; [reflexivity|].
  destruct (length (take 11 d) <=? 7)%nat; [reflexivity|].
  destruct (length (take 11 d) <=? 11)%nat eqn:E; [reflexivity|].
  apply Nat.leb_gt in E. rewrite length_take in E. lia.
Qed.

(** X2: formatAsTyping keeps the first 11 digits of its input and nothing
    else of it, and formatting what it returned changes nothing. *)
Theorem formatAsTyping_idempotent (value : jsval) (t : jsstring) :
  PhoneFormatter.formatAsTyping value = Ok t ->
  (forall s, value = VStr s -> Person.cleanPhone t = take 11 (Person.cleanPhone s))
  /\ PhoneFormatter.formatAsTyping (VStr t) = Ok t.
Proof.
  intros Hf.
  destruct (truthy value) eqn:Etruthy.
  2:{ unfold PhoneFormatter.formatAsTyping in Hf. rewrite Etruthy in Hf.
      injection Hf as <-. split; [|reflexivity].
      intros s ->. destruct s; [reflexivity|discriminate Etruthy]. }
  destruct value as [| | | |s| | |];
    try (unfold PhoneFormatter.formatAsTyping in Hf; rewrite Etruthy in Hf;
         discriminate Hf).
  assert (Hne : s <> []) by (destruct s; [discriminate Etruthy|discriminate]).
  pose proof (forallb_filter_self isDigit s) as Hd. fold (Person.cleanPhone s) in Hd.
  set (c := take 11 (Person.cleanPhone s)) in *.
  assert (Hdc : forallb isDigit c = true) by now apply forallb_take.
  assert (Hlen : (length c <= 11)%nat) by (unfold c; rewrite length_take; lia).
  rewrite (formatAsTyping_string s c Hne eq_refl) in Hf.
  assert (Hclean : Person.cleanPhone t = c).
  { pose proof (f_equal (fun r => match r with Ok x => x | Throw _ => t end) Hf) as Ht.
    cbv beta iota in Ht. rewrite <- Ht.
    destruct (length c <=? 2)%nat; [|destruct (length c <=? 7)%nat].
    - now apply cleanPhone_digits.
    - rewrite cleanPhone_typing, take_drop;
        [reflexivity|now apply forallb_take|now apply forallb_drop].
    - rewrite cleanPhone_display;
        [|now apply forallb_take|now apply forallb_take, forallb_drop
         |now apply forallb_drop].
      rewrite <- (take_drop 2 c) at 4. f_equal.
      rewrite <- (take_drop 5 (drop 2 c)) at 2. f_equal.
      now rewrite drop_drop. }
  split; [intros s' [= <-]; exact Hclean|].
  destruct t as [|a t]; [reflexivity|].
  rewrite (formatAsTyping_string (a :: t) c); [exact Hf|discriminate|].
  rewrite Hclean. symmetry. now apply take_ge.
Qed.

Lemma formatAsTyping_witness :
  (forall s, VStr (js "+55 (11) 98765-43210") = VStr s ->
     Person.cleanPhone (js "(55) 11987-6543") = take 11 (Person.cleanPhone s))
  /\ PhoneFormatter.formatAsTyping (VStr (js "(55) 11987-6543"))
     = Ok (js "(55) 11987-6543").
Proof.
  apply (formatAsTyping_idempotent (VStr (js "+55 (11) 98765-43210"))).
  vm_compute. reflexivity.
Defined.

(** X3: PhoneFormatter.isValid and Person.validatePhone give the same answer
    on every value on which isValid returns, and isValid returns on
    every string and on every falsy value. *)
Theorem isValid_validatePhone (phone : jsval) :
  (isString phone = true \/ truthy phone = false) ->
  PhoneFormatter.isValid phone = Ok (Person.validatePhone phone).
Proof.
  intros [Hs|Hf].
  - destruct phone as [| | | |s| | |]; try discriminate Hs.
    destruct s as [|a s]; [reflexivity|].
    unfold PhoneFormatter.isValid, PhoneFormatter.clean, Person.validatePhone.
    cbn [truthy negb]. cbv zeta.
    change (PhoneFormatter.slice 0 2 ?d) with (take 2 d).
    destruct (negb _ && negb _); [reflexivity|].
    destruct (_ || _); reflexivity.
  - unfold PhoneFormatter.isValid. rewrite Hf. cbn [negb].
    destruct phone as [| | | |s| | |]; try reflexivity.
    destruct s; [reflexivity|discriminate Hf].
Qed.

Lemma isValid_witness :
  PhoneFormatter.isValid (VStr (js "(85) 98765-4321"))
  = Ok (Person.validatePhone (VStr (js "(85) 98765-4321"))).
Proof.
  apply isValid_validatePhone. left. reflexivity.
Defined.

(** ** The manager: what a successful operation leaves *)

Section Manager.
Context `{Platform}.

Lemma try_catch_Ok {A} (m : M A) (h : exn -> M A) w a w' :
  try_catch m h w = (Ok a, w') ->
  m w = (Ok a, w') \/ exists e w1, m w = (Throw e, w1) /\ h e w1 = (Ok a, w').
Proof.
  unfold try_catch. destruct (m w) as [[a0|e] w1]; [intros [= <- <-]; now left|].
  intros Hh. right. eauto.
Qed.

Lemma try_catch_Throw {A} (m : M A) (h : exn -> M A) w e w' :
  try_catch m h w = (Throw e, w') ->
  exists e0 w1, m w = (Throw e0, w1) /\ h e0 w1 = (Throw e, w').
Proof.
  unfold try_catch. destruct (m w) as [[a0|e0] w1]; [discriminate|]. eauto.
Qed.

Lemma rethrow_Ok {A} prefix e w (a : A) w' :
  DataManager.rethrow prefix e w = (Ok a, w') -> False.
Proof. unfold DataManager.rethrow. destruct (isAppError e); discriminate. Qed.

Lemma mapE_deref_Ok l : forall w ps w',
  mapE Person.deref l w = (Ok ps, w') ->
  w' = w /\ mapM (fun r => objs w !! r) l = Some ps.
Proof.
  induction l as [|r l IH]; intros w ps w'; cbn [mapE].
  - intros [= <- <-]. split; reflexivity.
  - intros Hb. apply bind_Ok in Hb as (p & w1 & Hd & Hb).
    apply deref_Ok in Hd as [Hp ->].
    apply bind_Ok in Hb as (ps' & w2 & Hm & Hb). injection Hb as <- <-.
    apply IH in Hm as [-> Hm]. split; [reflexivity|].
    cbn. rewrite Hp. cbn. rewrite Hm. reflexivity.
Qed.

Lemma mapE_deref_collection l : forall w ps,
  mapM (fun r => objs w !! r) l = Some ps ->
  mapE Person.deref l w = (Ok ps, w).
Proof.
  induction l as [|r l IH]; intros w ps Hm; cbn in Hm.
  - injection Hm as <-. reflexivity.
  - destruct (objs w !! r) as [p|] eqn:Hp; [|discriminate]. cbn in Hm.
    destruct (mapM _ l) as [ps'|] eqn:Hm'; [|discriminate]. cbn in Hm.
    injection Hm as <-. cbn [mapE]. unfold bind. unfold Person.deref at 1.
    rewrite Hp. rewrite (IH w ps' Hm'). reflexivity.
Qed.

Lemma personsToJSON_Ok w d w' :
  DataManager.personsToJSON w = (Ok d, w') ->
  w' = w /\ exists ps, DataManager.collection w = Some ps
                       /\ d = VArr (map Person.toJSON ps).
Proof.
  unfold DataManager.personsToJSON. intros Hb.
  apply bind_Ok in Hb as (l & w1 & Hl & Hb). apply thisPersons_Ok in Hl as [Hl ->].
  apply bind_Ok in Hb as (ps & w2 & Hm & Hb). injection Hb as <- <-.
  apply mapE_deref_Ok in Hm as [-> Hm]. split; [reflexivity|].
  exists ps. split; [|reflexivity]. unfold DataManager.collection. now rewrite Hl.
Qed.

Lemma personsToJSON_collection w ps :
  DataManager.collection w = Some ps ->
  DataManager.personsToJSON w = (Ok (VArr (map Person.toJSON ps)), w).
Proof.
  unfold DataManager.collection, DataManager.personsToJSON, bind, DataManager.thisPersons.
  destruct (arrs w !! persons w) as [l|]; [|discriminate].
  intros Hm. rewrite (mapE_deref_collection _ _ _ Hm). reflexivity.
Qed.

Lemma collection_heapSame w w' :
  heapSame w w' -> DataManager.collection w' = DataManager.collection w.
Proof.
  intros (H1 & H2 & H3). unfold DataManager.collection. now rewrite H1, H2, H3.
Qed.

Lemma autoBackup_Ok data w : exists w1, DataBackup.autoBackup data w = (Ok tt, w1).
Proof.
  unfold DataBackup.autoBackup, try_catch.
  match goal with |- context [bind ?m ?k w] => destruct (bind m k w) as [[[]|e] w1] end;
    eauto.
Qed.

(** what [savePersons] leaves when it returns: the text of the
    collection under the storage key *)
Lemma savePersons_Ok w u w' :
  DataManager.savePersons w = (Ok u, w') ->
  heapSame w w'
  /\ exists ps text,
       DataManager.collection w = Some ps
       /\ JSON.stringify (VArr (map Person.toJSON ps)) = Some text
       /\ lookupItem DataManager.storageKey (localStorage w') = Some text.
Proof.
  intros Hs. split; [exact (quiet_savePersons _ _ _ Hs)|].
  unfold DataManager.savePersons in Hs.
  apply try_catch_Ok in Hs as [Hs|(e & w1 & _ & Hh)];
    [|destruct (str_eqb _ _); discriminate Hh].
  apply bind_Ok in Hs as (d1 & w1 & H1 & Hs).
  apply personsToJSON_Ok in H1 as (-> & ps & Hc & ->).
  apply bind_Ok in Hs as ([] & w2 & H2 & Hs).
  pose proof (quiet_autoBackup _ _ _ _ H2) as Q.
  apply bind_Ok in Hs as (d2 & w3 & H3 & Hs).
  apply personsToJSON_Ok in H3 as (-> & ps2 & Hc2 & ->).
  rewrite (collection_heapSame _ _ Q), Hc in Hc2. injection Hc2 as <-.
  exists ps. destruct (JSON.stringify (VArr (map Person.toJSON ps))) as [text|] eqn:Et;
    [|rewrite stringify_arr in Et; discriminate Et].
  exists text. split; [assumption|]. split; [reflexivity|].
  unfold setItem in Hs. destruct (_ <=? _)%nat; [|discriminate].
  injection Hs as _ <-. apply lookupItem_putItem.
Qed.


(** the scan of [isDuplicate]: it returns [true] exactly when a record
    at an index other than the excluded one has the email or the phone
    of [p] *)
Lemma someE_isDuplicate (r : ref) (ex : Z) (p : PersonObj) (w : World) :
  objs w !! r = Some p ->
  forall l i b w',
    someE (fun existingPerson index =>
             if Z.of_nat index =? ex then ret false
             else
               e <- Person.deref existingPerson ;;
               q <- Person.deref r ;;
               ret (strictEq (email e) (email q)
                    || strictEq (telefone e) (telefone q))) i l w = (Ok b, w') ->
    w' = w
    /\ (b = true <->
        exists j rj q, Z.of_nat (i + j) <> ex /\ l !! j = Some rj
                       /\ objs w !! rj = Some q
                       /\ strictEq (email q) (email p)
                          || strictEq (telefone q) (telefone p) = true)
    /\ (b = false ->
        forall j rj, Z.of_nat (i + j) <> ex -> l !! j = Some rj ->
                     exists q, objs w !! rj = Some q).
Proof.
  intros Hp. induction l as [|x l IH]; intros i b w' Hs.
  - injection Hs as <- <-. split; [reflexivity|]. split.
    + split; [discriminate|]. intros (j & rj & q & _ & Hl & _). discriminate Hl.
    + intros _ j rj _ Hl. discriminate Hl.
  - cbn [someE] in Hs. unfold bind at 1 in Hs.
    destruct (Z.eqb_spec (Z.of_nat i) ex) as [Hex|Hex].
    + cbn in Hs. apply IH in Hs as (-> & Hiff & Hlive). split; [reflexivity|]. split.
      * rewrite Hiff. split.
        -- intros (j & rj & q & Hj & Hl & Hq & Hsh). exists (S j), rj, q.
           repeat split; try assumption. now replace (i + S j)%nat with (S i + j)%nat by lia.
        -- intros ([|j] & rj & q & Hj & Hl & Hq & Hsh).
           ++ rewrite Nat.add_0_r in Hj. contradiction.
           ++ exists j, rj, q. repeat split; try assumption.
              now replace (S i + j)%nat with (i + S j)%nat by lia.
      * intros Hb [|j] rj Hj Hl.
        -- rewrite Nat.add_0_r in Hj. contradiction.
        -- apply (Hlive Hb j rj); [|exact Hl].
           now replace (S i + j)%nat with (i + S j)%nat by lia.
    + unfold bind, Person.deref in Hs.
      destruct (objs w !! x) as [q0|] eqn:Hx; [|discriminate]. cbv beta iota in Hs.
      rewrite Hp in Hs. cbv beta iota in Hs. unfold ret in Hs.
      destruct (strictEq (email q0) (email p) || strictEq (telefone q0) (telefone p))
        eqn:Hsh.
      * injection Hs as <- <-. split; [reflexivity|]. split; [|discriminate].
        split; [|reflexivity]. intros _. exists 0%nat, x, q0.
        rewrite Nat.add_0_r. repeat split; assumption.
      * apply IH in Hs as (-> & Hiff & Hlive). split; [reflexivity|]. split.
        -- rewrite Hiff. split.
           ++ intros (j & rj & q & Hj & Hl & Hq & Hsh'). exists (S j), rj, q.
              repeat split; try assumption.
              now replace (i + S j)%nat with (S i + j)%nat by lia.
           ++ intros ([|j] & rj & q & Hj & Hl & Hq & Hsh').
              ** injection Hl as <-. rewrite Hx in Hq. injection Hq as <-.
                 rewrite Hsh in Hsh'. discriminate.
              ** exists j, rj, q. repeat split; try assumption.
                 now replace (S i + j)%nat with (i + S j)%nat by lia.
        -- intros Hb [|j] rj Hj Hl.
           ++ injection Hl as <-. eauto.
           ++ apply (Hlive Hb j rj); [|exact Hl].
              now replace (S i + j)%nat with (i + S j)%nat by lia.
Qed.

(** the scan returns when the records of the array are objects *)
Lemma someE_returns (r : ref) (ex : Z) (p : PersonObj) (w : World) :
  objs w !! r = Some p ->
  forall l i,
    Forall (fun x => is_Some (objs w !! x)) l ->
    exists b,
      someE (fun existingPerson index =>
               if Z.of_nat index =? ex then ret false
               else
                 e <- Person.deref existingPerson ;;
                 q <- Person.deref r ;;
                 ret (strictEq (email e) (email q)
                      || strictEq (telefone e) (telefone q))) i l w = (Ok b, w).
Proof.
  intros Hp. induction l as [|x l IH]; intros i Hall.
  - exists false. reflexivity.
  - apply Forall_cons in Hall as [[q0 Hx] Hall]. cbn [someE]. unfold bind at 1.
    destruct (IH (S i) Hall) as [b' Hb'].
    destruct (Z.of_nat i =? ex).
    + cbn. eauto.
    + unfold bind, Person.deref. rewrite Hx. cbv beta iota. rewrite Hp. cbv beta iota.
      unfold ret. destruct (_ || _); eauto.
Qed.

Lemma isDuplicate_spec person ex w b w' p :
  objs w !! person = Some p ->
  DataManager.isDuplicate person ex w = (Ok b, w') ->
  w' = w
  /\ exists l, arrs w !! persons w = Some l
     /\ (b = true <->
         exists j rj q, Z.of_nat j <> ex /\ l !! j = Some rj
                        /\ objs w !! rj = Some q
                        /\ strictEq (email q) (email p)
                           || strictEq (telefone q) (telefone p) = true)
     /\ (b = false ->
         forall j rj, Z.of_nat j <> ex -> l !! j = Some rj ->
                      exists q, objs w !! rj = Some q).
Proof.
  intros Hp Hd. unfold DataManager.isDuplicate in Hd.
  apply bind_Ok in Hd as (l & w1 & Hl & Hd). apply thisPersons_Ok in Hl as [Hl ->].
  apply (someE_isDuplicate person ex p w Hp) in Hd as (-> & Hiff & Hlive).
  split; [reflexivity|]. exists l. split; [assumption|]. split; assumption.
Qed.

(** X4: for a Person whose email and phone are not objects, isDuplicate
    returns [true] exactly when a record of the collection at an index
    other than the excluded one has, by [===], the email or the phone of
    the Person; and when it returns [false] every record at another
    index is an object. *)
Theorem isDuplicate_scans (person : ref) (excludeIndex : Z) (w w' : World) (b : bool)
    (p : PersonObj) :
  objs w !! person = Some p ->
  Spec.primitive (email p) = true ->
  Spec.primitive (telefone p) = true ->
  DataManager.isDuplicate person excludeIndex w = (Ok b, w') ->
  w' = w
  /\ exists l, arrs w !! persons w = Some l
     /\ (b = true <->
         exists j rj q, Z.of_nat j <> excludeIndex /\ l !! j = Some rj
                        /\ objs w !! rj = Some q
                        /\ strictEq (email q) (email p)
                           || strictEq (telefone q) (telefone p) = true)
     /\ (b = false ->
         forall j rj, Z.of_nat j <> excludeIndex -> l !! j = Some rj ->
                      exists q, objs w !! rj = Some q).
Proof. intros Hp _ _. now apply isDuplicate_spec. Qed.

(** the steps of an [addPerson] that returns *)
Lemma addPerson_steps person w b w' :
  DataManager.addPerson person w = (Ok b, w') ->
  b = true
  /\ exists p l v w2,
       objs w !! person = Some p
       /\ Person.validate p w = (Ok v, w2) /\ Person.isValid v = true
       /\ DataManager.isDuplicate person (-1) w2 = (Ok false, w2)
       /\ arrs w2 !! persons w2 = Some l
       /\ DataManager.savePersons
            (set_arrs (fun h => <[persons w2 := l ++ [person]]> h) w2) = (Ok tt, w').
Proof.
  unfold DataManager.addPerson. intros Ha.
  apply try_catch_Ok in Ha as [Ha|(e & w1 & _ & Hh)]; [|now apply rethrow_Ok in Hh].
  apply bind_Ok in Ha as (isP & w1 & H1 & Ha). injection H1 as <- <-.
  destruct (objs w !! person) as [p|] eqn:Hp; [|discriminate]. cbn [negb] in Ha.
  apply bind_Ok in Ha as (p' & w1 & H2 & Ha). apply deref_Ok in H2 as [Hp' ->].
  rewrite Hp in Hp'. injection Hp' as <-.
  apply bind_Ok in Ha as (v & w2 & H3 & Ha).
  destruct (Person.isValid v) eqn:Hv; [|discriminate]. cbn [negb] in Ha.
  apply bind_Ok in Ha as (dup & w3 & H4 & Ha).
  destruct dup; [discriminate|].
  assert (Hp2 : objs w2 !! person = Some p).
  { destruct (quiet_validate _ _ _ _ H3) as (Q1 & _). now rewrite Q1. }
  destruct (isDuplicate_spec _ _ _ _ _ _ Hp2 H4) as (-> & _).
  apply bind_Ok in Ha as (l & w4 & H5 & Ha). apply thisPersons_Ok in H5 as [Hl ->].
  apply bind_Ok in Ha as ([] & w5 & H6 & Ha). apply writePersons_Ok in H6 as ->.
  apply bind_Ok in Ha as ([] & w6 & H7 & Ha). injection Ha as <- <-.
  split; [reflexivity|]. exists p, l, v, w2. repeat split; assumption.
Qed.

(** X5: addPerson returns only for a valid Person that shares no email and
    no phone with a record of the collection, and it leaves the
    collection with that Person appended and every object as it was. *)
Theorem addPerson_appends (person : ref) (w w' : World) (b : bool) :
  DataManager.addPerson person w = (Ok b, w') ->
  b = true
  /\ exists p l,
       objs w !! person = Some p
       /\ validAt p w = true
       /\ arrs w !! persons w = Some l
       /\ (forall j rj, l !! j = Some rj ->
             exists q, objs w !! rj = Some q
                       /\ strictEq (email q) (email p) = false
                       /\ strictEq (telefone q) (telefone p) = false)
       /\ objs w' = objs w /\ persons w' = persons w
       /\ arrs w' = <[persons w := l ++ [person]]> (arrs w).
Proof.
  intros Ha. apply addPerson_steps in Ha as (-> & p & l & v & w2 & Hp & Hv & Hvalid & Hd & Hl & Hs).
  split; [reflexivity|]. exists p, l.
  destruct (quiet_validate _ _ _ _ Hv) as (Q1 & Q2 & Q3).
  destruct (quiet_savePersons _ _ _ Hs) as (S1 & S2 & S3). cbn in S1, S2, S3.
  assert (Hp2 : objs w2 !! person = Some p) by now rewrite Q1.
  destruct (isDuplicate_spec _ _ _ _ _ _ Hp2 Hd) as (_ & l' & Hl' & Hiff & Hlive).
  rewrite Hl in Hl'. injection Hl' as <-.
  split; [assumption|]. split; [unfold validAt; now rewrite Hv|].
  split; [congruence|]. split.
  { intros j rj Hj. destruct (Hlive eq_refl j rj ltac:(lia) Hj) as [q Hq].
    exists q. split; [congruence|].
    apply orb_false_iff. apply not_true_is_false. intros Hsh.
    assert (Ht : false = true); [|discriminate Ht].
    apply Hiff. exists j, rj, q. repeat split; try assumption. lia. }
  repeat split; congruence.
Qed.

(** X6: addPerson refuses a valid Person when a record of the collection,
    possibly that very Person, has its email or its phone: it throws the
    duplicate error and leaves the heap, the collection and the store as
    they were. *)
Theorem addPerson_rejects_duplicate (person : ref) (w : World) (p q : PersonObj)
    (l : list ref) (j : nat) (rj : ref) :
  objs w !! person = Some p ->
  validAt p w = true ->
  arrs w !! persons w = Some l ->
  Forall (fun x => is_Some (objs w !! x)) l ->
  l !! j = Some rj -> objs w !! rj = Some q ->
  strictEq (email q) (email p) || strictEq (telefone q) (telefone p) = true ->
  exists w',
    DataManager.addPerson person w = (Throw DataManager.duplicateError, w')
    /\ heapSame w w' /\ localStorage w' = localStorage w.
Proof.
  intros Hp Hvalid Hl Hall Hj Hq Hsh.
  destruct (validate_Ok p w) as (v & w2 & Hv).
  unfold validAt in Hvalid. rewrite Hv in Hvalid. cbn in Hvalid.
  destruct (quiet_validate _ _ _ _ Hv) as (Q1 & Q2 & Q3).
  assert (Hls : localStorage w2 = localStorage w).
  { unfold Person.validate, bind, Person.validateBirthDateNow, ret, Person.now in Hv.
    destruct (negb _) in Hv; [injection Hv as _ <-; reflexivity|].
    destruct (Person.parseBrazilianDate _) in Hv; injection Hv as _ <-; reflexivity. }
  assert (Hp2 : objs w2 !! person = Some p) by now rewrite Q1.
  assert (Hall2 : Forall (fun x => is_Some (objs w2 !! x)) l) by now rewrite Q1.
  destruct (someE_returns person (-1) p w2 Hp2 l 0%nat Hall2) as [b Hb].
  assert (Hd : DataManager.isDuplicate person (-1) w2 = (Ok b, w2)).
  { unfold DataManager.isDuplicate, bind, DataManager.thisPersons.
    rewrite Q2, Q3, Hl. exact Hb. }
  destruct (isDuplicate_spec _ _ _ _ _ _ Hp2 Hd) as (_ & l' & Hl' & Hiff & _).
  assert (Hbt : b = true).
  { apply Hiff. rewrite Q2, Q3, Hl in Hl'. injection Hl' as <-.
    exists j, rj, q. repeat split; try assumption; [lia|congruence]. }
  subst b. exists w2.
  split; [|split; [repeat split; assumption|assumption]].
  unfold DataManager.addPerson, try_catch, bind, DataManager.instanceofPerson.
  rewrite Hp. cbn [negb]. unfold Person.deref. rewrite Hp. rewrite Hv, Hvalid.
  cbn [negb]. rewrite Hd. reflexivity.
Qed.

End Manager.

Section Outcomes.
Context `{Platform}.

(** taking apart a computation that returned: each bind, each test that
    could have thrown *)
Ltac returned H :=
  repeat first
    [ apply bind_Ok in H as (? & ? & ? & H)
    | match type of H with
      | (if ?c then _ else _) _ = (Ok _, _) => destruct c eqn:?; [discriminate H|]
      | (if ?c then _ else _) _ = (Ok _, _) => destruct c eqn:?; [|discriminate H]
      | (match ?x with _ => _ end) _ = (Ok _, _) => destruct x eqn:?; try discriminate H
      end ].

Lemma deletePerson_steps index w b w' :
  DataManager.deletePerson index w = (Ok b, w') ->
  b = true
  /\ exists l, arrs w !! persons w = Some l
     /\ 0 <= index < Z.of_nat (length l)
     /\ DataManager.savePersons
          (set_arrs (fun h => <[persons w := delete (Z.to_nat index) l]> h) w)
        = (Ok tt, w').
Proof.
  unfold DataManager.deletePerson. intros Hd.
  apply try_catch_Ok in Hd as [Hd|(e & w1 & _ & Hh)]; [|now apply rethrow_Ok in Hh].
  apply bind_Ok in Hd as (l & w1 & Hl & Hd). apply thisPersons_Ok in Hl as [Hl ->].
  destruct ((index <? 0) || (Z.of_nat (length l) <=? index)) eqn:Er; [discriminate|].
  apply bind_Ok in Hd as ([] & w2 & Hw & Hd). apply writePersons_Ok in Hw as ->.
  apply bind_Ok in Hd as ([] & w3 & Hs & Hd). injection Hd as <- <-.
  split; [reflexivity|]. exists l. repeat split; try assumption; lia.
Qed.

(** X7: deletePerson refuses an index outside the collection, changing
    nothing, and otherwise removes the record at the index, and only
    it, from the array of the collection; the array stays so when the
    store then refuses the write. *)
Theorem deletePerson_removes (index : Z) (w : World) (l : list ref) :
  arrs w !! persons w = Some l ->
  (index < 0 \/ Z.of_nat (length l) <= index ->
   DataManager.deletePerson index w
   = (Throw (AppError (js "Índice inválido") VALIDATION_ERROR), w))
  /\ (0 <= index < Z.of_nat (length l) ->
      exists r w',
        DataManager.deletePerson index w = (r, w')
        /\ objs w' = objs w /\ persons w' = persons w
        /\ arrs w' = <[persons w := delete (Z.to_nat index) l]> (arrs w)
        /\ (r = Ok true \/ exists e, r = Throw e /\ persistFailure e)).
Proof.
  intros Hl. split.
  - intros Hout. unfold DataManager.deletePerson, try_catch, bind, DataManager.thisPersons.
    rewrite Hl.
    replace ((index <? 0) || (Z.of_nat (length l) <=? index)) with true; [reflexivity|].
    symmetry. apply orb_true_iff. destruct Hout; [left|right]; lia.
  - intros Hin. unfold DataManager.deletePerson, try_catch, bind, DataManager.thisPersons.
    rewrite Hl.
    replace ((index <? 0) || (Z.of_nat (length l) <=? index)) with false
      by (symmetry; apply orb_false_iff; split; lia).
    unfold DataManager.writePersons at 1.
    destruct (DataManager.savePersons _) as [[[]|e] w'] eqn:Es;
      destruct (quiet_savePersons _ _ _ Es) as (S1 & S2 & S3); cbn in S1, S2, S3.
    + exists (Ok true), w'. repeat split; try assumption. now left.
    + pose proof (savePersons_Throw _ _ _ Es) as Hpf.
      rewrite rethrow_persist by assumption.
      exists (Throw e), w'. repeat split; try assumption. right. eauto.
Qed.


Lemma updatePerson_saved index updated w b w' :
  DataManager.updatePerson index updated w = (Ok b, w') ->
  exists w0, DataManager.savePersons w0 = (Ok tt, w').
Proof.
  unfold DataManager.updatePerson. intros Hu.
  apply try_catch_Ok in Hu as [Hu|(e & w1 & _ & Hh)]; [|now apply rethrow_Ok in Hh].
  returned Hu.
  match goal with Hs : DataManager.savePersons ?w0 = (Ok ?u, _) |- _ =>
    destruct u; injection Hu as _ <-; exists w0; exact Hs end.
Qed.

Lemma replaceAllData_steps a w b w' :
  DataManager.replaceAllData a w = (Ok b, w') ->
  b = true
  /\ exists w1, heapSame w w1
       /\ DataManager.savePersons (set_persons a w1) = (Ok tt, w').
Proof.
  unfold DataManager.replaceAllData. intros Hr.
  apply try_catch_Ok in Hr as [Hr|(e & w1 & _ & Hh)]; [|discriminate Hh].
  apply bind_Ok in Hr as (d & w1 & Hd & Hr).
  pose proof (quiet_personsToJSON _ _ _ Hd) as Q1.
  apply bind_Ok in Hr as (bid & w2 & Hc & Hr).
  pose proof (quiet_createBackup _ _ _ _ Hc) as Q2.
  apply bind_Ok in Hr as ([] & w3 & Ha & Hr). injection Ha as <-.
  apply bind_Ok in Hr as ([] & w4 & Hs & Hr). injection Hr as <- <-.
  split; [reflexivity|]. exists w2. split; [eapply heapSame_trans; eassumption|exact Hs].
Qed.

Lemma clearAllPersons_steps w :
  DataManager.clearAllPersons w
  = match DataManager.savePersons
            (set_persons (length (arrs w)) (set_arrs (fun h => h ++ [[]]) w)) with
    | (Ok _, w') => (Ok true, w')
    | (Throw e, w') =>
        (Throw (AppError (js "Erro ao limpar dados: " ++ message e) STORAGE_ERROR), w')
    end.
Proof.
  unfold DataManager.clearAllPersons, try_catch, bind, DataManager.allocArr,
    DataManager.assignPersons, modify.
  destruct (DataManager.savePersons _) as [[[]|e] w']; reflexivity.
Qed.

Lemma restoreFromBackup_saved backupId w b w' :
  DataManager.restoreFromBackup backupId w = (Ok b, w') ->
  exists w0, DataManager.savePersons w0 = (Ok tt, w').
Proof.
  unfold DataManager.restoreFromBackup. intros Hr.
  apply try_catch_Ok in Hr as [Hr|(e & w1 & _ & Hh)]; [|now apply rethrow_Ok in Hh].
  returned Hr.
  match goal with Hs : DataManager.savePersons ?w0 = (Ok ?u, _) |- _ =>
    destruct u; injection Hr as _ <-; exists w0; exact Hs end.
Qed.

(** X8: After each operation of the manager that changes the collection
    and returns, the store holds under the storage key the JSON text of
    the collection the operation leaves: memory and store agree. *)
Theorem mutation_persisted (w w' : World) :
  (exists person b, DataManager.addPerson person w = (Ok b, w'))
  \/ (exists index updated b, DataManager.updatePerson index updated w = (Ok b, w'))
  \/ (exists index b, DataManager.deletePerson index w = (Ok b, w'))
  \/ (exists newPersons b, DataManager.replaceAllData newPersons w = (Ok b, w'))
  \/ (exists b, DataManager.clearAllPersons w = (Ok b, w'))
  \/ (exists backupId b, DataManager.restoreFromBackup backupId w = (Ok b, w')) ->
  exists ps text,
    DataManager.collection w' = Some ps
    /\ JSON.stringify (VArr (map Person.toJSON ps)) = Some text
    /\ lookupItem DataManager.storageKey (localStorage w') = Some text.
Proof.
  intros Hop.
  assert (Hsave : exists w0, DataManager.savePersons w0 = (Ok tt, w')).
  { destruct Hop as [(person & b & Ha)|[(index & updated & b & Hu)|[(index & b & Hd)
      |[(a & b & Hr)|[(b & Hc)|(bid & b & Hr)]]]]].
    - apply addPerson_steps in Ha as (_ & p & l & v & w2 & _ & _ & _ & _ & _ & Hs). eauto.
    - now apply updatePerson_saved in Hu.
    - apply deletePerson_steps in Hd as (_ & l & _ & _ & Hs). eauto.
    - apply replaceAllData_steps in Hr as (_ & w1 & _ & Hs). eauto.
    - rewrite clearAllPersons_steps in Hc.
      destruct (DataManager.savePersons _) as [[[]|e] w1] eqn:Es; [|discriminate].
      injection Hc as _ <-. eauto.
    - now apply restoreFromBackup_saved in Hr. }
  destruct Hsave as [w0 Hs].
  apply savePersons_Ok in Hs as (Q & ps & text & Hc & Ht & Hl).
  exists ps, text. rewrite (collection_heapSame _ _ Q). repeat split; assumption.
Qed.

(** X9: clearAllPersons leaves an empty collection whether or not the store
    accepts the write; the arrays and the objects there were stay as
    they were; and a refusal of the store, the quota error included,
    is reported as a storage error. *)
Theorem clearAllPersons_empties (w w' : World) (r : result bool) :
  DataManager.clearAllPersons w = (r, w') ->
  DataManager.collection w' = Some []
  /\ objs w' = objs w
  /\ arrs w' = arrs w ++ [[]]
  /\ (r = Ok true
      \/ exists e, persistFailure e
           /\ r = Throw (AppError (js "Erro ao limpar dados: " ++ message e)
                                  STORAGE_ERROR)).
Proof.
  rewrite clearAllPersons_steps.
  destruct (DataManager.savePersons _) as [[[]|e] w1] eqn:Es;
    destruct (quiet_savePersons _ _ _ Es) as (S1 & S2 & S3); cbn in S1, S2, S3;
    intros [= <- <-].
  - split; [|repeat split; try assumption; now left].
    unfold DataManager.collection. rewrite S2, S3.
    rewrite list_lookup_middle by reflexivity. reflexivity.
  - split; [|repeat split; try assumption; right; exists e;
             split; [exact (savePersons_Throw _ _ _ Es)|reflexivity]].
    unfold DataManager.collection. rewrite S2, S3.
    rewrite list_lookup_middle by reflexivity. reflexivity.
Qed.

(** X10: replaceAllData makes the array it is given the collection itself,
    without copying it: what the caller does to that array afterwards is
    done to the collection. *)
Theorem replaceAllData_adopts (newPersons : ref) (w w' : World) (b : bool)
    (l : list ref) :
  DataManager.replaceAllData newPersons w = (Ok b, w') ->
  arrs w !! newPersons = Some l ->
  b = true
  /\ persons w' = newPersons /\ arrs w' = arrs w /\ objs w' = objs w
  /\ forall f, DataManager.collection (mutateArray newPersons f w')
               = mapM (fun r => objs w !! r) (f l).
Proof.
  intros Hr Hl. apply replaceAllData_steps in Hr as (-> & w1 & (Q1 & Q2 & Q3) & Hs).
  destruct (quiet_savePersons _ _ _ Hs) as (S1 & S2 & S3). cbn in S1, S2, S3.
  split; [reflexivity|]. split; [assumption|]. split; [congruence|]. split; [congruence|].
  intros f. unfold DataManager.collection, mutateArray, set_arrs. cbn [arrs persons objs].
  rewrite S3, S2, Q2, S1, Q1.
  assert (Hlt : (newPersons < length (arrs w))%nat) by (eapply lookup_lt_Some; eassumption).
  rewrite list_lookup_alter_eq.
  match goal with
  | |- context [f <$> ?x] => replace x with (Some l) by (symmetry; exact Hl)
  end.
  reflexivity.
Qed.

(** X11: No raw error leaves the operations of the manager and of the
    backup utility that catch: whatever they throw is an AppError. *)
Theorem thrown_errors_are_AppErrors (w w' : World) (e : exn) :
  (exists person, DataManager.addPerson person w = (Throw e, w'))
  \/ (exists index updated, DataManager.updatePerson index updated w = (Throw e, w'))
  \/ (exists index, DataManager.deletePerson index w = (Throw e, w'))
  \/ (exists newPersons, DataManager.replaceAllData newPersons w = (Throw e, w'))
  \/ DataManager.clearAllPersons w = (Throw e, w')
  \/ (exists backupId, DataManager.restoreFromBackup backupId w = (Throw e, w'))
  \/ (exists file, DataManager.importData file w = (Throw e, w'))
  \/ DataManager.loadPersons w = (Throw e, w')
  \/ DataManager.savePersons w = (Throw e, w')
  \/ (exists data, DataBackup.createBackup data w = (Throw e, w'))
  \/ (exists backupId, DataBackup.restoreBackup backupId w = (Throw e, w'))
  \/ (exists file, DataBackup.importFromFile file = Throw e) ->
  isAppError e = true.
Proof.
  assert (Hre : forall A prefix e0 w0, @DataManager.rethrow A prefix e0 w0 = (Throw e, w') ->
                                       isAppError e = true).
  { intros A prefix e0 w0. unfold DataManager.rethrow.
    destruct (isAppError e0) eqn:E0; intros [= <- <-]; [assumption|reflexivity]. }
  intros [(x & Ho)|[(x & y & Ho)|[(x & Ho)|[(x & Ho)|[Ho|[(x & Ho)|[(x & Ho)|[Ho|[Ho
    |[(x & Ho)|[(x & Ho)|(file & Ho)]]]]]]]]]]].
  - apply try_catch_Throw in Ho as (e0 & w1 & _ & Hh). now apply Hre in Hh.
  - apply try_catch_Throw in Ho as (e0 & w1 & _ & Hh). now apply Hre in Hh.
  - apply try_catch_Throw in Ho as (e0 & w1 & _ & Hh). now apply Hre in Hh.
  - apply try_catch_Throw in Ho as (e0 & w1 & _ & Hh). now injection Hh as <- <-.
  - apply try_catch_Throw in Ho as (e0 & w1 & _ & Hh). now injection Hh as <- <-.
  - apply try_catch_Throw in Ho as (e0 & w1 & _ & Hh). now apply Hre in Hh.
  - apply try_catch_Throw in Ho as (e0 & w1 & _ & Hh).
    destruct (isAppError e0) eqn:E0; injection Hh as <- <-; [assumption|reflexivity].
  - apply try_catch_Throw in Ho as (e0 & w1 & _ & Hh). now injection Hh as <- <-.
  - apply savePersons_Throw in Ho. now apply persistFailure_isAppError.
  - apply try_catch_Throw in Ho as (e0 & w1 & _ & Hh). now injection Hh as <- <-.
  - apply try_catch_Throw in Ho as (e0 & w1 & _ & Hh).
    destruct (isAppError e0) eqn:E0; injection Hh as <- <-; [assumption|reflexivity].
  - unfold DataBackup.importFromFile in Ho.
    destruct file as [f|]; [|now injection Ho as <-].
    repeat match type of Ho with
           | (if ?c then _ else _) = Throw _ => destruct c eqn:?
           | match ?x with _ => _ end = Throw _ => destruct x eqn:?
           end;
      try discriminate Ho; try (now injection Ho as <-);
      injection Ho as <-;
      match goal with |- isAppError (if isAppError ?e1 then _ else _) = true =>
        destruct (isAppError e1) eqn:?; [assumption|reflexivity] end.
Qed.

End Outcomes.

Section Search.
Context `{Platform}.

Lemma matches_pure term r w x w' :
  DataManager.matches term r w = (x, w') -> w' = w.
Proof.
  unfold DataManager.matches, bind, Person.deref, lift, ret.
  destruct (objs w !! r) as [p|]; [|now intros [= _ <-]].
  destruct (DataManager.callToLowerCase (nome p)); [|now intros [= _ <-]].
  destruct (includes _ _); [now intros [= _ <-]|].
  destruct (DataManager.callToLowerCase (email p)); [|now intros [= _ <-]].
  destruct (includes _ _); now intros [= _ <-].
Qed.

Lemma filterE_matches term l : forall w found w',
  filterE (DataManager.matches term) l w = (Ok found, w') ->
  w' = w /\ sublist found l
  /\ forall r, r ∈ found <-> r ∈ l /\ DataManager.matches term r w = (Ok true, w).
Proof.
  induction l as [|x l IH]; intros w found w'; cbn [filterE].
  - intros [= <- <-]. split; [reflexivity|]. split; [constructor|].
    intros r. split; [intros Hr|intros [Hr _]]; now apply elem_of_nil in Hr.
  - intros Hb. apply bind_Ok in Hb as (b & w1 & Hm & Hb).
    pose proof (matches_pure _ _ _ _ _ Hm) as ->.
    apply bind_Ok in Hb as (ys & w2 & Hf & Hb). injection Hb as <- <-.
    apply IH in Hf as (-> & Hsub & Hiff). split; [reflexivity|].
    destruct b.
    + split; [now constructor|]. intros r. rewrite !elem_of_cons, Hiff. split.
      * intros [->|[Hr Hrm]]; [split; [now left|assumption]|split; [now right|assumption]].
      * intros [[->|Hr] Hrm]; [now left|right; now split].
    + split; [now constructor|]. intros r. rewrite elem_of_cons, Hiff. split.
      * intros [Hr Hrm]. split; [now right|assumption].
      * intros [[->|Hr] Hrm]; [rewrite Hm in Hrm; discriminate|now split].
Qed.

(** X12: searchPersons with a non-empty text returns, in a new array and in
    their order, records of the collection and only those: every record
    found has the term (the text in lower case, trimmed) in its name or
    its email taken in lower case, or in its phone; and every record
    whose name has it is found.  With no text it returns them all. *)
Theorem searchPersons_finds (query : jsval) (w w1 : World) (a : ref) :
  DataManager.searchPersons query w = (Ok a, w1) ->
  exists l found,
    arrs w !! persons w = Some l
    /\ arrs w1 !! a = Some found
    /\ sublist found l
    /\ (truthy query = false \/ isString query = false -> found = l)
    /\ (forall q, query = VStr q -> q <> [] ->
        let term := trim (toLowerCase q) in
        (forall r, r ∈ found ->
           exists p, objs w !! r = Some p
             /\ ((exists n, nome p = VStr n /\ includes (toLowerCase n) term = true)
                 \/ (exists e, email p = VStr e /\ includes (toLowerCase e) term = true)
                 \/ DataManager.callIncludes (telefone p) term = Ok true))
        /\ (forall r p n, r ∈ l -> objs w !! r = Some p -> nome p = VStr n ->
              includes (toLowerCase n) term = true -> r ∈ found)).
Proof.
  assert (Hall : forall w a w1, DataManager.getAllPersons w = (Ok a, w1) ->
            exists l, arrs w !! persons w = Some l /\ arrs w1 !! a = Some l).
  { clear. intros w a w1 Hg. unfold DataManager.getAllPersons in Hg.
    apply bind_Ok in Hg as (l & w0 & H0 & Hg). apply thisPersons_Ok in H0 as [Hl ->].
    injection Hg as <- <-. exists l. split; [assumption|].
    unfold set_arrs. cbn [arrs]. apply list_lookup_middle. reflexivity. }
  intros Hs. unfold DataManager.searchPersons in Hs.
  assert (Hfalsy : (truthy query = false \/ isString query = false) ->
                   DataManager.getAllPersons w = (Ok a, w1)).
  { intros [Hf|Hf]; destruct query as [| | | |q| | |]; try exact Hs; try discriminate Hf.
    now rewrite Hf in Hs. }
  assert (Hwhole : (truthy query = false \/ isString query = false) ->
    exists l found, arrs w !! persons w = Some l /\ arrs w1 !! a = Some found
      /\ sublist found l
      /\ (truthy query = false \/ isString query = false -> found = l)
      /\ (forall q, query = VStr q -> q <> [] ->
          let term := trim (toLowerCase q) in
          (forall r, r ∈ found ->
             exists p, objs w !! r = Some p
               /\ ((exists n, nome p = VStr n /\ includes (toLowerCase n) term = true)
                   \/ (exists e, email p = VStr e
                                 /\ includes (toLowerCase e) term = true)
                   \/ DataManager.callIncludes (telefone p) term = Ok true))
          /\ (forall r p n, r ∈ l -> objs w !! r = Some p -> nome p = VStr n ->
                includes (toLowerCase n) term = true -> r ∈ found))).
  { intros Hc. destruct (Hall _ _ _ (Hfalsy Hc)) as (l & Hl & Ha). exists l, l.
    split; [assumption|]. split; [assumption|]. split; [reflexivity|].
    split; [reflexivity|]. intros q -> Hq. exfalso.
    destruct Hc as [Hc|Hc]; [|discriminate Hc]. destruct q; [congruence|discriminate Hc]. }
  destruct (truthy query) eqn:Etruthy; [|apply Hwhole; now left].
  destruct (isString query) eqn:Estring; [|apply Hwhole; now right].
  clear Hwhole.
  destruct query as [| | | |q| | |]; try discriminate Estring.
  cbn [negb] in Hs.
  apply bind_Ok in Hs as (l & w0 & H0 & Hs). apply thisPersons_Ok in H0 as [Hl ->].
  apply bind_Ok in Hs as (found & wq & Hf & Hs).
  apply filterE_matches in Hf as (-> & Hsub & Hiff). injection Hs as <- <-.
  exists l, found. split; [assumption|].
  split; [unfold set_arrs; cbn [arrs]; apply list_lookup_middle; reflexivity|].
  split; [assumption|]. split; [intros [Hc|Hc]; discriminate Hc|].
  intros q' [= <-] Hne term. split.
  - intros r Hr. apply Hiff in Hr as [_ Hm].
    unfold DataManager.matches, bind, Person.deref, lift, ret in Hm.
    destruct (objs w !! r) as [p|]; [|discriminate]. exists p. split; [reflexivity|].
    destruct (nome p) as [| | | |n| | |]; try discriminate Hm. cbn in Hm.
    destruct (includes (toLowerCase n) _) eqn:En; [left; eauto|].
    destruct (email p) as [| | | |e| | |]; try discriminate Hm. cbn in Hm.
    destruct (includes (toLowerCase e) _) eqn:Ee; [right; left; eauto|].
    right. right. injection Hm as Hm. exact Hm.
  - intros r p n Hr Hp Hn Hinc. apply Hiff. split; [assumption|].
    unfold DataManager.matches, bind, Person.deref, lift, ret. rewrite Hp, Hn. cbn.
    fold term. now rewrite Hinc.
Qed.

End Search.

Section Load.
Context `{Platform}.

Lemma storeSame_refl w : storeSame w w.
Proof. repeat split. Qed.

Lemma storeSame_trans w1 w2 w3 : storeSame w1 w2 -> storeSame w2 w3 -> storeSame w1 w3.
Proof. intros (A1 & A2 & A3) (B1 & B2 & B3). repeat split; congruence. Qed.

Lemma keeps_ret {A} (a : A) : keepsStore (ret a).
Proof. intros w r w' [= _ <-]. apply storeSame_refl. Qed.

Lemma keeps_lift {A} (x : result A) : keepsStore (lift x).
Proof. intros w r w' [= _ <-]. apply storeSame_refl. Qed.

Lemma keeps_bind {A B} (m : M A) (k : A -> M B) :
  keepsStore m -> (forall a, keepsStore (k a)) -> keepsStore (bind m k).
Proof.
  intros Hm Hk w r w'. unfold bind. destruct (m w) as [[a|e] w1] eqn:Em.
  - intros Hka. eapply storeSame_trans; [exact (Hm _ _ _ Em)|exact (Hk _ _ _ _ Hka)].
  - intros [= _ <-]. exact (Hm _ _ _ Em).
Qed.

Lemma keeps_now : keepsStore Person.now.
Proof. intros w r w' [= _ <-]. repeat split. Qed.

Lemma keeps_randomSuffix : keepsStore Person.randomSuffix.
Proof. intros w r w' [= _ <-]. repeat split. Qed.

Lemma keeps_alloc p : keepsStore (Person.alloc p).
Proof. intros w r w' [= _ <-]. repeat split. Qed.

Lemma keeps_deref r : keepsStore (Person.deref r).
Proof.
  intros w x w'. unfold Person.deref. destruct (objs w !! r); intros [= _ <-];
    apply storeSame_refl.
Qed.

Lemma keeps_set_objs f : keepsStore (modify (set_objs f)).
Proof. intros w r w' [= _ <-]. repeat split. Qed.

(** [new Person(...)] and [Person.fromJSON] write neither the arrays
    nor the store *)
Lemma keeps_new_Person n d t e : keepsStore (Person.new_Person n d t e).
Proof.
  unfold Person.new_Person, Person.generateId.
  repeat first [ apply keeps_now | apply keeps_randomSuffix | apply keeps_ret
               | apply keeps_alloc | apply keeps_bind; [|intros ?] ].
  destruct (truthy n); [apply keeps_lift|apply keeps_ret].
Qed.

Lemma keeps_fromJSON data : keepsStore (Person.fromJSON data).
Proof.
  unfold Person.fromJSON.
  repeat first [ apply keeps_lift | apply keeps_new_Person | apply keeps_deref
               | apply keeps_set_objs | apply keeps_ret | apply keeps_bind; [|intros ?] ].
Qed.

Lemma fromJSON_frame data w r w' :
  Person.fromJSON data w = (r, w') ->
  arrs w' = arrs w /\ persons w' = persons w /\ localStorage w' = localStorage w.
Proof. apply keeps_fromJSON. Qed.

Lemma mapE_fromJSON_frame l : forall w r w',
  mapE Person.fromJSON l w = (r, w') ->
  arrs w' = arrs w /\ persons w' = persons w /\ localStorage w' = localStorage w.
Proof.
  induction l as [|x l IH]; intros w r w'; cbn [mapE].
  - now intros [= _ <-].
  - unfold bind at 1. destruct (Person.fromJSON x w) as [[y|e] w1] eqn:Ex;
      apply fromJSON_frame in Ex as (E1 & E2 & E3); [|intros [= _ <-]; auto].
    unfold bind. destruct (mapE Person.fromJSON l w1) as [[ys|e] w2] eqn:El;
      apply IH in El as (L1 & L2 & L3); intros [= _ <-]; repeat split; congruence.
Qed.

(** only a text that opens with a bracket parses to an array *)
Lemma parse_array_bracket text l :
  JSON.parse text = Some (VArr l) ->
  head (JSON.skipWs text) = Some "["%char.
Proof.
  unfold JSON.parse. cbn [JSON.parseValue].
  destruct (JSON.skipWs text) as [|c r]; [discriminate|].
  destruct (code c =? 34) eqn:E34.
  { destruct (JSON.parseString r) as [[str rest]|]; [|discriminate].
    destruct (JSON.skipWs rest); discriminate. }
  destruct (code c =? 91) eqn:E91.
  { intros _. apply Z.eqb_eq in E91. cbn [head]. f_equal.
    apply code_inj. rewrite E91. reflexivity. }
  destruct (code c =? 123).
  { destruct (JSON.skipWs r) as [|c2 r2]; [discriminate|].
    destruct (code c2 =? 125); [destruct (JSON.skipWs r2); discriminate|].
    destruct (JSON.parseMembers _ r) as [[ps rest]|]; [|discriminate].
    destruct (JSON.skipWs rest); discriminate. }
  destruct (code c =? 110).
  { destruct (JSON.eat _ r) as [rest|]; [|discriminate].
    destruct (JSON.skipWs rest); discriminate. }
  destruct (code c =? 116).
  { destruct (JSON.eat _ r) as [rest|]; [|discriminate].
    destruct (JSON.skipWs rest); discriminate. }
  destruct (code c =? 102).
  { destruct (JSON.eat _ r) as [rest|]; [|discriminate].
    destruct (JSON.skipWs rest); discriminate. }
  destruct (code c =? 45).
  { destruct (JSON.parseNat r) as [[n rest]|]; [|discriminate].
    destruct (JSON.skipWs rest); discriminate. }
  destruct (JSON.parseNat (c :: r)) as [[n rest]|]; [|discriminate].
  destruct (JSON.skipWs rest); discriminate.
Qed.

(** [map] stops at a null entry: [fromJSON] cannot read it *)
Lemma mapE_fromJSON_null l : forall w,
  VNull ∈ l -> exists e w', mapE Person.fromJSON l w = (Throw e, w').
Proof.
  induction l as [|x l IH]; intros w Hin; [now apply elem_of_nil in Hin|].
  cbn [mapE]. unfold bind at 1.
  destruct (Person.fromJSON x w) as [[r|e] w1] eqn:Ex; [|eauto].
  apply elem_of_cons in Hin as [<-|Hin]; [discriminate Ex|].
  destruct (IH w1 Hin) as (e & w2 & Hm). unfold bind. rewrite Hm. eauto.
Qed.

(** X13: loadPersons with nothing under the storage key gives the empty
    collection.  A stored text that does not open, after white space,
    with a bracket, and so is not the JSON text of an array, or that is
    an array with a null entry, makes it throw; and whenever it throws,
    it throws the one storage error of loading, leaves the collection
    empty and does not touch the store. *)
Theorem loadPersons_edges (w : World) :
  (lookupItem DataManager.storageKey (localStorage w) = None
   \/ lookupItem DataManager.storageKey (localStorage w) = Some [] ->
   exists w', DataManager.loadPersons w = (Ok tt, w')
              /\ DataManager.collection w' = Some []
              /\ localStorage w' = localStorage w)
  /\ (forall text, lookupItem DataManager.storageKey (localStorage w) = Some text ->
        text <> [] ->
        head (JSON.skipWs text) <> Some "["%char
        \/ (exists l, JSON.parse text = Some (VArr l) /\ VNull ∈ l) ->
        exists w', DataManager.loadPersons w
                   = (Throw (AppError (js "Erro ao carregar dados do armazenamento")
                                      STORAGE_ERROR), w'))
  /\ (forall e w', DataManager.loadPersons w = (Throw e, w') ->
        e = AppError (js "Erro ao carregar dados do armazenamento") STORAGE_ERROR
        /\ DataManager.collection w' = Some []
        /\ localStorage w' = localStorage w).
Proof.
  assert (Hnew : forall w0, DataManager.collection
            (set_persons (length (arrs w0)) (set_arrs (fun h => h ++ [[]]) w0)) = Some []).
  { intros w0. unfold DataManager.collection, set_persons, set_arrs. cbn [arrs persons].
    rewrite list_lookup_middle by reflexivity. reflexivity. }
  split; [|split].
  - intros Hnone. eexists.
    unfold DataManager.loadPersons, try_catch, bind, getItem.
    split; [destruct Hnone as [-> | ->]; reflexivity|].
    split; [apply Hnew|reflexivity].
  - intros text Hl Hne Hbad.
    unfold DataManager.loadPersons, try_catch, bind at 1, getItem. rewrite Hl.
    destruct text as [|c text]; [congruence|].
    destruct Hbad as [Hstart|(l & Hp & Hnull)].
    + destruct (JSON.parse (c :: text)) as [v|] eqn:Hp; [|eexists; reflexivity].
      destruct v; try (eexists; reflexivity).
      apply parse_array_bracket in Hp. contradiction.
    + rewrite Hp. destruct (mapE_fromJSON_null l w Hnull) as (e & w1 & Hm).
      unfold bind. rewrite Hm. eexists. reflexivity.
  - intros e w' Hload. unfold DataManager.loadPersons in Hload.
    apply try_catch_Throw in Hload as (e0 & w1 & Hm & Hh).
    assert (Hstore : localStorage w1 = localStorage w).
    { apply bind_Throw in Hm as [Hm|(data & w2 & Hg & Hm)];
        [unfold getItem in Hm; discriminate Hm|].
      unfold getItem in Hg. injection Hg as <- <-.
      destruct (lookupItem _ _) as [[|c text]|]; try discriminate Hm.
      destruct (JSON.parse _) as [v|]; [|now injection Hm as _ <-].
      destruct v; try (now injection Hm as _ <-).
      apply bind_Throw in Hm as [Hm|(loaded & w2 & Hl & Hm)]; [|discriminate Hm].
      now apply mapE_fromJSON_frame in Hm as (_ & _ & Hm). }
    injection Hh as <- <-. split; [reflexivity|]. split; [apply Hnew|exact Hstore].
Qed.

End Load.

Section Persistence.
Context `{Platform}.

Lemma toISOString_truthy t : truthy (VStr (DateTime.toISOString t)) = true.
Proof.
  unfold DateTime.toISOString. cbv zeta.
  match goal with |- truthy (VStr (?ys ++ _)) = true => destruct ys; reflexivity end.
Qed.

(** what [JSON] reads back from the text of a storable record *)
Lemma elemNorm_toJSON p c u :
  JSON.norm (id p) = Some (id p) ->
  (exists n, nome p = VStr n) ->
  JSON.norm (dataNascimento p) = Some (dataNascimento p) ->
  JSON.norm (telefone p) = Some (telefone p) ->
  JSON.norm (email p) = Some (email p) ->
  createdAt p = Some c -> updatedAt p = Some u ->
  elemNorm (Person.toJSON p)
  = VObj [ (js "id", id p); (js "nome", nome p);
           (js "dataNascimento", dataNascimento p);
           (js "telefone", telefone p); (js "email", email p);
           (js "createdAt", VStr (DateTime.toISOString c));
           (js "updatedAt", VStr (DateTime.toISOString u)) ].
Proof.
  intros Hid [n Hn] Hd Ht He Hc Hu. unfold elemNorm, Person.toJSON. rewrite norm_obj.
  cbn [omap list_omap memberNorm]. rewrite Hid, Hd, Ht, He, Hn, Hc, Hu. reflexivity.
Qed.

Lemma fromJSON_stored p w :
  storable p ->
  exists w',
    Person.fromJSON (elemNorm (Person.toJSON p)) w = (Ok (length (objs w)), w')
    /\ objs w' = objs w ++ [p] /\ storeSame w w'.
Proof.
  intros (Hid & Hidn & (n & Hn & Hupper) & Hd & Ht & He & (c & Hc & Hpc) & (u & Hu & Hpu)).
  rewrite (elemNorm_toJSON p c u) by eauto.
  eexists. unfold Person.fromJSON. cbn [getProp].
  change (assoc (js "nome") _) with (Some (nome p)).
  change (assoc (js "dataNascimento") _) with (Some (dataNascimento p)).
  change (assoc (js "telefone") _) with (Some (telefone p)).
  change (assoc (js "email") _) with (Some (email p)).
  change (assoc (js "id") _) with (Some (id p)).
  change (assoc (js "createdAt") _) with (Some (VStr (DateTime.toISOString c))).
  change (assoc (js "updatedAt") _) with (Some (VStr (DateTime.toISOString u))).
  unfold bind, lift. cbv beta iota.
  unfold Person.new_Person, Person.generateId. rewrite Hn.
  assert (Hname : (if truthy (VStr n) then lift (Person.callToUpperCase (VStr n))
                   else ret (VStr []))
                  = ret (VStr n)).
  { destruct n as [|a n]; [reflexivity|]. cbn [truthy Person.callToUpperCase].
    rewrite Hupper by discriminate. reflexivity. }
  rewrite Hname.
  unfold bind, lift, ret, modify, Person.now, Person.randomSuffix, Person.alloc, Person.deref.
  cbv beta iota.
  unfold set_objs, tick. cbn [objs arrs persons ticks localStorage quota fst snd].
  rewrite list_lookup_middle by reflexivity. cbv beta iota.
  cbn [id nome dataNascimento telefone email createdAt updatedAt].
  rewrite Hid, !toISOString_truthy. cbv iota. cbn [Person.new_Date]. rewrite Hpc, Hpu.
  split; [reflexivity|]. cbn [objs arrs persons localStorage].
  split; [|repeat split].
  rewrite <- Hn, <- Hc, <- Hu.
  replace (length (objs w)) with (length (objs w) + 0)%nat by lia.
  rewrite insert_app_r. destruct p. reflexivity.
Qed.

Lemma mapE_fromJSON_stored ps :
  Forall storable ps -> forall w,
  exists w',
    mapE Person.fromJSON (map elemNorm (map Person.toJSON ps)) w
    = (Ok (seq (length (objs w)) (length ps)), w')
    /\ objs w' = objs w ++ ps /\ storeSame w w'.
Proof.
  induction 1 as [|p ps Hp Hps IH]; intros w.
  - exists w. split; [reflexivity|]. split; [now rewrite app_nil_r|apply storeSame_refl].
  - destruct (fromJSON_stored p w Hp) as (w1 & Hf & Ho & Hs).
    destruct (IH w1) as (w2 & Hm & Ho2 & Hs2).
    exists w2. cbn [map mapE]. unfold bind. rewrite Hf, Hm. cbn [ret length seq].
    split; [|split; [|eapply storeSame_trans; eassumption]].
    + replace (length (objs w1)) with (S (length (objs w)))
        by (rewrite Ho, length_app; cbn; lia).
      reflexivity.
    + rewrite Ho2, Ho, <- app_assoc. reflexivity.
Qed.

Lemma mapM_lookup_seq (pre ps : list PersonObj) :
  mapM (fun r => (pre ++ ps) !! r) (seq (length pre) (length ps)) = Some ps.
Proof.
  revert pre. induction ps as [|p ps IH]; intros pre; [reflexivity|].
  cbn [length seq]. cbn. rewrite list_lookup_middle by reflexivity. cbn.
  specialize (IH (pre ++ [p])). rewrite <- app_assoc, length_app in IH. cbn in IH.
  replace (length pre + 1)%nat with (S (length pre)) in IH by lia.
  rewrite IH. reflexivity.
Qed.

(** loading a store that holds the text of storable records *)
Lemma loadPersons_reads ps text w :
  Forall storable ps ->
  JSON.stringify (VArr (map Person.toJSON ps)) = Some text ->
  lookupItem DataManager.storageKey (localStorage w) = Some text ->
  exists w',
    DataManager.loadPersons w = (Ok tt, w')
    /\ DataManager.collection w' = Some ps
    /\ localStorage w' = localStorage w.
Proof.
  intros Hall Ht Hl.
  destruct (parse_stringify _ _ Ht) as (v & Hn & Hp & _ & _).
  rewrite norm_arr in Hn. injection Hn as <-.
  destruct (mapE_fromJSON_stored ps Hall w) as (w1 & Hm & Ho & (S1 & S2 & S3)).
  eexists. unfold DataManager.loadPersons, try_catch, bind at 1, getItem. rewrite Hl.
  rewrite stringify_arr in Ht. injection Ht as <-. rewrite Hp.
  unfold bind. rewrite Hm. cbn.
  split; [reflexivity|]. split; [|exact S3].
  unfold DataManager.collection, set_persons, set_arrs. cbn [arrs persons objs].
  rewrite list_lookup_middle by reflexivity. rewrite Ho. apply mapM_lookup_seq.
Qed.

(** X14: What savePersons wrote, loadPersons reads back: when the records of
    the collection are storable, loading from the store savePersons
    left, in any session, gives a collection of the same records, field
    for field. *)
Theorem savePersons_loadPersons (w w1 w2 : World) (ps : list PersonObj) :
  DataManager.savePersons w = (Ok tt, w1) ->
  DataManager.collection w = Some ps ->
  Forall storable ps ->
  localStorage w2 = localStorage w1 ->
  exists w3,
    DataManager.loadPersons w2 = (Ok tt, w3)
    /\ DataManager.collection w3 = Some ps
    /\ localStorage w3 = localStorage w1.
Proof.
  intros Hs Hc Hall Hstore.
  apply savePersons_Ok in Hs as (_ & ps' & text & Hc' & Ht & Hl).
  rewrite Hc in Hc'. injection Hc' as <-.
  rewrite <- Hstore in Hl.
  destruct (loadPersons_reads ps text w2 Hall Ht Hl) as (w3 & Hload & Hcol & Hst).
  exists w3. repeat split; congruence.
Qed.

End Persistence.

Section Backups.
Context `{Platform}.

(** [getBackups] reads the store and nothing else *)
Lemma getBackups_reads w :
  exists v, DataBackup.getBackups w = (Ok v, w)
            /\ forall w1, localStorage w1 = localStorage w ->
                          DataBackup.getBackups w1 = (Ok v, w1).
Proof.
  unfold DataBackup.getBackups, bind, getItem, ret.
  destruct (lookupItem _ (localStorage w)) as [[|c text]|] eqn:El.
  - eexists. split; [reflexivity|]. intros w1 ->. now rewrite El.
  - destruct (JSON.parse (c :: text)) as [v|] eqn:Ep;
      (eexists; split; [reflexivity|]; intros w1 ->; now rewrite El, Ep).
  - eexists. split; [reflexivity|]. intros w1 ->. now rewrite El.
Qed.

Lemma take_cap {A} (n : nat) (l : list A) :
  (if (n <? length l)%nat then take n l else l) = take n l.
Proof.
  destruct (n <? length l)%nat eqn:E; [reflexivity|].
  apply Nat.ltb_ge in E. now rewrite take_ge.
Qed.

(** what a [createBackup] that returns leaves in the store, from what
    was there *)
Lemma createBackup_keeps data w bid w' old :
  DataBackup.createBackup data w = (Ok bid, w') ->
  fst (DataBackup.getBackups w) = Ok (VArr old) ->
  exists text clone t,
    JSON.stringify data = Some text
    /\ JSON.norm data = Some clone
    /\ JSON.stringify clone = Some text
    /\ DataBackup.getBackups w'
       = (Ok (VArr (take DataBackup.maxBackups
                      (snapshot bid t clone (hex (fold_left DataBackup.hashStep text 0))
                       :: map elemNorm old))), w').
Proof.
  intros Hc Hold.
  destruct (getBackups_reads w) as (v & Hg & Hg1). rewrite Hg in Hold.
  cbn in Hold. injection Hold as ->.
  revert Hc.
  unfold DataBackup.createBackup, try_catch, bind.
  unfold DataBackup.generateBackupId, Person.now, Person.randomSuffix, bind, ret, lift.
  unfold DataBackup.calculateChecksum.
  destruct (JSON.stringify data) as [text|] eqn:Es; [|discriminate].
  destruct (parse_stringify _ _ Es) as (clone & Hn & Hp & Hs' & Hn').
  rewrite Hp. rewrite (Hg1 (tick (tick (tick w)))) by reflexivity.
  rewrite take_cap.
  destruct (JSON.stringify (VArr _)) as [text2|] eqn:Et;
    [|rewrite stringify_arr in Et; discriminate Et].
  unfold setItem. destruct (_ <=? _)%nat; [|discriminate].
  intros [= <- <-].
  exists text, clone, (DateTime.toISOString (clock (ticks (tick (tick w))))).
  split; [reflexivity|]. split; [exact Hn|]. split; [exact Hs'|].
  destruct (parse_stringify _ _ Et) as (v' & Hnv & Hpv & _ & _).
  rewrite norm_arr in Hnv. injection Hnv as <-.
  erewrite getBackups_parsed; [|apply lookupItem_putItem|exact Hpv].
  f_equal. f_equal. f_equal.
  change DataBackup.maxBackups with 5%nat. cbn [take map].
  rewrite <- fmap_take. f_equal.
  apply (elemNorm_snapshot _ _ _ _ _ Hn').
Qed.




(** X17: autoBackup adds no snapshot for data that the newest snapshot already
    holds: right after createBackup of an array, autoBackup of the same
    array leaves the state exactly as it is. *)
Theorem autoBackup_skips_unchanged (items : list jsval) (w w' : World)
    (bid : jsstring) :
  DataBackup.createBackup (VArr items) w = (Ok bid, w') ->
  DataBackup.autoBackup (VArr items) w' = (Ok tt, w').
Proof.
  intros Hc.
  destruct (getBackups_reads w) as (v & Hg & _).
  assert (Hold : exists old, v = VArr old).
  { revert Hc. unfold DataBackup.createBackup, try_catch, bind.
    unfold DataBackup.generateBackupId, Person.now, Person.randomSuffix, bind, ret, lift.
    destruct (JSON.stringify (VArr items)) as [text|]; [|discriminate].
    destruct (JSON.parse text); [|discriminate].
    destruct (DataBackup.calculateChecksum _); [|discriminate].
    destruct (getBackups_reads w) as (v' & Hg' & Hg1). rewrite Hg in Hg'.
    injection Hg' as <-. rewrite (Hg1 (tick (tick (tick w)))) by reflexivity.
    destruct v; try discriminate. eauto. }
  destruct Hold as [old ->].
  destruct (createBackup_keeps _ _ _ _ old Hc) as (text & clone & t & Hs & Hn & Hsc & Hgk);
    [now rewrite Hg|].
  unfold DataBackup.autoBackup, try_catch, bind. rewrite Hgk.
  change DataBackup.maxBackups with 5%nat. cbn [take DataBackup.index0 lift].
  destruct (snapshot_fields bid t clone (hex (fold_left DataBackup.hashStep text 0)))
    as (_ & Hdata & _ & Htruthy).
  rewrite Htruthy. cbn [negb]. rewrite Hdata.
  rewrite norm_arr in Hn. injection Hn as <-.
  unfold DataBackup.shouldCreateBackup. cbn [getProp].
  change (str_eqb (js "length") (js "length")) with true. cbv iota.
  cbn [strictEq]. rewrite length_map, Z.eqb_refl. cbn [negb].
  unfold DataBackup.calculateChecksum. rewrite Hs, Hsc, str_eqb_refl. reflexivity.
Qed.

(** the hash of [calculateChecksum] stays a signed 32-bit integer *)
Lemma hash_int32 text :
  - 2 ^ 31 <= fold_left DataBackup.hashStep text 0 < 2 ^ 31.
Proof.
  assert (Hgen : forall h, - 2 ^ 31 <= h < 2 ^ 31 ->
                           - 2 ^ 31 <= fold_left DataBackup.hashStep text h < 2 ^ 31).
  { induction text as [|c text IH]; intros h Hh; [exact Hh|].
    cbn [fold_left]. apply IH. unfold DataBackup.hashStep, DataBackup.toInt32.
    pose proof (Z.mod_pos_bound
                  (((Z.shiftl h 5 + 2 ^ 31) mod 2 ^ 32 - 2 ^ 31 - h + code c) + 2 ^ 31)
                  (2 ^ 32) ltac:(lia)).
    lia. }
  apply Hgen. lia.
Qed.

(** X18: calculateChecksum is the hexadecimal text of a signed 32-bit
    integer computed from the JSON text of the data alone: data and what
    JSON reads back from their text have the same checksum; and it
    throws when the data have no JSON text. *)
Theorem calculateChecksum_of_text (data : jsval) :
  (forall text, JSON.stringify data = Some text ->
     exists h clone,
       - 2 ^ 31 <= h < 2 ^ 31
       /\ DataBackup.calculateChecksum data = Ok (hex h)
       /\ JSON.parse text = Some clone
       /\ DataBackup.calculateChecksum clone = Ok (hex h))
  /\ (JSON.stringify data = None ->
      exists e, DataBackup.calculateChecksum data = Throw e /\ isAppError e = false).
Proof.
  split.
  - intros text Hs. destruct (parse_stringify _ _ Hs) as (clone & _ & Hp & Hsc & _).
    exists (fold_left DataBackup.hashStep text 0), clone.
    split; [apply hash_int32|]. unfold DataBackup.calculateChecksum.
    rewrite Hs, Hsc. repeat split. exact Hp.
  - intros Hs. unfold DataBackup.calculateChecksum. rewrite Hs. eexists.
    split; reflexivity.
Qed.

End Backups.

Section Undo.
Context `{Platform}.

(** X19: restoreFromBackup brings back the records a backup was made of:
    after createBackup of the data of storable records, in any later
    state with that store, restoreFromBackup of the id it returned makes
    the collection those records again, field for field, also when the
    store then refuses the write of the collection. *)
Theorem restoreFromBackup_restores (w w1 w2 : World) (bid : jsstring)
    (ps : list PersonObj) :
  Forall storable ps ->
  DataBackup.createBackup (VArr (map Person.toJSON ps)) w = (Ok bid, w1) ->
  localStorage w2 = localStorage w1 ->
  exists r w3,
    DataManager.restoreFromBackup (VStr bid) w2 = (r, w3)
    /\ DataManager.collection w3 = Some ps
    /\ (r = Ok true \/ exists e, r = Throw e /\ persistFailure e).
Proof.
  intros Hall Hc Hstore.
  destruct (createBackup_stored _ _ _ _ Hc)
    as (text & clone & t & l & text2 & Hs & Hn & Hsc & Hnc & Hl & Ht).
  rewrite <- Hstore in Hl.
  pose proof (restoreBackup_newest _ _ _ _ _ _ _ _ _ Hl Ht Hnc Hsc) as Hr.
  rewrite str_eqb_refl in Hr.
  rewrite norm_arr in Hn. injection Hn as <-.
  destruct (mapE_fromJSON_stored ps Hall w2) as (w' & Hm & Ho & (S1 & S2 & S3)).
  unfold DataManager.restoreFromBackup, try_catch, bind at 1. rewrite Hr.
  unfold bind at 1. rewrite Hm.
  unfold bind at 1, DataManager.allocArr at 1.
  unfold bind at 1, DataManager.assignPersons at 1, modify.
  unfold bind.
  match goal with |- context [DataManager.savePersons ?w0] =>
    destruct (DataManager.savePersons w0) as [[[]|e] w3] eqn:Es;
    destruct (quiet_savePersons _ _ _ Es) as (Q1 & Q2 & Q3);
    cbn [objs arrs persons set_persons set_arrs] in Q1, Q2, Q3
  end.
  - exists (Ok true), w3. split; [reflexivity|]. split; [|now left].
    unfold DataManager.collection. rewrite Q2, Q3, Q1.
    rewrite list_lookup_middle by reflexivity. rewrite Ho. apply mapM_lookup_seq.
  - pose proof (savePersons_Throw _ _ _ Es) as Hpf.
    rewrite rethrow_persist by assumption.
    exists (Throw e), w3. split; [reflexivity|]. split; [|right; eauto].
    unfold DataManager.collection. rewrite Q2, Q3, Q1.
    rewrite list_lookup_middle by reflexivity. rewrite Ho. apply mapM_lookup_seq.
Qed.

Lemma findById_spec wanted l : forall w found w',
  DataManager.findById wanted l w = (Ok found, w') ->
  w' = w
  /\ match found with
     | Some r =>
         exists i p, l !! i = Some r /\ objs w !! r = Some p
                     /\ strictEq (id p) wanted = true
                     /\ forall j rj, (j < i)%nat -> l !! j = Some rj ->
                          exists q, objs w !! rj = Some q
                                    /\ strictEq (id q) wanted = false
     | None =>
         forall j rj, l !! j = Some rj ->
           exists q, objs w !! rj = Some q /\ strictEq (id q) wanted = false
     end.
Proof.
  induction l as [|x l IH]; intros w found w'; cbn [DataManager.findById].
  - intros [= <- <-]. split; [reflexivity|]. intros j rj Hj. discriminate Hj.
  - intros Hb. apply bind_Ok in Hb as (p & w1 & Hd & Hb).
    apply deref_Ok in Hd as [Hp ->].
    destruct (strictEq (id p) wanted) eqn:Eid.
    + injection Hb as <- <-. split; [reflexivity|]. exists 0%nat, p.
      repeat split; try assumption. intros j rj Hj. lia.
    + apply IH in Hb as (-> & Hfound). split; [reflexivity|].
      destruct found as [r|].
      * destruct Hfound as (i & q & Hi & Hq & Hid & Hbefore).
        exists (S i), q. repeat split; try assumption.
        intros [|j] rj Hj Hlj; [injection Hlj as <-; eauto|].
        apply (Hbefore j rj); [lia|exact Hlj].
      * intros [|j] rj Hlj; [injection Hlj as <-; eauto|]. now apply (Hfound j rj).
Qed.

(** X20: getPersonById of an id that is not an object returns the first
    record of the collection whose id is, by [===], the one asked for,
    and null exactly when no record has it. *)
Theorem getPersonById_finds (wanted : jsval) (w w' : World) (found : option ref) :
  Spec.primitive wanted = true ->
  DataManager.getPersonById wanted w = (Ok found, w') ->
  w' = w
  /\ exists l, arrs w !! persons w = Some l
     /\ match found with
        | Some r =>
            exists i p, l !! i = Some r /\ objs w !! r = Some p
                        /\ strictEq (id p) wanted = true
                        /\ forall j rj, (j < i)%nat -> l !! j = Some rj ->
                             exists q, objs w !! rj = Some q
                                       /\ strictEq (id q) wanted = false
        | None =>
            forall j rj, l !! j = Some rj ->
              exists q, objs w !! rj = Some q /\ strictEq (id q) wanted = false
        end.
Proof.
  unfold DataManager.getPersonById. intros _ Hb.
  apply bind_Ok in Hb as (l & w1 & Hl & Hb). apply thisPersons_Ok in Hl as [Hl ->].
  apply findById_spec in Hb as (-> & Hfound). split; [reflexivity|]. eauto.
Qed.


Lemma findById_returns wanted l w :
  Forall (fun x => is_Some (objs w !! x)) l ->
  exists found, DataManager.findById wanted l w = (Ok found, w).
Proof.
  induction 1 as [|x l [p Hp] _ [found IH]]; [exists None; reflexivity|].
  cbn [DataManager.findById]. unfold bind, Person.deref. rewrite Hp.
  destruct (strictEq (id p) wanted); [exists (Some x); reflexivity|eauto].
Qed.

(** X21: A Person that addPerson accepted is found by its id: getPersonById
    of the id of the added Person returns a record of the collection
    with that id. *)
Theorem addPerson_then_getPersonById (person : ref) (w w' : World) (b : bool)
    (p : PersonObj) :
  DataManager.addPerson person w = (Ok b, w') ->
  objs w !! person = Some p ->
  strictEq (id p) (id p) = true ->
  exists r q,
    DataManager.getPersonById (id p) w' = (Ok (Some r), w')
    /\ objs w' !! r = Some q
    /\ strictEq (id q) (id p) = true.
Proof.
  intros Ha Hp Hid.
  apply addPerson_steps in Ha as (_ & p' & l & v & w2 & Hp' & Hv & _ & Hd & Hl & Hs).
  rewrite Hp in Hp'. injection Hp' as <-.
  destruct (quiet_validate _ _ _ _ Hv) as (Q1 & Q2 & Q3).
  destruct (quiet_savePersons _ _ _ Hs) as (S1 & S2 & S3). cbn in S1, S2, S3.
  assert (Hp2 : objs w2 !! person = Some p) by now rewrite Q1.
  destruct (isDuplicate_spec _ _ _ _ _ _ Hp2 Hd) as (_ & l' & Hl' & _ & Hlive).
  rewrite Hl in Hl'. injection Hl' as <-.
  assert (Hnew : arrs w' !! persons w' = Some (l ++ [person])).
  { rewrite S2, S3. apply list_lookup_insert_eq. eapply lookup_lt_Some; eassumption. }
  assert (Hall : Forall (fun x => is_Some (objs w' !! x)) (l ++ [person])).
  { apply Forall_app. split.
    - apply Forall_lookup. intros j rj Hj.
      destruct (Hlive eq_refl j rj ltac:(lia) Hj) as [q Hq]. exists q. congruence.
    - apply Forall_cons. split; [exists p; congruence|constructor]. }
  destruct (findById_returns (id p) _ _ Hall) as [found Hf].
  assert (Hg : DataManager.getPersonById (id p) w' = (Ok found, w')).
  { unfold DataManager.getPersonById, bind, DataManager.thisPersons. now rewrite Hnew. }
  destruct (findById_spec _ _ _ _ _ Hf) as (_ & Hfound).
  destruct found as [r|].
  - destruct Hfound as (i & q & _ & Hq & Hq' & _). exists r, q. repeat split; assumption.
  - destruct (Hfound (length l) person) as (q & Hq & Hne).
    { apply list_lookup_middle. reflexivity. }
    assert (q = p) by congruence. subst q. rewrite Hid in Hne. discriminate.
Qed.

End Undo.

Section ImportChecks.
Context `{Platform}.

(** X22: of a file whose JSON text the parser reads as JSON.parse does,
    importFromFile returns only the array found under [data] in that
    text, and only when the file is JSON by its type or its name; when
    the text carries a checksum, the array returned has that checksum,
    and an array with another checksum is refused as corrupted. *)
Theorem importFromFile_checks (file : option DataBackup.File) :
  Spec.plainFile file = true ->
  (forall v, DataBackup.importFromFile file = Ok v ->
     exists f text obj l,
       file = Some f
       /\ (str_eqb (DataBackup.ftype f) (js "application/json") = true
           \/ DataBackup.endsWith (DataBackup.fname f) (js ".json") = true)
       /\ DataBackup.content f = Some text
       /\ JSON.parse text = Some obj
       /\ getProp obj (js "data") = Ok (VArr l)
       /\ v = VArr l
       /\ (forall cs, getProp obj (js "checksum") = Ok cs -> truthy cs = true ->
             exists c, cs = VStr c /\ DataBackup.calculateChecksum (VArr l) = Ok c))
  /\ (forall f text obj l c c',
        file = Some f ->
        (str_eqb (DataBackup.ftype f) (js "application/json") = true
         \/ DataBackup.endsWith (DataBackup.fname f) (js ".json") = true) ->
        DataBackup.content f = Some text ->
        JSON.parse text = Some obj ->
        getProp obj (js "data") = Ok (VArr l) ->
        getProp obj (js "checksum") = Ok (VStr c) -> c <> [] ->
        DataBackup.calculateChecksum (VArr l) = Ok c' ->
        DataBackup.importFromFile file
        = if str_eqb c' c then Ok (VArr l)
          else Throw (AppError (js "Arquivo corrompido - checksum inválido")
                               STORAGE_ERROR)).
Proof.
  intros _. split.
  - intros v. unfold DataBackup.importFromFile.
    destruct file as [f|]; [|discriminate].
    destruct (negb (str_eqb (DataBackup.ftype f) _) && negb _) eqn:Ety; [discriminate|].
    destruct (DataBackup.content f) as [text|] eqn:Ec; [|discriminate].
    destruct (JSON.parse text) as [obj|] eqn:Ep;
      [|cbv zeta; destruct (isAppError _); discriminate].
    cbv zeta.
    destruct (getProp obj (js "data")) as [d|e] eqn:Ed;
      [|destruct (isAppError e); discriminate].
    destruct (negb (truthy d) || negb _) eqn:Earr; [discriminate|].
    destruct d as [| | | | | |l|];
      try (cbn [negb] in Earr; rewrite orb_true_r in Earr; discriminate Earr).
    destruct (getProp obj (js "checksum")) as [cs|e] eqn:Ecs0;
      [|destruct (isAppError e); discriminate].
    intros Hv.
    assert (Hres : v = VArr l
                   /\ (truthy cs = true ->
                       exists c, cs = VStr c
                                 /\ DataBackup.calculateChecksum (VArr l) = Ok c)).
    { destruct (truthy cs) eqn:Ecs; [|injection Hv as <-; split; [reflexivity|discriminate]].
      destruct (DataBackup.calculateChecksum (VArr l)) as [c'|e];
        [|destruct (isAppError e); discriminate].
      destruct (negb (strictEq (VStr c') cs)) eqn:Eeq; [discriminate|].
      injection Hv as <-. split; [reflexivity|]. intros _.
      destruct cs as [| | | |c| | |]; try discriminate Eeq.
      exists c. split; [reflexivity|]. cbn in Eeq. apply negb_false_iff in Eeq.
      apply str_eqb_eq in Eeq. now subst. }
    destruct Hres as [-> Hsum].
    exists f, text, obj, l. split; [reflexivity|]. split.
    { apply andb_false_iff in Ety as [Et|Et]; apply negb_false_iff in Et; auto. }
    split; [exact Ec|]. split; [exact Ep|]. split; [exact Ed|]. split; [reflexivity|].
    intros cs' Hcs'. rewrite Ecs0 in Hcs'. injection Hcs' as <-. exact Hsum.
  - intros f text obj l c c' -> Hty Hc Hp Hd Hcs Hne Hsum.
    unfold DataBackup.importFromFile.
    replace (negb (str_eqb (DataBackup.ftype f) (js "application/json"))
             && negb (DataBackup.endsWith (DataBackup.fname f) (js ".json")))
      with false by (symmetry; destruct Hty as [-> | ->];
                     [reflexivity|apply andb_false_r]).
    rewrite Hc, Hp. cbv zeta. rewrite Hd. cbn [truthy negb orb]. rewrite Hcs.
    destruct c as [|a c]; [congruence|]. cbn [truthy]. rewrite Hsum. cbn [strictEq].
    destruct (str_eqb c' (a :: c)); reflexivity.
Qed.

End ImportChecks.

(** ** The validators of the Person model *)

Lemma split_on_cons sep s : exists seg segs, split_on sep s = seg :: segs.
Proof.
  induction s as [|c s (seg & segs & IH)]; cbn [split_on]; [eauto|].
  destruct (ascii_eqb c sep); [eauto|]. rewrite IH. eauto.
Qed.

Lemma split_on_one sep s x :
  split_on sep s = [x] <->
  s = x /\ forallb (fun c => negb (ascii_eqb c sep)) x = true.
Proof.
  revert x. induction s as [|c s IH]; intros x; cbn [split_on].
  - split; [intros [= <-]; split; reflexivity|intros [<- _]; reflexivity].
  - destruct (ascii_eqb c sep) eqn:Ec.
    + split.
      * intros [= <- Hs]. destruct (split_on_cons sep s) as (seg & segs & E).
        rewrite E in Hs. discriminate.
      * intros [<- Hall]. cbn in Hall. rewrite Ec in Hall. discriminate.
    + destruct (split_on sep s) as [|seg segs] eqn:Es.
      * destruct (split_on_cons sep s) as (seg & segs & E). congruence.
      * split.
        -- intros [= <- ->]. destruct (proj1 (IH seg) eq_refl) as [-> Hall].
           split; [reflexivity|]. cbn. now rewrite Ec.
        -- intros [<- Hall]. cbn in Hall. rewrite Ec in Hall. cbn in Hall.
           pose proof (proj2 (IH s) (conj eq_refl Hall)) as Hseg.
           injection Hseg as -> ->. reflexivity.
Qed.

Lemma split_on_two sep s x y :
  split_on sep s = [x; y] <->
  s = x ++ sep :: y
  /\ forallb (fun c => negb (ascii_eqb c sep)) x = true
  /\ forallb (fun c => negb (ascii_eqb c sep)) y = true.
Proof.
  revert x. induction s as [|c s IH]; intros x; cbn [split_on].
  - split; [discriminate|]. intros [Hs _]. destruct x; discriminate Hs.
  - destruct (ascii_eqb c sep) eqn:Ec.
    + apply ascii_eqb_eq in Ec as ->. split.
      * intros [= <- Hs]. apply split_on_one in Hs as [-> Hall]. repeat split. exact Hall.
      * intros (Hs & Hx & Hy). destruct x as [|a x].
        -- injection Hs as ->. f_equal. apply split_on_one. split; [reflexivity|exact Hy].
        -- injection Hs as <- _. cbn in Hx.
           rewrite (proj2 (ascii_eqb_eq sep sep) eq_refl) in Hx. discriminate.
    + destruct (split_on sep s) as [|seg segs] eqn:Es.
      * destruct (split_on_cons sep s) as (seg & segs & E). congruence.
      * split.
        -- intros [= <- ->]. destruct (proj1 (IH seg) eq_refl) as (-> & Hx & Hy).
           split; [reflexivity|]. split; [|exact Hy]. cbn. now rewrite Ec.
        -- intros (Hs & Hx & Hy). destruct x as [|a x].
           ++ injection Hs as -> _. rewrite (proj2 (ascii_eqb_eq sep sep) eq_refl) in Ec.
              discriminate.
           ++ injection Hs as <- ->. cbn in Hx. rewrite Ec in Hx. cbn in Hx.
              pose proof (proj2 (IH x) (conj eq_refl (conj Hx Hy))) as Hseg.
              injection Hseg as -> ->. reflexivity.
Qed.

(** the part after the at sign has a dot with something on both sides
    (or, once a character has been seen, a dot with something after) *)
Lemma domainOk_spec s : forall seen,
  Person.domainOk seen s = true <->
  exists a b, s = a ++ "."%char :: b /\ b <> [] /\ (seen = true \/ a <> []).
Proof.
  induction s as [|c s IH]; intros seen; cbn [Person.domainOk].
  - split; [discriminate|]. intros (a & b & Hs & _). destruct a; discriminate Hs.
  - rewrite orb_true_iff, IH, !andb_true_iff, ascii_eqb_eq. split.
    + intros [[[-> ->] Hs]|(a & b & -> & Hb & _)].
      * exists [], s. split; [reflexivity|]. split; [now destruct s|now left].
      * exists (c :: a), b. split; [reflexivity|]. split; [assumption|now right].
    + intros ([|c' a] & b & Hs & Hb & Hseen).
      * injection Hs as -> ->. left. destruct Hseen as [->|]; [|congruence].
        repeat split. now destruct b.
      * injection Hs as <- ->. right. exists a, b. split; [reflexivity|].
        split; [assumption|]. destruct a; [now left|now right].
Qed.

Lemma notSpaceAt_noAt l :
  forallb Person.notSpaceAt l = true ->
  forallb (fun c => negb (ascii_eqb c "@"%char)) l = true.
Proof.
  induction l as [|c l IH]; [reflexivity|]. cbn. unfold Person.notSpaceAt at 1.
  intros Hl. apply andb_true_iff in Hl as [Hc Hl]. apply andb_true_iff in Hc as [_ ->].
  now apply IH.
Qed.

(** [matchEmail] is the pattern [^[^\s@]+@[^\s@]+\.[^\s@]+$] *)
Lemma matchEmail_spec s :
  Person.matchEmail s = true <->
  exists l d1 d2,
    s = l ++ "@"%char :: d1 ++ "."%char :: d2
    /\ l <> [] /\ d1 <> [] /\ d2 <> []
    /\ forallb Person.notSpaceAt l = true
    /\ forallb Person.notSpaceAt d1 = true
    /\ forallb Person.notSpaceAt d2 = true.
Proof.
  unfold Person.matchEmail. split.
  - destruct (split_on "@"%char s) as [|l [|domain [|]]] eqn:Es; try discriminate.
    apply split_on_two in Es as (-> & _ & _).
    rewrite !andb_true_iff. intros [[[Hl Hal] Had] Hd].
    apply domainOk_spec in Hd as (d1 & d2 & -> & Hd2 & [Hseen|Hd1]); [discriminate|].
    rewrite forallb_app in Had. apply andb_true_iff in Had as [Had1 Had2].
    cbn in Had2. apply andb_true_iff in Had2 as [_ Had2].
    exists l, d1, d2. repeat split; try assumption. now destruct l.
  - intros (l & d1 & d2 & -> & Hl & Hd1 & Hd2 & Hal & Had1 & Had2).
    assert (Hdom : forallb Person.notSpaceAt (d1 ++ "."%char :: d2) = true).
    { rewrite forallb_app, Had1. cbn. now rewrite Had2. }
    rewrite (proj2 (split_on_two "@"%char _ l (d1 ++ "."%char :: d2))).
    + rewrite Hal, Hdom. destruct l; [congruence|]. cbn [andb].
      apply domainOk_spec. exists d1, d2. repeat split; [assumption|now right].
    + split; [reflexivity|]. split; now apply notSpaceAt_noAt.
Qed.

(** X23: validateEmail accepts exactly the strings that, trimmed, are a local
    part, an at sign, and a domain with a dot inside it, where the local
    part and the two sides of the dot are non-empty and hold neither a
    space nor an at sign. *)
Theorem validateEmail_pattern (email : jsval) :
  Person.validateEmail email = true <->
  exists s l d1 d2,
    email = VStr s
    /\ trim s = l ++ "@"%char :: d1 ++ "."%char :: d2
    /\ l <> [] /\ d1 <> [] /\ d2 <> []
    /\ forallb Person.notSpaceAt l = true
    /\ forallb Person.notSpaceAt d1 = true
    /\ forallb Person.notSpaceAt d2 = true.
Proof.
  split.
  - destruct email as [| | | |s| | |]; try discriminate. unfold Person.validateEmail.
    destruct (negb (truthy (VStr s))); [discriminate|]. intros Hm.
    apply matchEmail_spec in Hm as (l & d1 & d2 & Hm). exists s, l, d1, d2.
    split; [reflexivity|exact Hm].
  - intros (s & l & d1 & d2 & -> & Ht & Hrest). unfold Person.validateEmail.
    destruct s as [|c s]; [destruct l; discriminate Ht|]. cbn [truthy negb].
    apply matchEmail_spec. exists l, d1, d2. split; [exact Ht|exact Hrest].
Qed.

Section Model.
Context `{Platform}.

Lemma validateBirthDateNow_reads date w :
  exists w', Person.validateBirthDateNow date w
             = (Ok (Person.validateBirthDate (clock (ticks w)) date), w')
             /\ heapSame w w' /\ localStorage w' = localStorage w.
Proof.
  unfold Person.validateBirthDateNow, Person.validateBirthDate.
  destruct (negb (truthy date)); [exists w; repeat split|].
  destruct (Person.parseBrazilianDate date); [|exists w; repeat split].
  exists (tick w). repeat split.
Qed.

(** X24: validate always returns; it reads the clock at most once and changes
    nothing else; the record is valid exactly when the four validators
    accept its fields, the birth date at that reading of the clock; and
    the errors name the failing fields, one error for each, in the order
    nome, dataNascimento, telefone, email. *)
Theorem validate_reports (p : PersonObj) (w : World) :
  exists v w',
    Person.validate p w = (Ok v, w')
    /\ heapSame w w' /\ localStorage w' = localStorage w
    /\ Person.isValid v
       = Person.validateName (nome p)
         && Person.validateBirthDate (clock (ticks w)) (dataNascimento p)
         && Person.validatePhone (telefone p)
         && Person.validateEmail (email p)
    /\ (Person.isValid v = true <-> Person.errors v = [])
    /\ map fst (Person.errors v)
       = (if Person.validateName (nome p) then [] else [js "nome"])
         ++ (if Person.validateBirthDate (clock (ticks w)) (dataNascimento p)
             then [] else [js "dataNascimento"])
         ++ (if Person.validatePhone (telefone p) then [] else [js "telefone"])
         ++ (if Person.validateEmail (email p) then [] else [js "email"])
    /\ (forall field, (length (Person.getErrorsForField v field) <= 1)%nat).
Proof.
  destruct (validateBirthDateNow_reads (dataNascimento p) w) as (w' & Hd & Hsame & Hstore).
  eexists _, w'. unfold Person.validate, bind. rewrite Hd. unfold ret.
  split; [reflexivity|]. split; [assumption|]. split; [assumption|].
  cbn [Person.isValid Person.errors].
  destruct (Person.validateName (nome p)),
    (Person.validateBirthDate (clock (ticks w)) (dataNascimento p)),
    (Person.validatePhone (telefone p)), (Person.validateEmail (email p));
    (split; [reflexivity|]); (split; [split; [try discriminate; reflexivity
                                             |try discriminate; reflexivity]|]);
    (split; [reflexivity|]);
    intros field; unfold Person.getErrorsForField; cbn [Person.errors app List.filter fst];
    repeat match goal with
           | |- context [str_eqb ?a field] => destruct (str_eqb a field) eqn:?
           end;
    cbn [length]; try lia;
    repeat match goal with
           | E : str_eqb _ field = true |- _ => apply str_eqb_eq in E; subst field
           end;
    discriminate.
Qed.

(** X25: update of a record with data whose name is absent or a string
    returns; it keeps the id and the createdAt of the record, takes from
    the data the fields that are there (the name in upper case), stamps
    updatedAt with the clock, and touches nothing else.  An update that
    throws, because the name given is not a string or the data are
    null, has changed nothing. *)
Theorem update_keeps_identity (r : ref) (data : jsval) (w : World) (p : PersonObj)
    (dn dd dt de : jsval) :
  objs w !! r = Some p ->
  getProp data (js "nome") = Ok dn ->
  getProp data (js "dataNascimento") = Ok dd ->
  getProp data (js "telefone") = Ok dt ->
  getProp data (js "email") = Ok de ->
  dn = VUndefined \/ isString dn = true ->
  (exists q w',
     Person.update r data w = (Ok tt, w')
     /\ objs w' = <[r := q]> (objs w) /\ storeSame w w'
     /\ id q = id p /\ createdAt q = createdAt p
     /\ updatedAt q = Some (clock (ticks w))
     /\ nome q = match dn with VStr n => VStr (toUpperCase n) | _ => nome p end
     /\ dataNascimento q = (if strictEq dd VUndefined then dataNascimento p else dd)
     /\ telefone q = (if strictEq dt VUndefined then telefone p else dt)
     /\ email q = (if strictEq de VUndefined then email p else de))
  /\ (forall data' e w', Person.update r data' w = (Throw e, w') ->
        w' = w /\ isAppError e = false).
Proof.
  intros Hp Hn Hd Ht He Hname. split.
  - unfold Person.update, bind, Person.deref, lift, ret, modify, Person.now.
    rewrite Hp, Hn, Hd, Ht, He.
    destruct Hname as [->|Hs].
    + cbn [strictEq negb]. do 2 eexists. split; [reflexivity|].
      split; [reflexivity|]. split; [repeat split|].
      cbn [id createdAt updatedAt nome dataNascimento telefone email].
      do 4 (split; [reflexivity|]).
      split; [now destruct (strictEq dd VUndefined)|].
      split; [now destruct (strictEq dt VUndefined)|].
      now destruct (strictEq de VUndefined).
    + destruct dn as [| | | |n| | |]; try discriminate Hs.
      cbn [strictEq negb Person.callToUpperCase]. do 2 eexists. split; [reflexivity|].
      split; [reflexivity|]. split; [repeat split|].
      cbn [id createdAt updatedAt nome dataNascimento telefone email].
      do 4 (split; [reflexivity|]).
      split; [now destruct (strictEq dd VUndefined)|].
      split; [now destruct (strictEq dt VUndefined)|].
      now destruct (strictEq de VUndefined).
  - intros data' e w'.
    unfold Person.update, bind, Person.deref, lift, ret, modify, Person.now.
    rewrite Hp. clear Hn Hd Ht He Hname.
    destruct (getProp data' (js "nome")) as [dn'|e0] eqn:En.
    2:{ intros [= <- <-]. split; [reflexivity|].
        destruct data'; try discriminate En; cbn in En; injection En as <-; reflexivity. }
    assert (Hrest : exists dd' dt' de',
      getProp data' (js "dataNascimento") = Ok dd'
      /\ getProp data' (js "telefone") = Ok dt' /\ getProp data' (js "email") = Ok de').
    { destruct data'; try discriminate En; cbn [getProp]; do 3 eexists; repeat split. }
    destruct Hrest as (dd' & dt' & de' & -> & -> & ->).
    destruct (strictEq dn' VUndefined) eqn:Eu; cbn [negb]; [discriminate|].
    destruct (Person.callToUpperCase dn') as [n|e0] eqn:Ec; [discriminate|].
    intros [= <- <-]. split; [reflexivity|].
    destruct dn'; try discriminate Ec; cbn in Ec; try discriminate Eu;
      injection Ec as <-; reflexivity.
Qed.

(** X26: what parseBrazilianDate returns for a string is a Date of the
    day written: the string, with everything but digits and slashes
    removed, reads day/month/year with the year from 1900 to 2100, the
    month from 1 to 12 and the day a day of that month, and the day of
    the month, the month and the year of the Date are those written. *)
Theorem parseBrazilianDate_calendar (s : jsstring) (date : Z) :
  Person.parseBrazilianDate (VStr s) = Some date ->
  exists ds ms ys,
    Person.matchDate (Person.cleanDate s) = Some (ds, ms, ys)
    /\ 1 <= parseDigits ds <= DateTime.daysInMonth (parseDigits ys) (parseDigits ms)
    /\ 1 <= parseDigits ms <= 12
    /\ 1900 <= parseDigits ys <= 2100
    /\ Person.getDate date = parseDigits ds
    /\ Person.getMonth date = parseDigits ms - 1
    /\ Person.getFullYear date = parseDigits ys.
Proof.
  intros Hp.
  destruct (parseBrazilianDate_year _ _ Hp) as (ds & ms & ys & Hm & Hc & -> & Hy & Hmid).
  destruct (isCalendarDate_ranges _ _ _ _ Hm Hc) as (Hd & Hmo & Hyr).
  pose proof (daysInMonth_le (parseDigits ys) (parseDigits ms)) as H31.
  exists ds, ms, ys. do 4 (split; [assumption|]).
  pose proof (partsComeBack_spec (parseDigits ys) (parseDigits ms) (parseDigits ds)
                Hmo ltac:(lia)) as Hparts.
  rewrite (proj2 (Z.leb_le _ _) (proj2 Hd)) in Hparts.
  unfold DateTime.partsComeBack in Hparts. cbv zeta in Hparts.
  apply andb_true_iff in Hparts as [Hparts _].
  apply andb_true_iff in Hparts as [Hdate Hmonth].
  apply Z.eqb_eq in Hdate, Hmonth.
  pose proof (Date_local_shift (parseDigits ys) (parseDigits ms - 1) (parseDigits ds)
                ltac:(lia)) as Hshift.
  unfold Person.getDate, Person.getMonth.
  split; [congruence|]. split; [congruence|]. assumption.
Qed.

End Model.

(** ** The properties at sample inputs *)

Lemma isDuplicate_scans_witness :
  let setup := (@Sample.ana Sample.running ;;;
                @DataManager.addPerson Sample.running 0%nat ;;;
                @Sample.bia Sample.running) in
  let w := Sample.after setup (Sample.emptyWorld 4000) in
  exists p,
    objs w !! 1%nat = Some p
    /\ w = w
    /\ exists l, arrs w !! persons w = Some l
       /\ (true = true <->
           exists j rj q, Z.of_nat j <> -1 /\ l !! j = Some rj
                          /\ objs w !! rj = Some q
                          /\ strictEq (email q) (email p)
                             || strictEq (telefone q) (telefone p) = true)
       /\ (true = false ->
           forall j rj, Z.of_nat j <> -1 -> l !! j = Some rj ->
                        exists q, objs w !! rj = Some q).
Proof.
  intros setup w.
  destruct (objs w !! 1%nat) as [p|] eqn:Ep; [|vm_compute in Ep; discriminate Ep].
  exists p. split; [reflexivity|].
  apply (isDuplicate_scans 1%nat (-1) w w true p Ep);
    vm_compute in Ep; injection Ep as <-; vm_compute; reflexivity.
Defined.

Lemma addPerson_appends_witness :
  let w := Sample.after (@Sample.ana Sample.running) (Sample.emptyWorld 4000) in
  let w' := Sample.after (@DataManager.addPerson Sample.running 0%nat) w in
  true = true
  /\ exists p l,
       objs w !! 0%nat = Some p
       /\ @validAt Sample.running p w = true
       /\ arrs w !! persons w = Some l
       /\ (forall j rj, l !! j = Some rj ->
             exists q, objs w !! rj = Some q
                       /\ strictEq (email q) (email p) = false
                       /\ strictEq (telefone q) (telefone p) = false)
       /\ objs w' = objs w /\ persons w' = persons w
       /\ arrs w' = <[persons w := l ++ [0%nat]]> (arrs w).
Proof.
  intros w w'. apply (@addPerson_appends Sample.running 0%nat w w' true).
  vm_compute. reflexivity.
Defined.

Lemma addPerson_rejects_duplicate_witness :
  let setup := (@Sample.ana Sample.running ;;;
                @DataManager.addPerson Sample.running 0%nat ;;;
                @Sample.bia Sample.running) in
  let w := Sample.after setup (Sample.emptyWorld 4000) in
  exists w',
    @DataManager.addPerson Sample.running 1%nat w = (Throw DataManager.duplicateError, w')
    /\ heapSame w w' /\ localStorage w' = localStorage w.
Proof.
  intros setup w.
  destruct (objs w !! 1%nat) as [p|] eqn:Ep; [|vm_compute in Ep; discriminate Ep].
  destruct (objs w !! 0%nat) as [q|] eqn:Eq; [|vm_compute in Eq; discriminate Eq].
  apply (@addPerson_rejects_duplicate Sample.running 1%nat w p q [0%nat] 0%nat 0%nat Ep).
  - vm_compute in Ep. injection Ep as <-. vm_compute. reflexivity.
  - vm_compute. reflexivity.
  - apply Forall_cons. split; [exists q; exact Eq|constructor].
  - reflexivity.
  - exact Eq.
  - vm_compute in Ep, Eq. injection Ep as <-. injection Eq as <-. vm_compute. reflexivity.
Defined.

Lemma deletePerson_removes_witness :
  let setup := (@Sample.ana Sample.running ;;;
                @DataManager.addPerson Sample.running 0%nat) in
  let w := Sample.after setup (Sample.emptyWorld 4000) in
  (0 < 0 \/ Z.of_nat (length [0%nat]) <= 0 ->
   @DataManager.deletePerson Sample.running 0 w
   = (Throw (AppError (js "Índice inválido") VALIDATION_ERROR), w))
  /\ (0 <= 0 < Z.of_nat (length [0%nat]) ->
      exists r w',
        @DataManager.deletePerson Sample.running 0 w = (r, w')
        /\ objs w' = objs w /\ persons w' = persons w
        /\ arrs w' = <[persons w := delete (Z.to_nat 0) [0%nat]]> (arrs w)
        /\ (r = Ok true \/ exists e, r = Throw e /\ persistFailure e)).
Proof.
  intros setup w. apply (@deletePerson_removes Sample.running 0 w [0%nat]).
  vm_compute. reflexivity.
Defined.

Lemma mutation_persisted_witness :
  let w := Sample.after (@Sample.ana Sample.running) (Sample.emptyWorld 4000) in
  let w' := Sample.after (@DataManager.addPerson Sample.running 0%nat) w in
  exists ps text,
    DataManager.collection w' = Some ps
    /\ JSON.stringify (VArr (map Person.toJSON ps)) = Some text
    /\ lookupItem DataManager.storageKey (localStorage w') = Some text.
Proof.
  intros w w'. apply (@mutation_persisted Sample.running w w').
  left. exists 0%nat, true. vm_compute. reflexivity.
Defined.

Lemma clearAllPersons_empties_witness :
  let setup := (@Sample.ana Sample.running ;;;
                @DataManager.addPerson Sample.running 0%nat) in
  let w := Sample.after setup (Sample.emptyWorld 4000) in
  let w' := Sample.after (@DataManager.clearAllPersons Sample.running) w in
  DataManager.collection w' = Some []
  /\ objs w' = objs w
  /\ arrs w' = arrs w ++ [[]]
  /\ (Ok true = Ok true
      \/ exists e, persistFailure e
           /\ Ok true = Throw (AppError (js "Erro ao limpar dados: " ++ message e)
                                       STORAGE_ERROR)).
Proof.
  intros setup w w'. apply (@clearAllPersons_empties Sample.running w w' (Ok true)).
  vm_compute. reflexivity.
Defined.

Lemma replaceAllData_adopts_witness :
  let setup := (@Sample.ana Sample.running ;;; @Sample.caio Sample.running ;;;
                DataManager.allocArr [0%nat; 1%nat]) in
  let w := Sample.after setup (Sample.emptyWorld 4000) in
  let w' := Sample.after (@DataManager.replaceAllData Sample.running 1%nat) w in
  true = true
  /\ persons w' = 1%nat /\ arrs w' = arrs w /\ objs w' = objs w
  /\ forall f, DataManager.collection (mutateArray 1%nat f w')
               = mapM (fun r => objs w !! r) (f [0%nat; 1%nat]).
Proof.
  intros setup w w'.
  apply (@replaceAllData_adopts Sample.running 1%nat w w' true [0%nat; 1%nat]).
  - vm_compute. reflexivity.
  - vm_compute. reflexivity.
Defined.

Lemma thrown_errors_are_AppErrors_witness :
  isAppError (AppError (js "Armazenamento local cheio. Remova alguns registros.")
                       STORAGE_QUOTA_ERROR) = true.
Proof.
  apply (@thrown_errors_are_AppErrors Sample.running
           (Sample.after (@Sample.ana Sample.running) (Sample.emptyWorld 10))
           (Sample.after (@Sample.ana Sample.running ;;;
                          @DataManager.addPerson Sample.running 0%nat)
                         (Sample.emptyWorld 10))).
  left. exists 0%nat. vm_compute. reflexivity.
Defined.

Lemma searchPersons_finds_witness :
  let setup := (@Sample.ana Sample.running ;;;
                @DataManager.addPerson Sample.running 0%nat) in
  let w := Sample.after setup (Sample.emptyWorld 4000) in
  let query := VStr (js "Lima") in
  let w1 := Sample.after (@DataManager.searchPersons Sample.running query) w in
  exists l found,
    arrs w !! persons w = Some l
    /\ arrs w1 !! 1%nat = Some found
    /\ sublist found l
    /\ (truthy query = false \/ isString query = false -> found = l)
    /\ (forall q, query = VStr q -> q <> [] ->
        let term := trim (@toLowerCase Sample.running q) in
        (forall r, r ∈ found ->
           exists p, objs w !! r = Some p
             /\ ((exists n, nome p = VStr n
                            /\ includes (@toLowerCase Sample.running n) term = true)
                 \/ (exists e, email p = VStr e
                               /\ includes (@toLowerCase Sample.running e) term = true)
                 \/ DataManager.callIncludes (telefone p) term = Ok true))
        /\ (forall r p n, r ∈ l -> objs w !! r = Some p -> nome p = VStr n ->
              includes (@toLowerCase Sample.running n) term = true -> r ∈ found)).
Proof.
  intros setup w query w1.
  apply (@searchPersons_finds Sample.running query w w1 1%nat).
  vm_compute. reflexivity.
Defined.

Lemma savePersons_loadPersons_witness :
  let setup := (@Sample.ana Sample.reading ;;;
                @DataManager.addPerson Sample.reading 0%nat) in
  let w := Sample.after setup (Sample.emptyWorld 4000) in
  let w1 := Sample.after (@DataManager.savePersons Sample.reading) w in
  let w2 := set_localStorage (localStorage w1) (Sample.emptyWorld 4000) in
  exists p,
    objs w !! 0%nat = Some p
    /\ exists w3,
         @DataManager.loadPersons Sample.reading w2 = (Ok tt, w3)
         /\ DataManager.collection w3 = Some [p]
         /\ localStorage w3 = localStorage w1.
Proof.
  intros setup w w1 w2.
  destruct (objs w !! 0%nat) as [p|] eqn:Ep; [|vm_compute in Ep; discriminate Ep].
  exists p. split; [reflexivity|].
  apply (@savePersons_loadPersons Sample.reading w w1 w2 [p]).
  - vm_compute. reflexivity.
  - vm_compute in Ep. injection Ep as <-. vm_compute. reflexivity.
  - vm_compute in Ep. injection Ep as <-.
    apply Forall_cons. split; [|constructor].
    unfold storable. cbn [id nome dataNascimento telefone email createdAt updatedAt].
    split; [reflexivity|]. split; [reflexivity|].
    split; [eexists; split; [reflexivity|intros _; vm_compute; reflexivity]|].
    split; [reflexivity|]. split; [reflexivity|]. split; [reflexivity|].
    split; eexists; (split; [reflexivity|vm_compute; reflexivity]).
  - reflexivity.
Defined.



Lemma autoBackup_skips_unchanged_witness :
  let items := [ Sample.entry (js "Ana Lima") (js "10/05/1995")
                              (js "(21) 98888-7777") (js "ana@x.com") ] in
  let w' := Sample.after (@DataBackup.createBackup Sample.running (VArr items))
                         (Sample.emptyWorld 4000) in
  @DataBackup.autoBackup Sample.running (VArr items) w' = (Ok tt, w').
Proof.
  intros items w'.
  apply (@autoBackup_skips_unchanged Sample.running items (Sample.emptyWorld 4000) w'
           (js "backup_1793577600000_k3x9q2m1z")).
  vm_compute. reflexivity.
Defined.

Lemma restoreFromBackup_restores_witness :
  let w := Sample.after (@Sample.ana Sample.reading) (Sample.emptyWorld 4000) in
  exists p,
    objs w !! 0%nat = Some p
    /\ let w1 := Sample.after
                   (@DataBackup.createBackup Sample.reading (VArr (map Person.toJSON [p])))
                   w in
       exists r w3,
         @DataManager.restoreFromBackup Sample.reading
           (VStr (js "backup_1793577600004_k3x9q2m1z")) w1 = (r, w3)
         /\ DataManager.collection w3 = Some [p]
         /\ (r = Ok true \/ exists e, r = Throw e /\ persistFailure e).
Proof.
  intros w.
  destruct (objs w !! 0%nat) as [p|] eqn:Ep; [|vm_compute in Ep; discriminate Ep].
  exists p. split; [reflexivity|]. intros w1.
  vm_compute in Ep. injection Ep as <-.
  apply (@restoreFromBackup_restores Sample.reading w w1 w1
           (js "backup_1793577600004_k3x9q2m1z")).
  - apply Forall_cons. split; [|constructor].
    unfold storable. cbn [id nome dataNascimento telefone email createdAt updatedAt].
    split; [reflexivity|]. split; [reflexivity|].
    split; [eexists; split; [reflexivity|intros _; vm_compute; reflexivity]|].
    split; [reflexivity|]. split; [reflexivity|]. split; [reflexivity|].
    split; eexists; (split; [reflexivity|vm_compute; reflexivity]).
  - vm_compute. reflexivity.
  - reflexivity.
Defined.

Lemma getPersonById_finds_witness :
  let setup := (@Sample.ana Sample.running ;;;
                @DataManager.addPerson Sample.running 0%nat ;;;
                @Sample.caio Sample.running ;;;
                @DataManager.addPerson Sample.running 1%nat) in
  let w := Sample.after setup (Sample.emptyWorld 4000) in
  let wanted := VStr (js "person_1793577600008_k3x9q2m1z") in
  w = w
  /\ exists l, arrs w !! persons w = Some l
     /\ exists i p, l !! i = Some 1%nat /\ objs w !! 1%nat = Some p
                    /\ strictEq (id p) wanted = true
                    /\ forall j rj, (j < i)%nat -> l !! j = Some rj ->
                         exists q, objs w !! rj = Some q
                                   /\ strictEq (id q) wanted = false.
Proof.
  intros setup w wanted.
  apply (getPersonById_finds wanted w w (Some 1%nat)).
  - reflexivity.
  - vm_compute. reflexivity.
Defined.

Lemma importFromFile_checks_witness :
  let items := [ Sample.entry (js "Ana Lima") (js "10/05/1995") (js "(21) 98888-7777")
                              (js "ana@x.com") ] in
  let sum := match DataBackup.calculateChecksum (VArr items) with
             | Ok c => c
             | Throw _ => []
             end in
  let file := Some {| DataBackup.ftype := js "application/json";
                      DataBackup.fname := js "pessoas_backup_2026-11-02.json";
                      DataBackup.content :=
                        JSON.stringify
                          (VObj [ (js "exportDate", VStr (js "2026-11-02T00:00:00.000Z"));
                                  (js "version", VStr (js "1.0"));
                                  (js "data", VArr items);
                                  (js "checksum", VStr sum) ]) |} in
  DataBackup.importFromFile file = Ok (VArr items)
  /\ (forall v, DataBackup.importFromFile file = Ok v ->
        exists f text obj l,
          file = Some f
          /\ (str_eqb (DataBackup.ftype f) (js "application/json") = true
              \/ DataBackup.endsWith (DataBackup.fname f) (js ".json") = true)
          /\ DataBackup.content f = Some text
          /\ JSON.parse text = Some obj
          /\ getProp obj (js "data") = Ok (VArr l)
          /\ v = VArr l
          /\ (forall cs, getProp obj (js "checksum") = Ok cs -> truthy cs = true ->
                exists c, cs = VStr c /\ DataBackup.calculateChecksum (VArr l) = Ok c))
  /\ (forall f text obj l c c',
        file = Some f ->
        (str_eqb (DataBackup.ftype f) (js "application/json") = true
         \/ DataBackup.endsWith (DataBackup.fname f) (js ".json") = true) ->
        DataBackup.content f = Some text ->
        JSON.parse text = Some obj ->
        getProp obj (js "data") = Ok (VArr l) ->
        getProp obj (js "checksum") = Ok (VStr c) -> c <> [] ->
        DataBackup.calculateChecksum (VArr l) = Ok c' ->
        DataBackup.importFromFile file
        = if str_eqb c' c then Ok (VArr l)
          else Throw (AppError (js "Arquivo corrompido - checksum inválido")
                               STORAGE_ERROR)).
Proof.
  intros items sum file.
  split; [vm_compute; reflexivity|].
  apply (importFromFile_checks file). vm_compute. reflexivity.
Defined.

Lemma addPerson_then_getPersonById_witness :
  let w := Sample.after (@Sample.ana Sample.running) (Sample.emptyWorld 4000) in
  let w' := Sample.after (@DataManager.addPerson Sample.running 0%nat) w in
  exists p,
    objs w !! 0%nat = Some p
    /\ exists r q,
         DataManager.getPersonById (id p) w' = (Ok (Some r), w')
         /\ objs w' !! r = Some q
         /\ strictEq (id q) (id p) = true.
Proof.
  intros w w'.
  destruct (objs w !! 0%nat) as [p|] eqn:Ep; [|vm_compute in Ep; discriminate Ep].
  exists p. split; [reflexivity|].
  apply (@addPerson_then_getPersonById Sample.running 0%nat w w' true p).
  - vm_compute. reflexivity.
  - exact Ep.
  - vm_compute in Ep. injection Ep as <-. vm_compute. reflexivity.
Defined.

Lemma update_keeps_identity_witness :
  let w := Sample.after (@Sample.ana Sample.running) (Sample.emptyWorld 4000) in
  let data := VObj [ (js "nome", VStr (js "Ana Souza"));
                     (js "telefone", VStr (js "(11) 91234-5678")) ] in
  exists p,
    objs w !! 0%nat = Some p
    /\ (exists q w',
          @Person.update Sample.running 0%nat data w = (Ok tt, w')
          /\ objs w' = <[0%nat := q]> (objs w) /\ storeSame w w'
          /\ id q = id p /\ createdAt q = createdAt p
          /\ updatedAt q = Some (@clock Sample.running (ticks w))
          /\ nome q = VStr (js "ANA SOUZA")
          /\ dataNascimento q = dataNascimento p
          /\ telefone q = VStr (js "(11) 91234-5678")
          /\ email q = email p)
    /\ (forall data' e w',
          @Person.update Sample.running 0%nat data' w = (Throw e, w') ->
          w' = w /\ isAppError e = false).
Proof.
  intros w data.
  destruct (objs w !! 0%nat) as [p|] eqn:Ep; [|vm_compute in Ep; discriminate Ep].
  exists p. split; [reflexivity|].
  apply (@update_keeps_identity Sample.running 0%nat data w p
           (VStr (js "Ana Souza")) VUndefined (VStr (js "(11) 91234-5678")) VUndefined Ep).
  - reflexivity.
  - reflexivity.
  - reflexivity.
  - reflexivity.
  - right. reflexivity.
Defined.

Lemma parseBrazilianDate_calendar_witness :
  exists date,
    @Person.parseBrazilianDate Sample.running (VStr (js "em 29/02/2000")) = Some date
    /\ exists ds ms ys,
         Person.matchDate (Person.cleanDate (js "em 29/02/2000")) = Some (ds, ms, ys)
         /\ 1 <= parseDigits ds <= DateTime.daysInMonth (parseDigits ys) (parseDigits ms)
         /\ 1 <= parseDigits ms <= 12
         /\ 1900 <= parseDigits ys <= 2100
         /\ @Person.getDate Sample.running date = parseDigits ds
         /\ @Person.getMonth Sample.running date = parseDigits ms - 1
         /\ @Person.getFullYear Sample.running date = parseDigits ys.
Proof.
  eexists. split; [vm_compute; reflexivity|].
  apply (@parseBrazilianDate_calendar Sample.running). vm_compute. reflexivity.
Defined.
